(** * automaticfactverification: the hash-sharded document index

    A shallow embedding of [build_index.py] (the index builder) and
    [document_getter.py] (the index reader and the sentence resolver),
    followed by the properties of the specification that were settled
    against it.

    Conventions of the embedding.
    - A Python [str] is a Rocq [string]; the characters are the ASCII
      code points, for which the UTF-8 encoding used by [sha1_hash] is the
      identity on code points.
    - A Python [int] is a [Z].
    - A [dict] is an association list in insertion order ([PyDict]); a
      [set] is a list, and every operation that iterates over a set is
      quantified over the order of that list.
    - An exception is a value of [exn]; code that can raise returns in
      [outcome], and code that also changes the file system or the module
      counters runs in the monad [M], whose state survives an exception. *)

From Stdlib Require Import ZArith List String Ascii Bool Lia Arith.
From Stdlib Require Import Sorting.Sorted Sorting.Permutation.
Import ListNotations.
Local Open Scope list_scope.
Local Open Scope string_scope.

(* ===================================================================== *)
(** ** Python strings *)
(* ===================================================================== *)

Module PyStr.

Definition chars (s : string) : list ascii := list_ascii_of_string s.
Definition of_chars (l : list ascii) : string := string_of_list_ascii l.

Definition code (c : ascii) : nat := nat_of_ascii c.

(** [c.islower()] for one character. *)
Definition char_islower (c : ascii) : bool :=
  (97 <=? code c)%nat && (code c <=? 122)%nat.

Definition char_isupper (c : ascii) : bool :=
  (65 <=? code c)%nat && (code c <=? 90)%nat.

Definition char_isdigit (c : ascii) : bool :=
  (48 <=? code c)%nat && (code c <=? 57)%nat.

(** [c.isspace()]: tab, line feed, vertical tab, form feed, carriage
    return, the four separators 0x1c-0x1f and the space. *)
Definition char_isspace (c : ascii) : bool :=
  ((9 <=? code c)%nat && (code c <=? 13)%nat)
  || ((28 <=? code c)%nat && (code c <=? 32)%nat).

(** The class [\w] of the [re] module. *)
Definition char_isword (c : ascii) : bool :=
  char_islower c || char_isupper c || char_isdigit c || (code c =? 95)%nat.

Definition char_lower (c : ascii) : ascii :=
  if char_isupper c then ascii_of_nat (code c + 32) else c.

(** [s.lower()] *)
Fixpoint lower (s : string) : string :=
  match s with
  | EmptyString => EmptyString
  | String c s' => String (char_lower c) (lower s')
  end.

(** [s[0].islower()], for a non-empty [s]; subscripting the empty string
    raises, which the callers rule out before they subscript. *)
Definition first_islower (s : string) : bool :=
  match s with
  | EmptyString => false
  | String c _ => char_islower c
  end.

(** [bool(s)] *)
Definition nonempty (s : string) : bool :=
  match s with EmptyString => false | _ => true end.

(** [sub in s] *)
Fixpoint contains (sub s : string) : bool :=
  prefix sub s
  || match s with
     | EmptyString => false
     | String _ s' => contains sub s'
     end.

(** [s.find(c)] for a one-character needle: the index of the first
    occurrence. *)
Fixpoint find_char (c : ascii) (s : string) : option nat :=
  match s with
  | EmptyString => None
  | String a s' =>
      if Ascii.eqb a c then Some O
      else option_map S (find_char c s')
  end.

Fixpoint drop (n : nat) (s : string) : string :=
  match n, s with
  | O, _ => s
  | S _, EmptyString => EmptyString
  | S n', String _ s' => drop n' s'
  end.

Fixpoint take (n : nat) (s : string) : string :=
  match n, s with
  | O, _ => EmptyString
  | S _, EmptyString => EmptyString
  | S n', String c s' => String c (take n' s')
  end.

(** [s.lstrip(p)], [s.rstrip(p)] and [s.strip(p)] for a character
    class [p]. *)
Fixpoint lstrip_by (p : ascii -> bool) (s : string) : string :=
  match s with
  | EmptyString => EmptyString
  | String c s' => if p c then lstrip_by p s' else s
  end.

Fixpoint rstrip_by (p : ascii -> bool) (s : string) : string :=
  match s with
  | EmptyString => EmptyString
  | String c s' =>
      match rstrip_by p s' with
      | EmptyString => if p c then EmptyString else String c EmptyString
      | r => String c r
      end
  end.

Definition strip_by (p : ascii -> bool) (s : string) : string :=
  rstrip_by p (lstrip_by p s).

(** [s.strip()] *)
Definition strip (s : string) : string := strip_by char_isspace s.

(** Splitting on the maximal runs of a separator class.  [cur] holds the
    characters of the current field, latest first.  With
    [keep_empty = true] this is [re.split] on the pattern "one or more
    separators" (an empty field can only come first or last); with
    [keep_empty = false] it is [s.split()] when the class is the white
    space. *)
Fixpoint split_runs (sep : ascii -> bool) (keep_empty : bool)
         (cur : list ascii) (in_sep : bool) (s : string) : list string :=
  match s with
  | EmptyString =>
      if in_sep && negb keep_empty then []
      else if negb keep_empty && match cur with [] => true | _ => false end
           then []
           else [of_chars (rev cur)]
  | String c s' =>
      if sep c then
        if in_sep then split_runs sep keep_empty [] true s'
        else
          if negb keep_empty && match cur with [] => true | _ => false end
          then split_runs sep keep_empty [] true s'
          else of_chars (rev cur) :: split_runs sep keep_empty [] true s'
      else split_runs sep keep_empty (c :: cur) false s'
  end.

(** [re.split(pattern, s)] where [pattern] is one or more characters of
    the class [sep]. *)
Definition re_split (sep : ascii -> bool) (s : string) : list string :=
  split_runs sep true [] false s.

(** [s.split()] *)
Definition split_ws (s : string) : list string :=
  split_runs char_isspace false [] false s.

(** [s.split(c)] for a one-character separator: every occurrence
    separates, and empty fields are kept. *)
Fixpoint split_on_aux (c : ascii) (cur : list ascii) (s : string)
  : list string :=
  match s with
  | EmptyString => [of_chars (rev cur)]
  | String a s' =>
      if Ascii.eqb a c then of_chars (rev cur) :: split_on_aux c [] s'
      else split_on_aux c (a :: cur) s'
  end.

Definition split_on (c : ascii) (s : string) : list string :=
  split_on_aux c [] s.

(** [sep.join(l)] *)
Fixpoint join (sep : string) (l : list string) : string :=
  match l with
  | [] => EmptyString
  | [x] => x
  | x :: l' => x ++ sep ++ join sep l'
  end.

(** [s.replace(old, new)] for a non-empty [old]: the occurrences are
    replaced from left to right without overlap.  The recursion is on
    the fuel [n], and [length s] always suffices. *)
Fixpoint replace_fuel (n : nat) (old new s : string) : string :=
  match n with
  | O => s
  | S n' =>
      match s with
      | EmptyString => EmptyString
      | String c s' =>
          if prefix old s
          then new ++ replace_fuel n' old new (drop (length old) s)
          else String c (replace_fuel n' old new s')
      end
  end.

Definition replace (old new s : string) : string :=
  replace_fuel (length s) old new s.

(** The order of [str]: by code point, a proper prefix first. *)
Fixpoint leb (a b : string) : bool :=
  match a, b with
  | EmptyString, _ => true
  | String _ _, EmptyString => false
  | String x a', String y b' =>
      if (code x <? code y)%nat then true
      else if (code y <? code x)%nat then false
      else leb a' b'
  end.

(** [str(n)] for an [int]. *)
Fixpoint digits_fuel (fuel : nat) (n : N) (acc : string) : string :=
  match fuel with
  | O => acc
  | S fuel' =>
      let acc' :=
        String (ascii_of_N (48 + N.modulo n 10)) acc in
      if (n <? 10)%N then acc'
      else digits_fuel fuel' (N.div n 10) acc'
  end.

Definition str_of_N (n : N) : string :=
  digits_fuel (S (N.to_nat (N.log2 n))) n EmptyString.

Definition str_of_Z (z : Z) : string :=
  match z with
  | Z0 => "0"
  | Zpos p => str_of_N (Npos p)
  | Zneg p => "-" ++ str_of_N (Npos p)
  end.

(** [s.isdigit()] *)
Definition isdigit (s : string) : bool :=
  nonempty s && forallb char_isdigit (chars s).

Definition digit_val (c : ascii) : Z := Z.of_nat (code c) - 48.

(** The value of a string of decimal digits. *)
Definition Z_of_digits (s : string) : Z :=
  fold_left (fun acc c => 10 * acc + digit_val c)%Z (chars s) 0%Z.

(** [s[i]] with Python's negative subscripts; [None] is the
    [IndexError]. *)
Definition index (s : string) (i : Z) : option string :=
  let n := Z.of_nat (length s) in
  let j := if (i <? 0)%Z then (i + n)%Z else i in
  if (j <? 0)%Z then None
  else match get (Z.to_nat j) s with
       | Some c => Some (String c EmptyString)
       | None => None
       end.

End PyStr.


(** The line feed and the other characters written with an escape in the
    Python source. *)
Definition LF : string := String (ascii_of_nat 10) EmptyString.
Definition CR : string := String (ascii_of_nat 13) EmptyString.
Definition BACKSLASH : string := String (ascii_of_nat 92) EmptyString.

(* ===================================================================== *)
(** ** SHA-1 ([hashlib.sha1]) *)
(* ===================================================================== *)

Module SHA1.
Local Open Scope Z_scope.

Definition mask32 (x : Z) : Z := Z.land x 4294967295.
Definition add32 (x y : Z) : Z := mask32 (x + y).
Definition rotl (n x : Z) : Z :=
  mask32 (Z.lor (Z.shiftl x n) (Z.shiftr x (32 - n))).
Definition not32 (x : Z) : Z := Z.lxor x 4294967295.

(** Padding: the bit 1, zeros up to 56 modulo 64 bytes, and the length
    in bits as a 64-bit big-endian integer. *)
Definition be_bytes (width : nat) (x : Z) : list Z :=
  map (fun i => Z.land (Z.shiftr x (8 * Z.of_nat i)) 255)
      (rev (seq 0 width)).

Definition pad (msg : list Z) : list Z :=
  let len := Z.of_nat (List.length msg) in
  let zeros := Z.to_nat ((55 - len) mod 64) in
  msg ++ [128] ++ repeat 0 zeros ++ be_bytes 8 (8 * len).

Fixpoint words_of_bytes (fuel : nat) (bs : list Z) : list Z :=
  match fuel, bs with
  | S fuel', b0 :: b1 :: b2 :: b3 :: rest =>
      (Z.shiftl b0 24 + Z.shiftl b1 16 + Z.shiftl b2 8 + b3)
        :: words_of_bytes fuel' rest
  | _, _ => []
  end.

(** The message schedule, latest word first: [w] holds
    [w[t-1]; w[t-2]; ...]. *)
Fixpoint schedule (n : nat) (w : list Z) : list Z :=
  match n with
  | O => w
  | S n' =>
      let x := Z.lxor (Z.lxor (nth 2 w 0) (nth 7 w 0))
                      (Z.lxor (nth 13 w 0) (nth 15 w 0)) in
      schedule n' (rotl 1 x :: w)
  end.

Definition round_f (t : nat) (b c d : Z) : Z :=
  if (t <? 20)%nat then Z.lor (Z.land b c) (Z.land (not32 b) d)
  else if (t <? 40)%nat then Z.lxor (Z.lxor b c) d
  else if (t <? 60)%nat
       then Z.lor (Z.lor (Z.land b c) (Z.land b d)) (Z.land c d)
       else Z.lxor (Z.lxor b c) d.

Definition round_k (t : nat) : Z :=
  if (t <? 20)%nat then 1518500249
  else if (t <? 40)%nat then 1859775393
  else if (t <? 60)%nat then 2400959708
  else 3395469782.

Record state := mkState { h0 : Z; h1 : Z; h2 : Z; h3 : Z; h4 : Z }.

Definition init : state :=
  mkState 1732584193 4023233417 2562383102 271733878 3285377520.

Definition round (s : state) (tw : nat * Z) : state :=
  let (t, w) := tw in
  let temp :=
    add32 (add32 (add32 (add32 (rotl 5 (h0 s))
                               (round_f t (h1 s) (h2 s) (h3 s)))
                        (h4 s))
                 (round_k t)) w in
  mkState temp (h0 s) (rotl 30 (h1 s)) (h2 s) (h3 s).

Definition compress (s : state) (block : list Z) : state :=
  let w := rev (schedule 64 (rev block)) in
  let r := fold_left round (combine (seq 0 80) w) s in
  mkState (add32 (h0 s) (h0 r)) (add32 (h1 s) (h1 r))
          (add32 (h2 s) (h2 r)) (add32 (h3 s) (h3 r))
          (add32 (h4 s) (h4 r)).

Fixpoint blocks (fuel : nat) (ws : list Z) : list (list Z) :=
  match fuel, ws with
  | _, [] => []
  | O, _ => []
  | S fuel', _ => firstn 16 ws :: blocks fuel' (skipn 16 ws)
  end.

Definition digest (msg : list Z) : state :=
  let bs := pad msg in
  let ws := words_of_bytes (List.length bs) bs in
  fold_left compress (blocks (List.length ws) ws) init.

Definition hex_digit (x : Z) : ascii :=
  if x <? 10 then ascii_of_nat (Z.to_nat (48 + x))
  else ascii_of_nat (Z.to_nat (87 + x)).

Definition hex8 (x : Z) (rest : string) : string :=
  String (hex_digit (Z.land (Z.shiftr x 28) 15))
 (String (hex_digit (Z.land (Z.shiftr x 24) 15))
 (String (hex_digit (Z.land (Z.shiftr x 20) 15))
 (String (hex_digit (Z.land (Z.shiftr x 16) 15))
 (String (hex_digit (Z.land (Z.shiftr x 12) 15))
 (String (hex_digit (Z.land (Z.shiftr x 8) 15))
 (String (hex_digit (Z.land (Z.shiftr x 4) 15))
 (String (hex_digit (Z.land x 15)) rest))))))).

(** [sha1(...).hexdigest()] *)
Definition hexdigest (s : state) : string :=
  hex8 (h0 s) (hex8 (h1 s) (hex8 (h2 s) (hex8 (h3 s)
    (hex8 (h4 s) EmptyString)))).

End SHA1.

Definition ENCODING : string := "utf-8".

(** [bytes(target, ENCODING)] on ASCII text. *)
Definition utf8_bytes (target : string) : list Z :=
  map (fun c => Z.of_nat (nat_of_ascii c)) (list_ascii_of_string target).

(** [sha1_hash]: the hexadecimal SHA-1 digest of a string (the same
    function in both modules). *)
Definition sha1_hash (target : string) : string :=
  SHA1.hexdigest (SHA1.digest (utf8_bytes target)).


(* ===================================================================== *)
(** ** Exceptions, values and dictionaries *)
(* ===================================================================== *)

Inductive exn : Type :=
| NameError (name : string)
| IndexError
| KeyError (key : string)
| AttributeError
| TypeError
| ValueError
| ZeroDivisionError
| RecursionError
| FileExistsError (path : string)
| FileNotFoundError (path : string)
| IsADirectoryError (path : string).

Inductive outcome (A : Type) : Type :=
| Ok (a : A)
| Raise (e : exn).
Arguments Ok {A} a.
Arguments Raise {A} e.

Definition outcome_bind {A B} (r : outcome A) (f : A -> outcome B) : outcome B :=
  match r with
  | Ok a => f a
  | Raise e => Raise e
  end.

Definition of_option {A} (e : exn) (o : option A) : outcome A :=
  match o with
  | Some a => Ok a
  | None => Raise e
  end.

(** Keys of a dictionary: a type with a decidable equality. *)
Class KeyEq (K : Type) : Type :=
  { key_eqb : K -> K -> bool;
    key_eqb_spec : forall a b, reflect (a = b) (key_eqb a b) }.

#[global] Instance KeyEq_string : KeyEq string :=
  {| key_eqb := String.eqb; key_eqb_spec := String.eqb_spec |}.

#[global] Instance KeyEq_Z : KeyEq Z :=
  {| key_eqb := Z.eqb; key_eqb_spec := Z.eqb_spec |}.

(** A [dict] in insertion order. *)
Module PyDict.
Section Ops.
Context {K V : Type} `{KeyEq K}.

(** [d.get(k)] *)
Fixpoint get (k : K) (d : list (K * V)) : option V :=
  match d with
  | [] => None
  | (k', v) :: d' => if key_eqb k' k then Some v else get k d'
  end.

(** [k in d] *)
Definition mem (k : K) (d : list (K * V)) : bool :=
  match get k d with
  | Some _ => true
  | None => false
  end.

(** [d[k] = v]: a present key keeps its place, a new key goes last. *)
Fixpoint set (k : K) (v : V) (d : list (K * V)) : list (K * V) :=
  match d with
  | [] => [(k, v)]
  | (k', v') :: d' =>
      if key_eqb k' k then (k, v) :: d' else (k', v') :: set k v d'
  end.

(** [del d[k]] for a present key. *)
Fixpoint del (k : K) (d : list (K * V)) : list (K * V) :=
  match d with
  | [] => []
  | (k', v') :: d' =>
      if key_eqb k' k then d' else (k', v') :: del k d'
  end.

Definition keys (d : list (K * V)) : list K := map fst d.
End Ops.
End PyDict.

(** A [set] of strings, without repetition. *)
Module PySet.
Definition mem (x : string) (s : list string) : bool :=
  existsb (String.eqb x) s.

(** [s.add(x)] *)
Definition add (x : string) (s : list string) : list string :=
  if mem x s then s else s ++ [x].

(** [set(l)] *)
Definition of_list (l : list string) : list string :=
  fold_left (fun s x => add x s) l [].

(** [a | b] *)
Definition union (a b : list string) : list string :=
  fold_left (fun s x => add x s) b a.
End PySet.

(** [sorted(l)] for an order given as a boolean test; like Python's sort
    it is stable. *)
Section Sorted.
Context {A : Type} (le : A -> A -> bool).

Fixpoint insert_sorted (x : A) (l : list A) : list A :=
  match l with
  | [] => [x]
  | y :: l' => if le x y then x :: l else y :: insert_sorted x l'
  end.

Definition sorted (l : list A) : list A :=
  fold_right insert_sorted [] l.
End Sorted.

(** The order of the tuples [(sent_no, sentence)]. *)
Definition item_leb (a b : Z * string) : bool :=
  if (fst a <? fst b)%Z then true
  else if (fst b <? fst a)%Z then false
  else PyStr.leb (snd a) (snd b).

(** The values held by the two index trees: their nodes are dictionaries
    whose values are document-name sets, sentence dictionaries, the
    running total stored under [SAFE_STRING], or further nodes.  [VStr]
    and [VObj] are the other values of the module namespace. *)
#[warnings="-register-all"]
Inductive pyval : Type :=
| VInt (n : Z)
| VStr (s : string)
| VSet (s : list string)
| VSents (m : list (Z * string))
| VDict (d : list (string * pyval))
| VObj.

Definition pydict : Type := list (string * pyval).

(** [len(v)] *)
Definition py_len (v : pyval) : outcome Z :=
  match v with
  | VStr s => Ok (Z.of_nat (String.length s))
  | VSet s => Ok (Z.of_nat (List.length s))
  | VSents m => Ok (Z.of_nat (List.length m))
  | VDict d => Ok (Z.of_nat (List.length d))
  | VInt _ | VObj => Raise TypeError
  end.

(** A node of an index tree is a dictionary. *)
Definition as_dict (v : pyval) : outcome pydict :=
  match v with
  | VDict d => Ok d
  | _ => Raise TypeError
  end.

Definition as_int (v : pyval) : outcome Z :=
  match v with
  | VInt n => Ok n
  | _ => Raise TypeError
  end.

(** [d[k]] *)
Definition getitem (d : pydict) (k : string) : outcome pyval :=
  of_option (KeyError k) (PyDict.get k d).

(* ===================================================================== *)
(** ** The file system, the module counters and the monad of effects *)
(* ===================================================================== *)

(** The file system maps a path, as the program spells it, to a directory
    or to the text of a file.  The paths of this program are a fixed
    folder name followed by hexadecimal digits, so that two spellings
    name the same file exactly when they are the same string. *)
Inductive fs_entry : Type :=
| FDir
| FFile (content : string).

Definition filesys : Type := list (string * fs_entry).

(** The module-level counters of [build_index.py]. *)
Record counters : Type := mkCounters
  { word_count : Z;
    doc_count : Z;
    processed_word_count : Z;
    processed_doc_count : Z;
    word_count_1percent : Z;
    doc_count_1percent : Z }.

(** The values the module gives its counters when it is loaded. *)
Definition initial_counters : counters := mkCounters 0 0 0 0 0 0.

Record world : Type := mkWorld
  { w_fs : filesys;
    w_glob : counters }.

Definition M (A : Type) : Type := world -> world * outcome A.

Definition ret {A} (a : A) : M A := fun w => (w, Ok a).

Definition bind {A B} (m : M A) (f : A -> M B) : M B :=
  fun w =>
    match m w with
    | (w', Ok a) => f a w'
    | (w', Raise e) => (w', Raise e)
    end.

Definition raise {A} (e : exn) : M A := fun w => (w, Raise e).

Definition lift {A} (r : outcome A) : M A := fun w => (w, r).

Definition get_counters : M counters := fun w => (w, Ok (w_glob w)).

Definition put_counters (g : counters) : M unit :=
  fun w => (mkWorld (w_fs w) g, Ok tt).

Declare Scope py_scope.
Delimit Scope py_scope with py.
Notation "x <- m ;; k" := (bind m (fun x => k))
  (at level 100, m at next level, right associativity) : py_scope.
Notation "m ;;; k" := (bind m (fun _ => k))
  (at level 100, right associativity) : py_scope.
Local Open Scope py_scope.

(** [sys.platform] is fixed for a run and is a parameter of the code that
    spells paths. *)
Definition SEPARATOR (platform : string) : string :=
  if String.eqb platform "win32" then BACKSLASH else "/".

Definition is_separator (platform : string) (c : ascii) : bool :=
  Ascii.eqb c "/"
  || (String.eqb platform "win32" && Ascii.eqb c (ascii_of_nat 92)).

(** The path of the directory that holds [path]; [None] when [path] has
    a single component, which the current directory holds. *)
Fixpoint parent_chars (platform : string) (rev_path : list ascii)
  : option (list ascii) :=
  match rev_path with
  | [] => None
  | c :: rest =>
      if is_separator platform c then Some rest
      else parent_chars platform rest
  end.

Definition parent_of (platform path : string) : option string :=
  option_map (fun l => PyStr.of_chars (rev l))
             (parent_chars platform (rev (PyStr.chars path))).

Definition fs_isdir (fs : filesys) (path : string) : bool :=
  match PyDict.get path fs with
  | Some FDir => true
  | _ => false
  end.

Definition fs_isfile (fs : filesys) (path : string) : bool :=
  match PyDict.get path fs with
  | Some (FFile _) => true
  | _ => false
  end.

Definition parent_exists (platform : string) (fs : filesys) (path : string)
  : bool :=
  match parent_of platform path with
  | None => true
  | Some dir => fs_isdir fs dir
  end.

(** [os.mkdir(path)] *)
Definition os_mkdir (platform path : string) : M unit :=
  fun w =>
    if PyDict.mem path (w_fs w) then (w, Raise (FileExistsError path))
    else if negb (parent_exists platform (w_fs w) path)
         then (w, Raise (FileNotFoundError path))
         else (mkWorld (PyDict.set path FDir (w_fs w)) (w_glob w), Ok tt).

(** [open(path, "w")]: the file is created or emptied. *)
Definition open_w (platform path : string) : M unit :=
  fun w =>
    if fs_isdir (w_fs w) path then (w, Raise (IsADirectoryError path))
    else if negb (parent_exists platform (w_fs w) path)
         then (w, Raise (FileNotFoundError path))
         else (mkWorld (PyDict.set path (FFile EmptyString) (w_fs w))
                       (w_glob w), Ok tt).

(** [file_obj.write(text)] on the file opened at [path].  The text stays
    in the file when a later statement of the [with] block raises. *)
Definition file_write (path text : string) : M unit :=
  fun w =>
    match PyDict.get path (w_fs w) with
    | Some (FFile content) =>
        (mkWorld (PyDict.set path (FFile (content ++ text)) (w_fs w))
                 (w_glob w), Ok tt)
    | _ => (w, Raise (FileNotFoundError path))
    end.

(** The lines of a text read with universal newlines: a line ends after
    a line feed, and a carriage return, alone or before a line feed, is
    read as a line feed. *)
Fixpoint read_lines (cur : list ascii) (s : string) : list string :=
  match s with
  | EmptyString =>
      match cur with
      | [] => []
      | _ => [PyStr.of_chars (rev cur)]
      end
  | String c s' =>
      if Ascii.eqb c (ascii_of_nat 10)
      then PyStr.of_chars (rev (c :: cur)) :: read_lines [] s'
      else if Ascii.eqb c (ascii_of_nat 13)
           then
             let rest :=
               match s' with
               | String c' s'' =>
                   if Ascii.eqb c' (ascii_of_nat 10) then s'' else s'
               | EmptyString => s'
               end in
             PyStr.of_chars (rev (ascii_of_nat 10 :: cur))
               :: read_lines [] rest
           else read_lines (c :: cur) s'
  end.

(* ===================================================================== *)
(** ** build_index.py *)
(* ===================================================================== *)

Definition INPUT_FOLDER : string := "wiki-pages-text".
Definition INDEX_FOLDER : string := "docname-index".
Definition DOC_FOLDER : string := "indexed-docs".
Definition INPUT_FILE_COUNT : Z := 109.
Definition START_FILE : Z := 1.
Definition END_FILE : Z := INPUT_FILE_COUNT.
Definition FOLDER_SIZE : Z := 100.
Definition FILE_CAPACITY : Z := 20000.
Definition SAFE_STRING : string := "xmcgcg".

(** The names bound at the top level of [build_index.py] once the module
    is loaded, with the values that matter here. *)
Definition module_globals (platform : string) (g : counters) : pydict :=
  [ ("os", VObj); ("sys", VObj); ("re", VObj); ("sha1", VObj);
    ("NewType", VObj); ("Dict", VObj); ("List", VObj); ("Tuple", VObj);
    ("Union", VObj); ("Set", VObj); ("strftime", VObj);
    ("print_exc", VObj);
    ("INPUT_FOLDER", VStr INPUT_FOLDER);
    ("INDEX_FOLDER", VStr INDEX_FOLDER);
    ("DOC_FOLDER", VStr DOC_FOLDER);
    ("ENCODING", VStr ENCODING);
    ("SEPARATOR", VStr (SEPARATOR platform));
    ("INPUT_FILE_COUNT", VInt INPUT_FILE_COUNT);
    ("START_FILE", VInt START_FILE);
    ("END_FILE", VInt END_FILE);
    ("FOLDER_SIZE", VInt FOLDER_SIZE);
    ("FILE_CAPACITY", VInt FILE_CAPACITY);
    ("SAFE_STRING", VStr SAFE_STRING);
    ("NameDict", VObj); ("IndexNode", VObj); ("SentDict", VObj);
    ("DocNode", VObj);
    ("word_count", VInt (word_count g));
    ("doc_count", VInt (doc_count g));
    ("processed_word_count", VInt (processed_word_count g));
    ("processed_doc_count", VInt (processed_doc_count g));
    ("word_count_1percent", VInt (word_count_1percent g));
    ("doc_count_1percent", VInt (doc_count_1percent g));
    ("transform_brackets", VObj); ("sha1_hash", VObj);
    ("get_input_pathname", VObj); ("expand_indices", VObj);
    ("add_doc_name_word", VObj); ("add_doc_name", VObj);
    ("expand_docs", VObj); ("add_doc_content", VObj);
    ("build_indices", VObj); ("build_docs", VObj);
    ("index_documents", VObj);
    ("__name__", VStr "__main__"); ("__doc__", VObj); ("__file__", VObj);
    ("__builtins__", VObj); ("__spec__", VObj); ("__loader__", VObj);
    ("__package__", VObj) ].

(** The built-in names the module uses; no built-in is called
    [index_node] or [doc_dict]. *)
Definition builtins : list string :=
  [ "len"; "set"; "map"; "filter"; "bool"; "str"; "int"; "bytes";
    "sorted"; "open"; "print"; "range"; "Exception"; "dict"; "list";
    "tuple"; "True"; "False"; "None" ].

(** Reading a name that the function does not bind: the module
    namespace, then the built-ins, else [NameError]. *)
Definition load_global (platform name : string) : M pyval :=
  fun w =>
    match PyDict.get name (module_globals platform (w_glob w)) with
    | Some v => (w, Ok v)
    | None =>
        if existsb (String.eqb name) builtins then (w, Ok VObj)
        else (w, Raise (NameError name))
    end.

Definition transform_brackets (target : string) : string :=
  PyStr.replace "-RRB-" ")" (PyStr.replace "-LRB-" "(" target).

(** [f"{file_index:03d}"] *)
Definition format_03d (n : Z) : string :=
  let s := PyStr.str_of_Z n in
  if (n <? 0)%Z then
    match String.length s with
    | 2%nat => "-0" ++ PyStr.drop 1 s
    | _ => s
    end
  else
    match String.length s with
    | 1%nat => "00" ++ s
    | 2%nat => "0" ++ s
    | _ => s
    end.

Definition get_input_pathname (platform : string) (file_index : Z) : string :=
  INPUT_FOLDER ++ SEPARATOR platform ++ "wiki-" ++ format_03d file_index
    ++ ".txt".

(** The loop body of [expand_indices] and of [expand_docs], which differ
    in the names of their variables only. *)
Definition expand_step (start_index : Z) (result : pydict)
           (item : string * pyval) : outcome pydict :=
  let (word, name_set) := item in
  outcome_bind (of_option IndexError (PyStr.index (sha1_hash word) start_index))
  (fun hash_digit =>
  let result :=
    if negb (PyDict.mem hash_digit result)
    then PyDict.set hash_digit (VDict [(SAFE_STRING, VInt 0)]) result
    else result in
  outcome_bind (outcome_bind (getitem result hash_digit) as_dict)
  (fun child =>
  let child := PyDict.set word name_set child in
  outcome_bind (py_len name_set)
  (fun n =>
  outcome_bind (outcome_bind (getitem child SAFE_STRING) as_int)
  (fun total =>
  let child := PyDict.set SAFE_STRING (VInt (total + (n + 1))) child in
  Ok (PyDict.set hash_digit (VDict child) result))))).

Fixpoint expand_loop (start_index : Z) (items : pydict) (result : pydict)
  : outcome pydict :=
  match items with
  | [] => Ok result
  | item :: items' =>
      outcome_bind (expand_step start_index result item)
                  (expand_loop start_index items')
  end.

Definition expand_indices (doc_name_dict : pydict) (start_index : Z)
  : outcome pydict :=
  expand_loop start_index doc_name_dict [].

Definition expand_docs (sent_dict : pydict) (start_index : Z)
  : outcome pydict :=
  expand_loop start_index sent_dict [].

Definition incr_word_count : M unit :=
  fun w =>
    let g := w_glob w in
    (mkWorld (w_fs w)
       (mkCounters (word_count g + 1) (doc_count g)
          (processed_word_count g) (processed_doc_count g)
          (word_count_1percent g) (doc_count_1percent g)), Ok tt).

Definition incr_doc_count : M unit :=
  fun w =>
    let g := w_glob w in
    (mkWorld (w_fs w)
       (mkCounters (word_count g) (doc_count g + 1)
          (processed_word_count g) (processed_doc_count g)
          (word_count_1percent g) (doc_count_1percent g)), Ok tt).

(** [add_doc_name_word], the branch taken at a leaf ([SAFE_STRING in
    value]).  The outcome is the value of [index_node[hash_digit]] when the
    branch ends: the leaf itself, changed in place, or the node that
    [expand_indices] made of it. *)
Definition add_name_at_leaf (doc_name word : string) (value : pydict)
           (start_index : Z) : M pyval :=
  value <- (if negb (PyDict.mem word value)
            then (incr_word_count ;;; ret (PyDict.set word (VSet []) value))
            else ret value) ;;
  payload <- lift (getitem value word) ;;
  names <- lift (match payload with
                 | VSet s => Ok s
                 | _ => Raise AttributeError
                 end) ;;
  let value := PyDict.set word (VSet (PySet.add doc_name names)) value in
  total <- lift (outcome_bind (getitem value SAFE_STRING) as_int) ;;
  let value := PyDict.set SAFE_STRING (VInt (total + 1)) value in
  total <- lift (outcome_bind (getitem value SAFE_STRING) as_int) ;;
  if (total >? FILE_CAPACITY)%Z then
    size <- lift (outcome_bind (getitem value word) py_len) ;;
    if (FILE_CAPACITY >=? size + 1)%Z then
      let value := PyDict.del SAFE_STRING value in
      children <- lift (expand_indices value (start_index + 1)) ;;
      ret (VDict children)
    else ret (VDict value)
  else ret (VDict value).

(** [add_doc_name_word].  The parameter is [index_dict], the body reads
    [index_node]: that name is bound nowhere in the function, so it is
    looked up in the module.  The outcome is the dictionary that
    [index_node] names when the call returns.  The recursion goes one
    hash digit deeper at each call and ends with the digits of the hash
    at the latest; the fuel counts those calls. *)
Fixpoint add_doc_name_word_from (fuel : nat) (platform : string)
         (doc_name word : string) (index_dict : pydict) (start_index : Z)
  : M pydict :=
  match fuel with
  | O => raise RecursionError
  | S fuel' =>
      let word_hash := sha1_hash word in
      hash_digit <-
        lift (of_option IndexError (PyStr.index word_hash start_index)) ;;
      index_node <- (v <- load_global platform "index_node" ;;
                     lift (as_dict v)) ;;
      let index_node :=
        if negb (PyDict.mem hash_digit index_node)
        then PyDict.set hash_digit (VDict [(SAFE_STRING, VInt 0)]) index_node
        else index_node in
      value <- lift (outcome_bind (getitem index_node hash_digit) as_dict) ;;
      if PyDict.mem SAFE_STRING value then
        child <- add_name_at_leaf doc_name word value start_index ;;
        ret (PyDict.set hash_digit child index_node)
      else
        add_doc_name_word_from fuel' platform doc_name word value
                               (start_index + 1)
  end.

(** One call for each subscript that [word_hash] accepts from
    [start_index] on, and one more. *)
Definition depth_fuel (start_index : Z) : nat :=
  S (Z.to_nat (40 - start_index)).

Definition add_doc_name_word (platform : string) (doc_name word : string)
           (index_dict : pydict) (start_index : Z) : M pydict :=
  add_doc_name_word_from (depth_fuel start_index) platform doc_name word
                         index_dict start_index.

Fixpoint for_each {A} (l : list A) (body : A -> M unit) : M unit :=
  match l with
  | [] => ret tt
  | x :: l' => body x ;;; for_each l' body
  end.

(** The separators of [re.split(r"[_\W]+", doc_name)]. *)
Definition name_separator (c : ascii) : bool :=
  Ascii.eqb c "_" || negb (PyStr.char_isword c).

(** [add_doc_name].  The words are visited in the order of their first
    occurrence, one of the orders in which the [set] may be iterated. *)
Definition add_doc_name (platform : string) (doc_name : string)
           (index_node : pydict) : M unit :=
  let doc_name_words :=
    map PyStr.lower
        (filter PyStr.nonempty (PyStr.re_split name_separator doc_name)) in
  for_each (PySet.of_list doc_name_words)
           (fun word =>
              add_doc_name_word platform doc_name word index_node 0 ;;;
              ret tt).

(** [add_doc_content], the branch taken at a leaf. *)
Definition add_content_at_leaf (doc_name : string)
           (doc_content : list (Z * string)) (value : pydict)
           (start_index : Z) : M pyval :=
  incr_doc_count ;;;
  let value := PyDict.set doc_name (VSents doc_content) value in
  let dict_len := (Z.of_nat (List.length doc_content) + 1)%Z in
  total <- lift (outcome_bind (getitem value SAFE_STRING) as_int) ;;
  let value := PyDict.set SAFE_STRING (VInt (total + dict_len)) value in
  total <- lift (outcome_bind (getitem value SAFE_STRING) as_int) ;;
  if (total >? FILE_CAPACITY)%Z && (FILE_CAPACITY >=? dict_len)%Z then
    let value := PyDict.del SAFE_STRING value in
    children <- lift (expand_docs value (start_index + 1)) ;;
    ret (VDict children)
  else ret (VDict value).

(** [add_doc_content].  The parameter is [doc_node], the body reads
    [doc_dict]. *)
Fixpoint add_doc_content_from (fuel : nat) (platform : string)
         (doc_name : string) (doc_content : list (Z * string))
         (doc_node : pydict) (start_index : Z) : M pydict :=
  match fuel with
  | O => raise RecursionError
  | S fuel' =>
      let name_hash := sha1_hash doc_name in
      hash_digit <-
        lift (of_option IndexError (PyStr.index name_hash start_index)) ;;
      doc_dict <- (v <- load_global platform "doc_dict" ;;
                   lift (as_dict v)) ;;
      let doc_dict :=
        if negb (PyDict.mem hash_digit doc_dict)
        then PyDict.set hash_digit (VDict [(SAFE_STRING, VInt 0)]) doc_dict
        else doc_dict in
      value <- lift (outcome_bind (getitem doc_dict hash_digit) as_dict) ;;
      if PyDict.mem SAFE_STRING value then
        child <- add_content_at_leaf doc_name doc_content value
                                     start_index ;;
        ret (PyDict.set hash_digit child doc_dict)
      else
        add_doc_content_from fuel' platform doc_name doc_content value
                             (start_index + 1)
  end.

Definition add_doc_content (platform : string) (doc_name : string)
           (doc_content : list (Z * string)) (doc_node : pydict)
           (start_index : Z) : M pydict :=
  add_doc_content_from (depth_fuel start_index) platform doc_name
                       doc_content doc_node start_index.

Definition incr_processed_word_count : M unit :=
  fun w =>
    let g := w_glob w in
    (mkWorld (w_fs w)
       (mkCounters (word_count g) (doc_count g)
          (processed_word_count g + 1) (processed_doc_count g)
          (word_count_1percent g) (doc_count_1percent g)), Ok tt).

Definition incr_processed_doc_count : M unit :=
  fun w =>
    let g := w_glob w in
    (mkWorld (w_fs w)
       (mkCounters (word_count g) (doc_count g)
          (processed_word_count g) (processed_doc_count g + 1)
          (word_count_1percent g) (doc_count_1percent g)), Ok tt).

(** [if count % one_percent == 0: ... print(...)]: the remainder raises
    when [one_percent] is zero; what is printed is not modelled. *)
Definition progress_report (count one_percent : Z) : M unit :=
  if (one_percent =? 0)%Z then raise ZeroDivisionError else ret tt.

(** The body of [for word in value] in [build_indices].  A leaf of the
    name tree holds sets of document names. *)
Definition write_name_entry (filename : string) (value : pydict)
           (word : string) : M unit :=
  payload <- lift (getitem value word) ;;
  size <- lift (py_len payload) ;;
  file_write filename (word ++ " " ++ PyStr.str_of_Z size ++ LF) ;;;
  names <- lift (match payload with
                 | VSet s => Ok s
                 | _ => Raise TypeError
                 end) ;;
  for_each (sorted PyStr.leb names)
           (fun doc_name : string => file_write filename (doc_name ++ LF)) ;;;
  incr_processed_word_count ;;;
  g <- get_counters ;;
  progress_report (processed_word_count g) (word_count_1percent g).

(** [build_indices].  The recursion follows the tree: [node] is the
    dictionary [index_node], and the inner loop is [for hash_digit in
    index_node].  The in-memory tree is emptied on the way
    ([value.clear()]) and is not used afterwards. *)
Fixpoint build_indices_node (platform : string) (node : pyval)
         (index_folder : string) {struct node} : M unit :=
  match node with
  | VDict index_node =>
      (fix each (items : pydict) : M unit :=
         match items with
         | [] => ret tt
         | (hash_digit, value) :: items' =>
             match value with
             | VDict d =>
                 if PyDict.mem SAFE_STRING d then
                   let d := PyDict.del SAFE_STRING d in
                   let filename :=
                     index_folder ++ SEPARATOR platform ++ hash_digit
                       ++ ".txt" in
                   open_w platform filename ;;;
                   for_each (PyDict.keys d) (write_name_entry filename d)
                 else
                   let folder :=
                     index_folder ++ SEPARATOR platform ++ hash_digit in
                   os_mkdir platform folder ;;;
                   build_indices_node platform value folder
             | _ => raise TypeError
             end ;;; each items'
         end) index_node
  | _ => raise TypeError
  end.

Definition build_indices (platform : string) (index_node : pydict)
           (index_folder : string) : M unit :=
  build_indices_node platform (VDict index_node) index_folder.

(** The body of [for doc_name in value] in [build_docs].  A leaf of the
    content tree holds sentence dictionaries. *)
Definition write_doc_entry (filename : string) (value : pydict)
           (doc_name : string) : M unit :=
  file_write filename (doc_name ++ LF) ;;;
  payload <- lift (getitem value doc_name) ;;
  items <- lift (match payload with
                 | VSents m => Ok m
                 | _ => Raise AttributeError
                 end) ;;
  for_each (sorted item_leb items)
           (fun item : Z * string =>
              file_write filename
                (PyStr.str_of_Z (fst item) ++ " "
                   ++ transform_brackets (snd item))) ;;;
  incr_processed_doc_count ;;;
  g <- get_counters ;;
  progress_report (processed_doc_count g) (doc_count_1percent g).

(** [build_docs] *)
Fixpoint build_docs_node (platform : string) (node : pyval)
         (doc_folder : string) {struct node} : M unit :=
  match node with
  | VDict doc_node =>
      (fix each (items : pydict) : M unit :=
         match items with
         | [] => ret tt
         | (hash_digit, value) :: items' =>
             match value with
             | VDict d =>
                 if PyDict.mem SAFE_STRING d then
                   let d := PyDict.del SAFE_STRING d in
                   let filename :=
                     doc_folder ++ SEPARATOR platform ++ hash_digit
                       ++ ".txt" in
                   open_w platform filename ;;;
                   for_each (PyDict.keys d) (write_doc_entry filename d)
                 else
                   let folder :=
                     doc_folder ++ SEPARATOR platform ++ hash_digit in
                   os_mkdir platform folder ;;;
                   build_docs_node platform value folder
             | _ => raise TypeError
             end ;;; each items'
         end) doc_node
  | _ => raise TypeError
  end.

Definition build_docs (platform : string) (doc_node : pydict)
           (doc_folder : string) : M unit :=
  build_docs_node platform (VDict doc_node) doc_folder.

(** [open(path, "r")] and the lines of the file. *)
Definition read_file (path : string) : M (list string) :=
  fun w =>
    match PyDict.get path (w_fs w) with
    | Some (FFile content) => (w, Ok (read_lines [] content))
    | Some FDir => (w, Raise (IsADirectoryError path))
    | None => (w, Raise (FileNotFoundError path))
    end.

Fixpoint fold_M {A B} (body : A -> B -> M A) (l : list B) (a : A) : M A :=
  match l with
  | [] => ret a
  | x :: l' => a' <- body a x ;; fold_M body l' a'
  end.

(** The locals [current_doc] and [current_sents] of [index_documents]. *)
Record scan_state : Type := mkScan
  { current_doc : string;
    current_sents : list (Z * string) }.

(** The body of [for line in input_file_obj].  The insert functions
    change the object their body names, not the dictionaries passed to
    them, so [index_dict] and [doc_dict] are the same after every
    call. *)
Definition process_line (platform : string) (first_round : bool)
           (index_dict doc_dict : pydict) (st : scan_state) (line : string)
  : M scan_state :=
  let line_list := PyStr.split_on " " line in
  let doc_name := transform_brackets (hd EmptyString line_list) in
  st <- (if negb (String.eqb doc_name (current_doc st)) then
           (if PyStr.nonempty (current_doc st) then
              if first_round
              then add_doc_name platform (current_doc st) index_dict
              else (add_doc_content platform (current_doc st)
                      (current_sents st) doc_dict 0 ;;; ret tt)
            else ret tt) ;;;
           ret (mkScan doc_name [])
         else ret st) ;;
  if negb first_round then
    sent_no_str <- lift (of_option IndexError (nth_error line_list 1)) ;;
    if PyStr.isdigit sent_no_str then
      ret (mkScan (current_doc st)
             (PyDict.set (PyStr.Z_of_digits sent_no_str)
                (PyStr.join " " (skipn 2 line_list)) (current_sents st)))
    else ret st
  else ret st.

(** [range(START_FILE, END_FILE + 1)] *)
Definition file_indices : list Z :=
  map (fun i => START_FILE + Z.of_nat i)%Z
      (seq 0 (Z.to_nat (END_FILE + 1 - START_FILE))).

(** One round of the [while] loop, up to the last insert. *)
Definition read_round (platform : string) (first_round : bool)
           (index_dict doc_dict : pydict) (st : scan_state) : M scan_state :=
  st <- fold_M
          (fun st file_index =>
             lines <- read_file (get_input_pathname platform file_index) ;;
             fold_M (process_line platform first_round index_dict doc_dict)
                    lines st)
          file_indices st ;;
  (if first_round
   then add_doc_name platform (current_doc st) index_dict
   else (add_doc_content platform (current_doc st) (current_sents st)
           doc_dict 0 ;;; ret tt)) ;;;
  ret st.

(** The [try] block of [index_documents].  [word_count_1percent] and
    [doc_count_1percent] are assigned without a [global] statement: the
    assignments bind locals and the module counters keep their value. *)
Definition index_documents_try (platform : string) : M unit :=
  let index_dict : pydict := [] in
  let doc_dict : pydict := [] in
  st <- read_round platform true index_dict doc_dict
                   (mkScan EmptyString []) ;;
  os_mkdir platform INDEX_FOLDER ;;;
  build_indices platform index_dict INDEX_FOLDER ;;;
  st <- read_round platform false index_dict doc_dict st ;;
  os_mkdir platform DOC_FOLDER ;;;
  build_docs platform doc_dict DOC_FOLDER.

(** [index_documents]: an exception is printed and the function returns;
    the result records which one it was. *)
Definition index_documents (platform : string) (w : world)
  : world * option exn :=
  match index_documents_try platform w with
  | (w', Ok _) => (w', None)
  | (w', Raise e) => (w', Some e)
  end.

(* ===================================================================== *)
(** ** document_getter.py *)
(* ===================================================================== *)

(** What a reader can ask the file system: [os.path.isdir],
    [os.path.isfile] and the text of a file. *)
Record fsview : Type := mkView
  { isdir : string -> bool;
    isfile : string -> bool;
    read_text : string -> string }.

Definition view_of (fs : filesys) : fsview :=
  mkView (fs_isdir fs) (fs_isfile fs)
         (fun path =>
            match PyDict.get path fs with
            | Some (FFile content) => content
            | _ => EmptyString
            end).

(** The calls a lookup makes to the file system, in order. *)
Inductive probe : Type :=
| ProbeDir (path : string)
| ProbeFile (path : string)
| ProbeOpen (path : string).

Definition probe_path (p : probe) : string :=
  match p with
  | ProbeDir path | ProbeFile path | ProbeOpen path => path
  end.

(** How the loop [for hash_digit in word_hash] ends: at a leaf file,
    which is scanned before the [break]; at a path that is neither a
    directory nor a leaf file ([return []]); or with the digits. *)
Inductive descent : Type :=
| AtLeaf (filename : string)
| Absent
| Exhausted.

(** The loop of [search_word] and of [get_doc_content], which differ in
    the scan of the leaf only.  [path] is the path built so far. *)
Fixpoint descend (fs : fsview) (path : string) (digits : list ascii)
  : list probe * descent :=
  match digits with
  | [] => ([], Exhausted)
  | hash_digit :: digits' =>
      let path := path ++ BACKSLASH ++ String hash_digit EmptyString in
      if isdir fs path then
        let (log, d) := descend fs path digits' in
        (ProbeDir path :: log, d)
      else if isfile fs (path ++ ".txt") then
        ([ProbeDir path; ProbeFile (path ++ ".txt");
          ProbeOpen (path ++ ".txt")],
         AtLeaf (path ++ ".txt"))
      else ([ProbeDir path; ProbeFile (path ++ ".txt")], Absent)
  end.

(** The scan of a leaf of the name tree, the body of [with open(...)]. *)
Fixpoint scan_names (key : string) (word_found : bool)
         (lines : list string) (doc_name_list : list string) : list string :=
  match lines with
  | [] => doc_name_list
  | line :: lines' =>
      let line := PyStr.strip line in
      let line_items := PyStr.split_ws line in
      let line_len := List.length line_items in
      if word_found then
        if (line_len =? 1)%nat
        then scan_names key true lines'
                        (doc_name_list ++ [hd EmptyString line_items])
        else doc_name_list
      else
        if (line_len =? 2)%nat && String.eqb (hd EmptyString line_items) key
        then scan_names key true lines' doc_name_list
        else scan_names key false lines' doc_name_list
  end.

(** [search_word], with the log of its calls to the file system. *)
Definition search_word_log (fs : fsview) (word : string)
  : list probe * list string :=
  let word_hash := sha1_hash (PyStr.lower word) in
  let (log, d) := descend fs INDEX_FOLDER (PyStr.chars word_hash) in
  match d with
  | AtLeaf filename =>
      (log, scan_names (PyStr.lower word) false
                       (read_lines [] (read_text fs filename)) [])
  | Absent => (log, [])
  | Exhausted => (log, [])
  end.

Definition search_word (fs : fsview) (word : string) : list string :=
  snd (search_word_log fs word).

(** The white space that [int] skips around a number: tab to carriage
    return, and the space. *)
Definition int_space (c : ascii) : bool :=
  ((9 <=? PyStr.code c)%nat && (PyStr.code c <=? 13)%nat)
  || (PyStr.code c =? 32)%nat.

(** [int(s)]: white space around, a sign, then decimal digits, where
    single underscores may separate digits. *)
Fixpoint int_digits (prev_digit : bool) (acc : Z) (l : list ascii)
  : option Z :=
  match l with
  | [] => if prev_digit then Some acc else None
  | c :: l' =>
      if PyStr.char_isdigit c
      then int_digits true (10 * acc + PyStr.digit_val c)%Z l'
      else if Ascii.eqb c "_" && prev_digit
           then match l' with
                | [] => None
                | _ => int_digits false acc l'
                end
           else None
  end.

Definition py_int (s : string) : outcome Z :=
  let body := PyStr.chars (PyStr.strip_by int_space s) in
  let parsed :=
    match body with
    | c :: rest =>
        if Ascii.eqb c "-" then option_map Z.opp (int_digits false 0%Z rest)
        else if Ascii.eqb c "+" then int_digits false 0%Z rest
        else int_digits false 0%Z body
    | [] => None
    end in
  of_option ValueError parsed.

(** The scan of a leaf of the content tree. *)
Fixpoint scan_content (doc_name : string) (name_found : bool)
         (lines : list string) (doc_content : list (Z * string))
  : outcome (list (Z * string)) :=
  match lines with
  | [] => Ok doc_content
  | line :: lines' =>
      let line := PyStr.strip line in
      if name_found then
        match PyStr.find_char " " line with
        | Some space_index =>
            outcome_bind (py_int (PyStr.take space_index line))
              (fun sent_no =>
                 let sentence := PyStr.drop (space_index + 1) line in
                 scan_content doc_name true lines'
                              (doc_content ++ [(sent_no, sentence)]))
        | None => Ok doc_content
        end
      else
        if String.eqb line doc_name
        then scan_content doc_name true lines' doc_content
        else scan_content doc_name false lines' doc_content
  end.

(** [get_doc_content], with the log of its calls to the file system. *)
Definition get_doc_content_log (fs : fsview) (doc_name : string)
  : list probe * outcome (list (Z * string)) :=
  let name_hash := sha1_hash doc_name in
  let (log, d) := descend fs DOC_FOLDER (PyStr.chars name_hash) in
  match d with
  | AtLeaf filename =>
      (log, scan_content doc_name false
                         (read_lines [] (read_text fs filename)) [])
  | Absent => (log, Ok [])
  | Exhausted => (log, Ok [])
  end.

Definition get_doc_content (fs : fsview) (doc_name : string)
  : outcome (list (Z * string)) :=
  snd (get_doc_content_log fs doc_name).

(** The index of the last occurrence of [c] in [s], counted from [i]. *)
Fixpoint last_index (c : ascii) (i : nat) (s : string) : option nat :=
  match s with
  | EmptyString => None
  | String a s' =>
      match last_index c (S i) s' with
      | Some j => Some j
      | None => if Ascii.eqb a c then Some i else None
      end
  end.

(** [re.sub] deleting the pattern [\(.*\)] in a text without line feed:
    the match runs from the first opening bracket to the last closing
    bracket, when they come in that order. *)
Definition sub_brackets_line (line : string) : string :=
  match PyStr.find_char "(" line, last_index ")" 0 line with
  | Some i, Some j =>
      if (i <? j)%nat then PyStr.take i line ++ PyStr.drop (S j) line
      else line
  | _, _ => line
  end.

(** [re.sub] deleting the pattern [\(.*\)] in any text: the dot does not
    match a line feed, so every line is rewritten on its own. *)
Definition sub_brackets (s : string) : string :=
  PyStr.join LF
    (map sub_brackets_line (PyStr.split_on (ascii_of_nat 10) s)).

(** [get_words] *)
Definition get_words (doc_name : string) : list string :=
  let short_name :=
    PyStr.strip_by (fun c => Ascii.eqb c "_") (sub_brackets doc_name) in
  let words := PyStr.split_on "_" short_name in
  map PyStr.lower words.

#[global] Instance KeyEq_words : KeyEq (list string) :=
  {| key_eqb := fun a b => if list_eq_dec string_dec a b then true else false;
     key_eqb_spec := fun a b =>
       match list_eq_dec string_dec a b as d
             return reflect (a = b) (if d then true else false) with
       | left e => ReflectT _ e
       | right n => ReflectF _ n
       end |}.

(** A document name with its words: the pair [(name, tuple(word_list))]. *)
Definition named : Type := (string * list string)%type.

Definition named_eqb (a b : named) : bool :=
  String.eqb (fst a) (fst b) && key_eqb (snd a) (snd b).

(** [s.add(x)] on a set of pairs. *)
Definition named_add (x : named) (s : list named) : list named :=
  if existsb (named_eqb x) s then s else s ++ [x].

(** [get_valid_names] *)
Fixpoint get_valid_names_into (words : list string) (name_list : list named)
         (valid_names : list named) : list named :=
  match name_list with
  | [] => valid_names
  | (name, word_list) :: name_list' =>
      get_valid_names_into words name_list'
        (if key_eqb (firstn (List.length word_list) words) word_list
         then named_add (name, word_list) valid_names
         else valid_names)
  end.

Definition get_valid_names (words : list string) (name_list : list named)
  : list named :=
  get_valid_names_into words name_list [].

(** The first loop of [absorb_doc_names]: [name_dict[word_list].add(name)]
    on a [defaultdict(set)]. *)
Definition name_dict_add (name_dict : list (list string * list string))
           (item : named) : list (list string * list string) :=
  let (name, word_list) := item in
  let names :=
    match PyDict.get word_list name_dict with
    | Some s => s
    | None => []
    end in
  PyDict.set word_list (PySet.add name names) name_dict.

(** The [while words_set] loop.  [words_set.pop()] takes the head of
    the list, so the order of the list is the order of the pops. *)
Fixpoint absorb_loop (words_set new_set : list string) : list string :=
  match words_set with
  | [] => new_set
  | words :: words_set' =>
      let is_valid :=
        negb (existsb (fun remain_words => PyStr.contains words remain_words)
                      (PySet.union words_set' new_set)) in
      absorb_loop words_set' (if is_valid then PySet.add words new_set
                              else new_set)
  end.

(** [absorb_doc_names] *)
Definition absorb_doc_names (doc_names : list named) : list string :=
  let name_dict := fold_left name_dict_add doc_names [] in
  let words_set :=
    PySet.of_list (map (PyStr.join " ") (PyDict.keys name_dict)) in
  let new_set := absorb_loop words_set [] in
  fold_left
    (fun result words =>
       let word_list := PyStr.split_ws words in
       PySet.union result
         (match PyDict.get word_list name_dict with
          | Some s => s
          | None => []
          end))
    new_set [].

(** The two dictionaries filled by the first loop of [search_sentence]. *)
Record pools : Type := mkPools
  { doc_names : list (string * list named);
    ne_doc_names : list (string * list named) }.

Definition lookup_candidates (fs : fsview) (word : string) : list named :=
  map (fun name => (name, get_words name)) (search_word fs word).

(** The body of the first loop. *)
Definition collect_word (fs : fsview) (stop_words : list string)
           (p : pools) (word : string) : pools :=
  if PyStr.nonempty word && negb (PySet.mem word stop_words) then
    let lower_word := PyStr.lower word in
    if PyStr.first_islower word then
      if negb (PyDict.mem lower_word (doc_names p))
      then mkPools (PyDict.set lower_word (lookup_candidates fs lower_word)
                               (doc_names p))
                   (ne_doc_names p)
      else p
    else
      if negb (PyDict.mem lower_word (ne_doc_names p))
      then mkPools (doc_names p)
                   (PyDict.set lower_word (lookup_candidates fs lower_word)
                               (ne_doc_names p))
      else p
  else p.

(** [result |= s] on sets of pairs. *)
Definition named_union (a b : list named) : list named :=
  fold_left (fun s x => named_add x s) b a.

(** The second loop, [for i in range(len(words))]: [words] and
    [lower_words] are the tokens from position [i] on. *)
Fixpoint resolve_loop (p : pools) (words lower_words : list string)
         (ne_found : bool) (result : list named) : list named :=
  match words, lower_words with
  | word :: words', lower_word :: lower_words' =>
      let is_ne := negb (PyStr.first_islower word) in
      let target_dict := if is_ne then ne_doc_names p else doc_names p in
      let clear := negb ne_found && is_ne in
      let ne_found := if clear then true else ne_found in
      let result := if clear then [] else result in
      let result :=
        if Bool.eqb ne_found is_ne then
          match PyDict.get lower_word target_dict with
          | Some candidates =>
              named_union result (get_valid_names lower_words candidates)
          | None => result
          end
        else result in
      resolve_loop p words' lower_words' ne_found result
  | _, _ => result
  end.

(** The tokens of a sentence: [filter(bool, re.split(r"\W+", sentence))]. *)
Definition sentence_words (sentence : string) : list string :=
  filter PyStr.nonempty
         (PyStr.re_split (fun c => negb (PyStr.char_isword c)) sentence).

(** The set [result] of [search_sentence] before the absorption. *)
Definition resolve (fs : fsview) (sentence : string)
           (stop_words : list string) : list named :=
  let words := sentence_words sentence in
  let p := fold_left (collect_word fs stop_words) words (mkPools [] []) in
  let lower_words := map PyStr.lower words in
  resolve_loop p words lower_words false [].

(** [search_sentence] *)
Definition search_sentence (fs : fsview) (sentence : string)
           (stop_words : list string) : list string :=
  absorb_doc_names (resolve fs sentence stop_words).

(* ===================================================================== *)
(** ** Vocabulary of the properties *)
(* ===================================================================== *)

(** A subscript of the hash is valid exactly from -40 to 39. *)
Definition valid_subscript (start_index : Z) : bool :=
  (-40 <=? start_index)%Z && (start_index <? 40)%Z.

(** The state in which the module is loaded on an empty disk. *)
Definition initial_world : world := mkWorld [] initial_counters.

(** The path a lookup builds from [root] with the first [k] digits. *)
Fixpoint shard_path (root : string) (digits : list ascii) (k : nat)
         {struct k} : string :=
  match k, digits with
  | S k', d :: digits' =>
      shard_path (root ++ BACKSLASH ++ String d EmptyString) digits' k'
  | _, _ => root
  end.

(** The directory tests on the shards of depth 1 to [k]. *)
Definition dir_probes (root : string) (digits : list ascii) (k : nat)
  : list probe :=
  map (fun j => ProbeDir (shard_path root digits j)) (seq 1 k).

(** A descent along the single path of the key: the shards of depth 1 to
    [k] are directories; then either the digits end, or the shard of
    depth [k + 1] is not a directory and the descent stops there, at the
    leaf file when there is one and with nothing otherwise. *)
Inductive single_path (fs : fsview) (root : string) (digits : list ascii)
  : list probe -> descent -> Prop :=
| path_exhausted :
    (forall j, (1 <= j <= List.length digits)%nat ->
               isdir fs (shard_path root digits j) = true) ->
    single_path fs root digits
                (dir_probes root digits (List.length digits)) Exhausted
| path_leaf (k : nat) :
    (k < List.length digits)%nat ->
    (forall j, (1 <= j <= k)%nat ->
               isdir fs (shard_path root digits j) = true) ->
    isdir fs (shard_path root digits (S k)) = false ->
    isfile fs (shard_path root digits (S k) ++ ".txt") = true ->
    single_path fs root digits
                (dir_probes root digits (S k)
                   ++ [ProbeFile (shard_path root digits (S k) ++ ".txt");
                       ProbeOpen (shard_path root digits (S k) ++ ".txt")])
                (AtLeaf (shard_path root digits (S k) ++ ".txt"))
| path_absent (k : nat) :
    (k < List.length digits)%nat ->
    (forall j, (1 <= j <= k)%nat ->
               isdir fs (shard_path root digits j) = true) ->
    isdir fs (shard_path root digits (S k)) = false ->
    isfile fs (shard_path root digits (S k) ++ ".txt") = false ->
    single_path fs root digits
                (dir_probes root digits (S k)
                   ++ [ProbeFile (shard_path root digits (S k) ++ ".txt")])
                Absent.

(** A path probed at depth [j] of the key's own path. *)
Definition on_key_path (root : string) (digits : list ascii) (p : probe)
  : Prop :=
  exists j, (1 <= j <= List.length digits)%nat
            /\ (probe_path p = shard_path root digits j
                \/ probe_path p = shard_path root digits j ++ ".txt").

(** [path] is [root] or lies below it, with [sep] after [root]. *)
Definition under (root sep path : string) : Prop :=
  path = root \/ prefix (root ++ sep) path = true.

Definition fs_under (root sep : string) (fs : filesys) : Prop :=
  forall p, In p (PyDict.keys fs) -> under root sep p.

(** The state after [os.mkdir(folder)] and the flush of [tree] on an
    empty disk, whether the flush ended or raised. *)
Definition after_build_indices (platform : string) (g : counters)
           (tree : pydict) : world :=
  fst ((os_mkdir platform INDEX_FOLDER ;;;
        build_indices platform tree INDEX_FOLDER) (mkWorld [] g)).

Definition after_build_docs (platform : string) (g : counters)
           (tree : pydict) : world :=
  fst ((os_mkdir platform DOC_FOLDER ;;;
        build_docs platform tree DOC_FOLDER) (mkWorld [] g)).

(** An effect keeps a property of the file system. *)
Definition preserves {A} (P : filesys -> Prop) (m : M A) : Prop :=
  forall w, P (w_fs w) -> P (w_fs (fst (m w))).

(** The trees the inserts of the documents [Soul] and [Soul_Food] are
    meant to build: the hash of "soul" and of "Soul" starts with 0, the
    hash of "food" with 3 and the hash of "Soul_Food" with 4. *)
Definition name_tree_example : pydict :=
  [ ("0", VDict [ (SAFE_STRING, VInt 2);
                  ("soul", VSet ["Soul_Food"; "Soul"]) ]);
    ("3", VDict [ (SAFE_STRING, VInt 1);
                  ("food", VSet ["Soul_Food"]) ]) ].

Definition doc_tree_example : pydict :=
  [ ("0", VDict [ (SAFE_STRING, VInt 3);
                  ("Soul", VSents [ (1%Z, "It began in the 1950s ." ++ LF);
                                    (0%Z, "Soul is a genre ." ++ LF) ]) ]);
    ("4", VDict [ (SAFE_STRING, VInt 2);
                  ("Soul_Food", VSents [ (0%Z, "Soul food is a cuisine ."
                                               ++ LF) ]) ]) ].

(** The text of [filename] on a disk. *)
Definition file_text (fs : filesys) (filename : string) : option string :=
  match PyDict.get filename fs with
  | Some (FFile content) => Some content
  | _ => None
  end.

(** [SAFE_STRING in value]: the node is a leaf. *)
Definition is_leaf (v : pyval) : bool :=
  match v with
  | VDict d => PyDict.mem SAFE_STRING d
  | _ => false
  end.

(** The running total of a leaf, [value[SAFE_STRING]]. *)
Definition leaf_total (v : pyval) : option Z :=
  match v with
  | VDict d =>
      match PyDict.get SAFE_STRING d with
      | Some (VInt n) => Some n
      | _ => None
      end
  | _ => None
  end.

(** The size of a payload, [len(payload)]. *)
Definition payload_size (v : pyval) : Z :=
  match py_len v with
  | Ok n => n
  | Raise _ => 0%Z
  end.

(** The sum, over the keys of a leaf, of the payload size plus one. *)
Fixpoint occupancy (d : pydict) : Z :=
  match d with
  | [] => 0%Z
  | (k, v) :: d' =>
      if String.eqb k SAFE_STRING then occupancy d'
      else (payload_size v + 1 + occupancy d')%Z
  end.

(** The size of the largest payload of a leaf. *)
Fixpoint largest_payload (d : pydict) : Z :=
  match d with
  | [] => 0%Z
  | (k, v) :: d' =>
      if String.eqb k SAFE_STRING then largest_payload d'
      else Z.max (payload_size v) (largest_payload d')
  end.

(** The split rule in the words of the specification: the total exceeds
    the capacity, and the largest payload would not leave its bucket
    over capacity. *)
Definition split_claimed (d : pydict) : bool :=
  match leaf_total (VDict d) with
  | Some total =>
      (total >? FILE_CAPACITY)%Z
      && (largest_payload d + 1 <=? FILE_CAPACITY)%Z
  | None => false
  end.

(** The names held for [word] in a leaf, none when the word is new. *)
Definition names_of (value : pydict) (word : string) : list string :=
  match PyDict.get word value with
  | Some (VSet s) => s
  | _ => []
  end.

(** [count] document names that start with [stem]. *)
Fixpoint names_upto (stem : string) (first : Z) (count : nat)
  : list string :=
  match count with
  | O => []
  | S count' =>
      (stem ++ PyStr.str_of_Z first) :: names_upto stem (first + 1) count'
  end.

Definition names_from (stem : string) (count : Z) : list string :=
  names_upto stem 0 (Z.to_nat count).

(** A leaf in which one word has 20001 document names. *)
Definition many_names : list string := names_from "Doc_" 20001.

Definition dominated_leaf : pydict :=
  [ (SAFE_STRING, VInt 20001); ("big", VSet many_names) ].

(** A leaf with two words of 10000 names each; the hashes of "soul" and
    of "river" both start with 08. *)
Definition shared_leaf : pydict :=
  [ (SAFE_STRING, VInt 20000);
    ("soul", VSet (names_from "Soul_" 10000));
    ("river", VSet (names_from "River_" 10000)) ].

(** A child made by a split: a leaf whose running total is the sum, over
    its keys, of the payload size plus one. *)
Definition recounted_leaf (child : pyval) : Prop :=
  exists c, child = VDict c
            /\ PyDict.get SAFE_STRING c = Some (VInt (occupancy c)).

(** What [expand_loop] keeps true of [result] while it runs: the keys
    are single digits, and every child is a leaf whose total is its
    occupancy and whose keys are words already distributed. *)
Definition expand_inv (seen : list string) (result : pydict) : Prop :=
  Forall (fun k => String.length k = 1%nat) (PyDict.keys result)
  /\ forall digit child,
      PyDict.get digit result = Some child ->
      exists c, child = VDict c
                /\ PyDict.get SAFE_STRING c = Some (VInt (occupancy c))
                /\ forall k, In k (PyDict.keys c) ->
                             k = SAFE_STRING \/ In k seen.

(** A token: not empty and free of white space, as the words of a
    sentence are. *)
Definition wf_token (t : string) : bool :=
  PyStr.nonempty t
  && forallb (fun c => negb (PyStr.char_isspace c)) (PyStr.chars t).

Definition wf_names (names : list named) : bool :=
  forallb (fun item : named => forallb wf_token (snd item)) names.

(** [wl] occurs in [wl'] as a contiguous run of tokens. *)
Definition token_run (wl wl' : list string) : Prop :=
  exists before after : list string, wl' = (before ++ wl ++ after)%list.

(** Some other accepted token sequence holds [wl], when both are joined
    with spaces and compared as strings. *)
Definition absorbed (names : list named) (wl : list string) : Prop :=
  exists (name' : string) (wl' : list string),
    In (name', wl') names
    /\ wl' <> wl
    /\ PyStr.contains (PyStr.join " " wl) (PyStr.join " " wl') = true.

(** [name_dict[word_list]] on the [defaultdict(set)]. *)
Definition names_for (name_dict : list (list string * list string))
           (word_list : list string) : list string :=
  match PyDict.get word_list name_dict with
  | Some s => s
  | None => []
  end.

(** [x] is in [universe] and a substring of no other member. *)
Definition maximal (universe : list string) (x : string) : Prop :=
  In x universe
  /\ forall y, In y universe -> PyStr.contains x y = true -> y = x.

Definition total_length (l : list string) : nat :=
  fold_right (fun s n => (String.length s + n)%nat) 0%nat l.

(** The case class of a token: named entity when its first character is
    not a lowercase letter. *)
Definition is_ne (word : string) : bool := negb (PyStr.first_islower word).

(** The first position of named-entity class. *)
Fixpoint first_ne (words : list string) : option nat :=
  match words with
  | [] => None
  | word :: words' =>
      if is_ne word then Some 0%nat else option_map S (first_ne words')
  end.

(** The first position of a token that is capitalized and is not a stop
    word, as the specification words the entry into entity mode. *)
Fixpoint first_ne_claimed (stop_words words : list string) : option nat :=
  match words with
  | [] => None
  | word :: words' =>
      if is_ne word && negb (PySet.mem word stop_words) then Some 0%nat
      else option_map S (first_ne_claimed stop_words words')
  end.

(** The matches accepted at one position: the candidates that the pool
    of the token's case class holds for the lowercase word, whose words
    start the rest of the sentence. *)
Definition accepted_at (p : pools) (word : string)
           (lower_from : list string) : list named :=
  match lower_from with
  | lower_word :: _ =>
      match PyDict.get lower_word
                       (if is_ne word then ne_doc_names p else doc_names p)
      with
      | Some candidates => get_valid_names lower_from candidates
      | None => []
      end
  | [] => []
  end.

(** The pools that the first loop of [search_sentence] fills. *)
Definition pools_of (fs : fsview) (sentence : string)
           (stop_words : list string) : pools :=
  fold_left (collect_word fs stop_words) (sentence_words sentence)
            (mkPools [] []).

(** The name index of the documents [Soul] and [Soul_Food], as it lies
    on a Windows disk. *)
Definition example_disk : filesys :=
  [ ("docname-index", FDir);
    ("docname-index\0.txt",
     FFile ("soul 2" ++ LF ++ "Soul" ++ LF ++ "Soul_Food" ++ LF));
    ("docname-index\3.txt", FFile ("food 1" ++ LF ++ "Soul_Food" ++ LF)) ].

(** Every candidate of a pool is a document name with its own words. *)
Definition pool_ok (d : list (string * list named)) : Prop :=
  forall (k : string) (c : list named) (n : string) (wl : list string),
    PyDict.get k d = Some c -> In (n, wl) c -> wl = get_words n.

(** A corpus of two documents in the first input file; the other input
    files are empty. *)
Definition corpus_text : string :=
  "Soul 1 It began in the 1950s ." ++ LF
    ++ "Soul 0 Soul is a genre ." ++ LF
    ++ "Soul_Food 0 Soul food is a cuisine ." ++ LF.

Definition corpus_world (platform : string) : world :=
  mkWorld
    ((INPUT_FOLDER, FDir)
       :: map (fun file_index =>
                 (get_input_pathname platform file_index,
                  FFile (if (file_index =? 1)%Z then corpus_text
                         else EmptyString)))
              file_indices)
    initial_counters.

(** An effect that leaves the whole state as it was. *)
Definition stateless {A} (m : M A) : Prop := forall w, fst (m w) = w.

(** The children of a node, each with its keys, its running total and
    the size of its largest payload. *)
Definition children_summary (o : outcome pyval)
  : list (string * (list string * option Z * Z)) :=
  match o with
  | Ok (VDict children) =>
      map (fun kv : string * pyval =>
             (fst kv,
              match snd kv with
              | VDict c => (PyDict.keys c, leaf_total (snd kv),
                            largest_payload c)
              | _ => ([], None, 0%Z)
              end))
          children
  | _ => []
  end.

(** A content tree with the document [Soul], whose sentence 1 has an
    empty text. *)
Definition gap_tree : pydict :=
  [ ("0", VDict [ (SAFE_STRING, VInt 4);
                  ("Soul", VSents [ (2%Z, "c" ++ LF); (1%Z, LF);
                                    (0%Z, "a" ++ LF) ]) ]) ].

(** A lowercase hexadecimal digit. *)
Definition is_hex (c : ascii) : bool :=
  PyStr.char_isdigit c
  || ((97 <=? PyStr.code c)%nat && (PyStr.code c <=? 102)%nat).

(** [word] sits with its [payload] in the child of [children] that the
    digit of its hash at [start_index] names. *)
Definition routed (start_index : Z) (children : pydict) (word : string)
           (payload : pyval) : Prop :=
  exists (digit : string) (child : pydict),
    PyStr.index (sha1_hash word) start_index = Some digit
    /\ PyDict.get digit children = Some (VDict child)
    /\ PyDict.get word child = Some payload.

(** What [expand_loop] keeps true of [result] while it runs: the items
    distributed so far are routed, and the children hold nothing else. *)
Definition route_inv (start_index : Z) (seen : pydict) (result : pydict)
  : Prop :=
  (forall word payload,
      In (word, payload) seen -> routed start_index result word payload)
  /\ (forall digit child word payload,
         PyDict.get digit result = Some (VDict child) ->
         word <> SAFE_STRING ->
         PyDict.get word child = Some payload ->
         In (word, payload) seen
         /\ PyStr.index (sha1_hash word) start_index = Some digit).

(** The payloads that have a length: sets, sentence maps, strings and
    dictionaries. *)
Definition sized (v : pyval) : bool :=
  match py_len v with
  | Ok _ => true
  | Raise _ => false
  end.


(** The document name holds a word: a character that
    [re.split(r"[_\W]+", doc_name)] does not take for a separator. *)
Definition has_word (doc_name : string) : bool :=
  existsb (fun c => negb (name_separator c)) (PyStr.chars doc_name).

(** The counters after [word_count += 1], and after [doc_count += 1]. *)
Definition word_counted (g : counters) : counters :=
  mkCounters (word_count g + 1) (doc_count g) (processed_word_count g)
             (processed_doc_count g) (word_count_1percent g)
             (doc_count_1percent g).

Definition doc_counted (g : counters) : counters :=
  mkCounters (word_count g) (doc_count g + 1) (processed_word_count g)
             (processed_doc_count g) (word_count_1percent g)
             (doc_count_1percent g).


(** The text holds no character [c]. *)
Definition lacks (c : ascii) (s : string) : bool :=
  forallb (fun x => negb (Ascii.eqb x c)) (PyStr.chars s).

(** Every pool holds, for a word, the names that [search_word] returns
    for it, each with its words. *)
Definition pool_from (fs : fsview) (d : list (string * list named)) : Prop :=
  forall (k : string) (c : list named),
    PyDict.get k d = Some c -> c = lookup_candidates fs k.


(** The common shape of [build_indices] and [build_docs]: the two
    functions differ in the writer of one entry only. *)
Fixpoint flush_node (write_entry : string -> pydict -> string -> M unit)
         (platform : string) (node : pyval) (folder : string)
         {struct node} : M unit :=
  match node with
  | VDict d =>
      (fix each (items : pydict) : M unit :=
         match items with
         | [] => ret tt
         | (hash_digit, value) :: items' =>
             match value with
             | VDict v =>
                 if PyDict.mem SAFE_STRING v then
                   let v := PyDict.del SAFE_STRING v in
                   let filename :=
                     folder ++ SEPARATOR platform ++ hash_digit ++ ".txt" in
                   open_w platform filename ;;;
                   for_each (PyDict.keys v) (write_entry filename v)
                 else
                   let folder' := folder ++ SEPARATOR platform ++ hash_digit in
                   os_mkdir platform folder' ;;;
                   flush_node write_entry platform value folder'
             | _ => raise TypeError
             end ;;; each items'
         end) d
  | _ => raise TypeError
  end.

(** Some leaf of the tree holds an entry: a key besides its running
    total. *)
Fixpoint holds_entry (node : pyval) : bool :=
  match node with
  | VDict d =>
      (fix each (items : pydict) : bool :=
         match items with
         | [] => false
         | (hash_digit, value) :: items' =>
             match value with
             | VDict v =>
                 if PyDict.mem SAFE_STRING v
                 then negb (match PyDict.keys (PyDict.del SAFE_STRING v) with
                            | [] => true
                            | _ => false
                            end)
                 else holds_entry value
             | _ => false
             end || each items'
         end) d
  | _ => false
  end.

(** An effect leaves the entry of the path [p] as it was. *)
Definition keeps_path (p : string) {A} (m : M A) : Prop :=
  forall w, PyDict.get p (w_fs (fst (m w))) = PyDict.get p (w_fs w).

(** An effect leaves a counter of the module as it was. *)
Definition keeps_counter (field : counters -> Z) {A} (m : M A) : Prop :=
  forall w, field (w_glob (fst (m w))) = field (w_glob w).

(** An effect raises from every state that satisfies [R]. *)
Definition fails_from (R : world -> Prop) {A} (m : M A) : Prop :=
  forall w, R w -> exists e, snd (m w) = Raise e.

(** An effect keeps a property of the state. *)
Definition keeps_state (R : world -> Prop) {A} (m : M A) : Prop :=
  forall w, R w -> R (fst (m w)).

(** A key of a node of a tree: one hexadecimal digit, as the digits of
    a hash are. *)
Definition shard_key (k : string) : bool :=
  match k with
  | String c EmptyString => is_hex c
  | _ => false
  end.

(** The strings of the list differ from each other. *)
Fixpoint distinct (l : list string) : bool :=
  match l with
  | [] => true
  | x :: l' => negb (PySet.mem x l') && distinct l'
  end.

(** A tree that a flush can write and a lookup can read: the keys of a
    node are hexadecimal digits that differ from each other, every value
    is a node or a leaf, and every entry of a leaf is [good]. *)
Fixpoint flushable (good : pydict -> string -> bool) (node : pyval) : bool :=
  match node with
  | VDict d =>
      distinct (PyDict.keys d)
      && (fix each (items : pydict) : bool :=
            match items with
            | [] => true
            | (hash_digit, value) :: items' =>
                shard_key hash_digit
                && match value with
                   | VDict v =>
                       if PyDict.mem SAFE_STRING v
                       then forallb (good (PyDict.del SAFE_STRING v))
                                    (PyDict.keys (PyDict.del SAFE_STRING v))
                       else flushable good value
                   | _ => false
                   end
                && each items'
            end) d
  | _ => false
  end.

(** The leaf that the digits of a hash lead to in a tree. *)
Fixpoint find_leaf (node : pydict) (digits : list ascii) : option pydict :=
  match digits with
  | [] => None
  | c :: digits' =>
      match PyDict.get (String c EmptyString) node with
      | Some (VDict v) =>
          if PyDict.mem SAFE_STRING v then Some v else find_leaf v digits'
      | _ => None
      end
  end.

(** The text of the leaf file that the loop of a lookup ends at. *)
Definition leaf_text (fs : fsview) (root : string) (digits : list ascii)
  : option string :=
  match snd (descend fs root digits) with
  | AtLeaf filename => Some (read_text fs filename)
  | _ => None
  end.

(** The text of a leaf file: the entries of the leaf in the order of
    its keys. *)
Definition render_leaf (render : pydict -> string -> string) (v : pydict)
  : string :=
  String.concat EmptyString
    (map (render (PyDict.del SAFE_STRING v))
         (PyDict.keys (PyDict.del SAFE_STRING v))).

(** The shard of a folder for a digit, as the reader spells it. *)
Definition shard (folder : string) (c : ascii) : string :=
  folder ++ BACKSLASH ++ String c EmptyString.

(** What holds after the flush of the node [d] into [folder], from the
    state [w] to the state [w']: the counters are still fit, only the
    shards of the keys of [d] have changed, and a lookup that starts
    with a key of [d] reads what the tree holds. *)
Definition flushed (render : pydict -> string -> string)
           (okc : counters -> Prop) (d : pydict) (folder : string)
           (w w' : world) : Prop :=
  okc (w_glob w')
  /\ (forall p,
         (forall c, In (String c EmptyString) (PyDict.keys d) ->
                    prefix (shard folder c) p = false) ->
         PyDict.get p (w_fs w') = PyDict.get p (w_fs w))
  /\ (forall c digits,
         In (String c EmptyString) (PyDict.keys d) ->
         leaf_text (view_of (w_fs w')) folder (c :: digits)
         = option_map (render_leaf render) (find_leaf d (c :: digits))).

(** The flush of a node completes on Windows when the folder is there
    and nothing lies yet below the shards of the keys of the node. *)
Definition completes (write_entry : string -> pydict -> string -> M unit)
           (good : pydict -> string -> bool)
           (render : pydict -> string -> string)
           (okc : counters -> Prop) (node : pyval) : Prop :=
  forall (d : pydict) (folder : string) (w : world),
    node = VDict d ->
    flushable good node = true ->
    okc (w_glob w) ->
    fs_isdir (w_fs w) folder = true ->
    (forall p c, In (String c EmptyString) (PyDict.keys d) ->
                 prefix (shard folder c) p = true ->
                 PyDict.get p (w_fs w) = None) ->
    exists w',
      flush_node write_entry "win32" node folder w = (w', Ok tt)
      /\ flushed render okc d folder w w'.


(** An entry of a leaf of the name tree that a lookup can read back:
    the word is a token and its payload is a set of names that are
    tokens. *)
Definition name_entry_ok (value : pydict) (word : string) : bool :=
  wf_token word
  && match PyDict.get word value with
     | Some (VSet names) => forallb wf_token names
     | _ => false
     end.

(** The text that [build_indices] writes for one word of a leaf. *)
Definition render_name_entry (value : pydict) (word : string) : string :=
  match PyDict.get word value with
  | Some (VSet names) =>
      (word ++ " " ++ PyStr.str_of_Z (Z.of_nat (List.length names)) ++ LF)
        ++ String.concat EmptyString
             (map (fun doc_name : string => doc_name ++ LF)
                  (sorted PyStr.leb names))
  | _ => EmptyString
  end.

(** The text that [build_docs] writes for one sentence. *)
Definition written_sentence (item : Z * string) : string :=
  PyStr.str_of_Z (fst item) ++ " " ++ transform_brackets (snd item).

(** The text that [build_docs] writes for one document of a leaf. *)
Definition render_doc_entry (value : pydict) (doc_name : string) : string :=
  match PyDict.get doc_name value with
  | Some (VSents items) =>
      (doc_name ++ LF)
        ++ String.concat EmptyString
             (map written_sentence (sorted item_leb items))
  | _ => EmptyString
  end.

(** The text without its last character. *)
Fixpoint chomp (s : string) : string :=
  match s with
  | EmptyString => EmptyString
  | String c EmptyString => EmptyString
  | String c s' => String c (chomp s')
  end.

(** The text ends with a character that is not white space. *)
Definition ends_visible (t : string) : bool :=
  match rev (PyStr.chars t) with
  | c :: _ => negb (PyStr.char_isspace c)
  | [] => false
  end.

(** A sentence as the input files have it, one line of text: it ends
    with a line feed, holds no other line feed and no carriage return,
    and before the line feed comes a character that is not white
    space. *)
Definition clean_line (x : string) : bool :=
  String.eqb x (chomp x ++ LF)
  && lacks (ascii_of_nat 10) (chomp x)
  && lacks (ascii_of_nat 13) (chomp x)
  && ends_visible (chomp x).

(** An entry of a leaf of the content tree that a lookup can read back:
    the document name is a token and every sentence, once its brackets
    are restored, is a clean line. *)
Definition doc_entry_ok (value : pydict) (doc_name : string) : bool :=
  wf_token doc_name
  && match PyDict.get doc_name value with
     | Some (VSents items) =>
         forallb (fun item : Z * string =>
                    clean_line (transform_brackets (snd item))) items
     | _ => false
     end.

(** A sentence as [get_doc_content] returns it. *)
Definition read_back (item : Z * string) : Z * string :=
  (fst item, chomp (transform_brackets (snd item))).

(** The lines of the entry of one word in a leaf file of the name tree,
    without their line feeds. *)
Definition name_lines (value : pydict) (word : string) : list string :=
  match PyDict.get word value with
  | Some (VSet names) =>
      (word ++ " " ++ PyStr.str_of_Z (Z.of_nat (List.length names)))
        :: sorted PyStr.leb names
  | _ => []
  end.

(** The line of one sentence in a leaf file of the content tree. *)
Definition sentence_line (item : Z * string) : string :=
  PyStr.str_of_Z (fst item) ++ " " ++ chomp (transform_brackets (snd item)).

(** The lines of the entry of one document in a leaf file of the content
    tree. *)
Definition doc_lines (value : pydict) (doc_name : string) : list string :=
  match PyDict.get doc_name value with
  | Some (VSents items) =>
      doc_name :: map sentence_line (sorted item_leb items)
  | _ => []
  end.

(** The sentences held for a document in a leaf, none when the document
    is not there. *)
Definition sents_of (value : pydict) (doc_name : string)
  : list (Z * string) :=
  match PyDict.get doc_name value with
  | Some (VSents items) => items
  | _ => []
  end.

(** A text made of lines. *)
Definition unlines (lines : list string) : string :=
  String.concat EmptyString (map (fun line => line ++ LF) lines).

(** A line without line feed and carriage return. *)
Definition one_line (t : string) : bool :=
  lacks (ascii_of_nat 10) t && lacks (ascii_of_nat 13) t.


(** The document name at the start of a line of an input file. *)
Definition line_doc_name (line : string) : string :=
  transform_brackets (hd EmptyString (PyStr.split_on " " line)).

(** The lines of an input file, when the file is there. *)
Definition input_lines (platform : string) (fs : filesys) (file_index : Z)
  : option (list string) :=
  match PyDict.get (get_input_pathname platform file_index) fs with
  | Some (FFile content) => Some (read_lines [] content)
  | _ => None
  end.

(** A document name with a word is pending or is to come: the current
    document has a word, or a line of the files still to read names a
    document that has one. *)
Definition word_ahead (platform : string) (fs : filesys) (files : list Z)
           (st : scan_state) : Prop :=
  has_word (current_doc st) = true
  \/ exists file_index lines line,
      In file_index files
      /\ input_lines platform fs file_index = Some lines
      /\ In line lines
      /\ has_word (line_doc_name line) = true.


(* ===================================================================== *)
(** * Properties *)
(* ===================================================================== *)

(** ** Dictionaries *)

Section DictFacts.
Context {K V : Type} `{KeyEq K}.

Lemma key_eqb_refl (k : K) : key_eqb k k = true.
Proof. destruct (key_eqb_spec k k); congruence. Qed.

Lemma key_eqb_neq (a b : K) : a <> b -> key_eqb a b = false.
Proof. intros Hn; destruct (key_eqb_spec a b); congruence. Qed.

Lemma get_set_same (k : K) (v : V) (d : list (K * V)) :
  PyDict.get k (PyDict.set k v d) = Some v.
Proof.
  induction d as [|[k' v'] d IH]; simpl.
  - now rewrite key_eqb_refl.
  - destruct (key_eqb_spec k' k) as [->|Hn]; simpl.
    + now rewrite key_eqb_refl.
    + rewrite key_eqb_neq by assumption. exact IH.
Qed.

Lemma get_set_other (k k0 : K) (v : V) (d : list (K * V)) :
  k <> k0 -> PyDict.get k0 (PyDict.set k v d) = PyDict.get k0 d.
Proof.
  intros Hn; induction d as [|[k' v'] d IH]; simpl.
  - now rewrite key_eqb_neq.
  - destruct (key_eqb_spec k' k) as [->|Hn']; simpl.
    + now rewrite key_eqb_neq.
    + destruct (key_eqb k' k0); [reflexivity | exact IH].
Qed.

Lemma get_del_other (k k0 : K) (d : list (K * V)) :
  k <> k0 -> PyDict.get k0 (PyDict.del k d) = PyDict.get k0 d.
Proof.
  intros Hn; induction d as [|[k' v'] d IH]; simpl; [reflexivity|].
  destruct (key_eqb_spec k' k) as [->|Hn']; simpl.
  - now rewrite key_eqb_neq.
  - destruct (key_eqb k' k0); [reflexivity | exact IH].
Qed.

Lemma get_In (k : K) (v : V) (d : list (K * V)) :
  PyDict.get k d = Some v -> In (k, v) d.
Proof.
  induction d as [|[k' v'] d IH]; simpl; [discriminate|].
  destruct (key_eqb_spec k' k) as [->|Hn].
  - intros [= ->]; now left.
  - intros Hg; right; auto.
Qed.

Lemma get_None_keys (k : K) (d : list (K * V)) :
  PyDict.get k d = None <-> ~ In k (PyDict.keys d).
Proof.
  induction d as [|[k' v'] d IH]; simpl; [tauto|].
  destruct (key_eqb_spec k' k) as [->|Hn].
  - split; [discriminate | intros Hc; exfalso; apply Hc; now left].
  - rewrite IH; split; [intros Hc [Hk|Hk] | intros Hc Hk]; auto.
Qed.

Lemma keys_set_new (k : K) (v : V) (d : list (K * V)) :
  PyDict.get k d = None -> PyDict.keys (PyDict.set k v d) = (PyDict.keys d ++ [k])%list.
Proof.
  induction d as [|[k' v'] d IH]; simpl; [reflexivity|].
  destruct (key_eqb k' k); [discriminate|].
  intros Hg; simpl; now rewrite <- IH.
Qed.

Lemma keys_set_present (k : K) (v v0 : V) (d : list (K * V)) :
  PyDict.get k d = Some v0 -> PyDict.keys (PyDict.set k v d) = PyDict.keys d.
Proof.
  induction d as [|[k' v'] d IH]; simpl; [discriminate|].
  destruct (key_eqb_spec k' k) as [->|Hn]; simpl; [reflexivity|].
  intros Hg; now rewrite IH.
Qed.

Lemma In_keys_set (k k0 : K) (v : V) (d : list (K * V)) :
  In k0 (PyDict.keys (PyDict.set k v d)) <-> k0 = k \/ In k0 (PyDict.keys d).
Proof.
  induction d as [|[k' v'] d IH]; simpl.
  - intuition congruence.
  - destruct (key_eqb_spec k' k) as [->|Hn]; simpl;
      [intuition congruence|].
    rewrite IH; intuition congruence.
Qed.
End DictFacts.

(** ** The monad *)

Lemma bind_ok {A B} (m : M A) (f : A -> M B) (w w' : world) (a : A) :
  m w = (w', Ok a) -> bind m f w = f a w'.
Proof. unfold bind; now intros ->. Qed.

Lemma bind_raise {A B} (m : M A) (f : A -> M B) (w w' : world) (e : exn) :
  m w = (w', Raise e) -> bind m f w = (w', Raise e).
Proof. unfold bind; now intros ->. Qed.

(** ** The hash *)

Lemma sha1_hash_length (target : string) : String.length (sha1_hash target) = 40%nat.
Proof. reflexivity. Qed.

Lemma get_in_range (n : nat) (s : string) :
  (n < String.length s)%nat -> exists c, String.get n s = Some c.
Proof.
  revert n; induction s as [|a s IH]; simpl; intros n Hn; [lia|].
  destruct n as [|n]; [now exists a|]. apply IH; lia.
Qed.

Lemma get_out_of_range (n : nat) (s : string) :
  (String.length s <= n)%nat -> String.get n s = None.
Proof.
  revert n; induction s as [|a s IH]; simpl; intros n Hn.
  - now destruct n.
  - destruct n as [|n]; [lia|]. apply IH; lia.
Qed.

Lemma index_valid (s : string) (i : Z) :
  (- Z.of_nat (String.length s) <= i < Z.of_nat (String.length s))%Z ->
  exists c, PyStr.index s i = Some (String c EmptyString).
Proof.
  intros Hi; unfold PyStr.index.
  destruct (Z.ltb_spec i 0).
  - destruct (Z.ltb_spec (i + Z.of_nat (String.length s)) 0); [lia|].
    destruct (get_in_range (Z.to_nat (i + Z.of_nat (String.length s))) s)
      as [c Hc]; [lia|].
    rewrite Hc; now exists c.
  - destruct (Z.ltb_spec i 0); [lia|].
    destruct (get_in_range (Z.to_nat i) s) as [c Hc]; [lia|].
    rewrite Hc; now exists c.
Qed.

Lemma index_invalid (s : string) (i : Z) :
  (i < - Z.of_nat (String.length s) \/ Z.of_nat (String.length s) <= i)%Z ->
  PyStr.index s i = None.
Proof.
  intros Hi; unfold PyStr.index.
  destruct (Z.ltb_spec i 0).
  - destruct (Z.ltb_spec (i + Z.of_nat (String.length s)) 0); [reflexivity|].
    lia.
  - destruct (Z.ltb_spec i 0); [lia|].
    rewrite get_out_of_range; [reflexivity | lia].
Qed.

Lemma hash_digit_valid (target : string) (start_index : Z) :
  valid_subscript start_index = true ->
  exists c, PyStr.index (sha1_hash target) start_index
            = Some (String c EmptyString).
Proof.
  unfold valid_subscript; intros Hv.
  apply index_valid. rewrite sha1_hash_length. lia.
Qed.

Lemma hash_digit_invalid (target : string) (start_index : Z) :
  valid_subscript start_index = false ->
  PyStr.index (sha1_hash target) start_index = None.
Proof.
  unfold valid_subscript; intros Hv.
  apply index_invalid. rewrite sha1_hash_length. lia.
Qed.

(** ** C2: the insert functions read names that are not bound *)

Lemma load_global_index_node (platform : string) (w : world) :
  load_global platform "index_node" w = (w, Raise (NameError "index_node")).
Proof. reflexivity. Qed.

Lemma load_global_doc_dict (platform : string) (w : world) :
  load_global platform "doc_dict" w = (w, Raise (NameError "doc_dict")).
Proof. reflexivity. Qed.

Lemma add_doc_name_word_from_raises (fuel : nat) (platform doc_name word : string)
      (index_dict : pydict) (start_index : Z) (w : world) :
  add_doc_name_word_from (S fuel) platform doc_name word index_dict
                         start_index w
  = (w, Raise (if valid_subscript start_index
               then NameError "index_node" else IndexError)).
Proof.
  cbn [add_doc_name_word_from].
  destruct (valid_subscript start_index) eqn:Hv.
  - destruct (hash_digit_valid word start_index Hv) as [c Hc].
    unfold bind at 1. unfold lift at 1. rewrite Hc. cbn [of_option].
    unfold bind at 1. unfold bind at 1.
    now rewrite load_global_index_node.
  - unfold bind at 1. unfold lift at 1.
    now rewrite (hash_digit_invalid word start_index Hv).
Qed.

Lemma add_doc_content_from_raises (fuel : nat) (platform doc_name : string)
      (doc_content : list (Z * string)) (doc_node : pydict)
      (start_index : Z) (w : world) :
  add_doc_content_from (S fuel) platform doc_name doc_content doc_node
                       start_index w
  = (w, Raise (if valid_subscript start_index
               then NameError "doc_dict" else IndexError)).
Proof.
  cbn [add_doc_content_from].
  destruct (valid_subscript start_index) eqn:Hv.
  - destruct (hash_digit_valid doc_name start_index Hv) as [c Hc].
    unfold bind at 1. unfold lift at 1. rewrite Hc. cbn [of_option].
    unfold bind at 1. unfold bind at 1.
    now rewrite load_global_doc_dict.
  - unfold bind at 1. unfold lift at 1.
    now rewrite (hash_digit_invalid doc_name start_index Hv).
Qed.

Lemma add_doc_name_word_raises (platform doc_name word : string)
      (tree : pydict) (start_index : Z) (w : world) :
  add_doc_name_word platform doc_name word tree start_index w
  = (w, Raise (if valid_subscript start_index
               then NameError "index_node" else IndexError)).
Proof.
  unfold add_doc_name_word, depth_fuel.
  apply add_doc_name_word_from_raises.
Qed.

Lemma add_doc_content_raises (platform doc_name : string)
      (doc_content : list (Z * string)) (tree : pydict) (start_index : Z)
      (w : world) :
  add_doc_content platform doc_name doc_content tree start_index w
  = (w, Raise (if valid_subscript start_index
               then NameError "doc_dict" else IndexError)).
Proof.
  unfold add_doc_content, depth_fuel.
  apply add_doc_content_from_raises.
Qed.



(** ** C7: a lookup descends one path *)

Lemma dir_probes_cons (root : string) (d : ascii) (digits : list ascii)
      (k : nat) :
  dir_probes root (d :: digits) (S k)
  = ProbeDir (root ++ BACKSLASH ++ String d EmptyString)
      :: dir_probes (root ++ BACKSLASH ++ String d EmptyString) digits k.
Proof.
  unfold dir_probes. cbn [seq map shard_path]. f_equal.
  rewrite <- seq_shift, map_map. reflexivity.
Qed.

Lemma descend_single_path (fs : fsview) (digits : list ascii) :
  forall root, single_path fs root digits (fst (descend fs root digits))
                           (snd (descend fs root digits)).
Proof.
  induction digits as [|d digits IH]; intros root.
  - cbn. apply (path_exhausted fs root []). cbn; intros j Hj; lia.
  - cbn [descend].
    pose proof (dir_probes_cons root d digits) as Hcons.
    set (path := root ++ BACKSLASH ++ String d EmptyString) in *.
    destruct (isdir fs path) eqn:Hdir.
    + specialize (IH path).
      destruct (descend fs path digits) as [log r]; cbn [fst snd] in *.
      inversion IH as [Hall Hlog Hr | k Hk Hall Hnd Hf Hlog Hr
                       | k Hk Hall Hnd Hf Hlog Hr]; subst.
      * rewrite <- (Hcons (List.length digits)).
        apply (path_exhausted fs root (d :: digits)).
        intros [|[|j]] Hj; [lia | cbn [shard_path]; exact Hdir |].
        apply (Hall (S j)); cbn in Hj; lia.
      * change (ProbeDir path :: dir_probes path digits (S k) ++ _)
          with ((ProbeDir path :: dir_probes path digits (S k)) ++
                [ProbeFile (shard_path root (d :: digits) (S (S k)) ++ ".txt");
                 ProbeOpen (shard_path root (d :: digits) (S (S k)) ++ ".txt")])%list.
        rewrite <- (Hcons (S k)).
        apply (path_leaf fs root (d :: digits) (S k)); cbn [List.length];
          [lia | | exact Hnd | exact Hf].
        intros [|[|j]] Hj; [lia | cbn [shard_path]; exact Hdir |].
        apply (Hall (S j)); lia.
      * change (ProbeDir path :: dir_probes path digits (S k) ++ _)
          with ((ProbeDir path :: dir_probes path digits (S k)) ++
                [ProbeFile (shard_path root (d :: digits) (S (S k)) ++ ".txt")])%list.
        rewrite <- (Hcons (S k)).
        apply (path_absent fs root (d :: digits) (S k)); cbn [List.length];
          [lia | | exact Hnd | exact Hf].
        intros [|[|j]] Hj; [lia | cbn [shard_path]; exact Hdir |].
        apply (Hall (S j)); lia.
    + destruct (isfile fs (path ++ ".txt")) eqn:Hfile; cbn [fst snd].
      * apply (path_leaf fs root (d :: digits) 0); cbn [List.length];
          [lia | intros j Hj; lia | exact Hdir | exact Hfile].
      * apply (path_absent fs root (d :: digits) 0); cbn [List.length];
          [lia | intros j Hj; lia | exact Hdir | exact Hfile].
Qed.

Lemma dir_probes_on_key_path (root : string) (digits : list ascii) (k : nat) :
  (k <= List.length digits)%nat ->
  Forall (on_key_path root digits) (dir_probes root digits k).
Proof.
  intros Hk. unfold dir_probes. apply Forall_forall. intros p Hp.
  apply in_map_iff in Hp as [j [<- Hj]]. apply in_seq in Hj.
  exists j; split; [lia | now left].
Qed.

Lemma single_path_on_key_path (fs : fsview) (root : string)
      (digits : list ascii) (log : list probe) (d : descent) :
  single_path fs root digits log d ->
  Forall (on_key_path root digits) log
  /\ (List.length (filter (fun p => match p with ProbeDir _ => true
                                           | _ => false end) log)
      <= List.length digits)%nat.
Proof.
  assert (Hdirs : forall k,
             List.length (filter (fun p => match p with ProbeDir _ => true
                                                  | _ => false end)
                                 (dir_probes root digits k)) = k).
  { intros k. unfold dir_probes. generalize 1%nat.
    induction k as [|k IHk]; intros a; cbn; [reflexivity|].
    now rewrite IHk. }
  intros [Hall | k Hk Hall Hnd Hf | k Hk Hall Hnd Hf].
  - split; [now apply dir_probes_on_key_path | now rewrite Hdirs].
  - split.
    + apply Forall_app; split; [apply dir_probes_on_key_path; lia|].
      repeat constructor; exists (S k); (split; [lia | now right]).
    + rewrite filter_app, length_app, Hdirs. cbn. lia.
  - split.
    + apply Forall_app; split; [apply dir_probes_on_key_path; lia|].
      repeat constructor; exists (S k); (split; [lia | now right]).
    + rewrite filter_app, length_app, Hdirs. cbn. lia.
Qed.

Lemma chars_length (s : string) :
  List.length (PyStr.chars s) = String.length s.
Proof.
  unfold PyStr.chars.
  induction s as [|c s IH]; simpl; [reflexivity | now rewrite IH].
Qed.

(** C7.  A lookup, by [search_word] or by [get_doc_content], follows the
    40 digits of the key's hash along one path: the file-system calls it
    makes are the directory tests on the shards of depth 1 to k + 1 of
    that path (at most 40 of them) and, at the first shard that is not a
    directory, one test of that shard's leaf file, which is opened and
    scanned when it exists; when it does not exist the result is empty
    at once.  No call is made on any other path. *)
Theorem lookup_descends_one_path (fs : fsview) (key : string) :
  (exists (log : list probe) (d : descent),
      single_path fs INDEX_FOLDER
                  (PyStr.chars (sha1_hash (PyStr.lower key))) log d
      /\ Forall (on_key_path INDEX_FOLDER
                   (PyStr.chars (sha1_hash (PyStr.lower key)))) log
      /\ (List.length (filter (fun p => match p with ProbeDir _ => true
                                               | _ => false end) log)
          <= 40)%nat
      /\ search_word_log fs key
         = (log, match d with
                 | AtLeaf filename =>
                     scan_names (PyStr.lower key) false
                                (read_lines [] (read_text fs filename)) []
                 | Absent | Exhausted => []
                 end))
  /\ (exists (log : list probe) (d : descent),
         single_path fs DOC_FOLDER (PyStr.chars (sha1_hash key)) log d
         /\ Forall (on_key_path DOC_FOLDER (PyStr.chars (sha1_hash key))) log
         /\ (List.length (filter (fun p => match p with ProbeDir _ => true
                                                  | _ => false end) log)
             <= 40)%nat
         /\ get_doc_content_log fs key
            = (log, match d with
                    | AtLeaf filename =>
                        scan_content key false
                                     (read_lines [] (read_text fs filename))
                                     []
                    | Absent | Exhausted => Ok []
                    end)).
Proof.
  split.
  - pose proof (descend_single_path fs
                  (PyStr.chars (sha1_hash (PyStr.lower key))) INDEX_FOLDER)
      as Hp.
    pose proof (single_path_on_key_path _ _ _ _ _ Hp) as [Hon Hlen].
    rewrite chars_length, sha1_hash_length in Hlen.
    unfold search_word_log.
    destruct (descend fs INDEX_FOLDER
                      (PyStr.chars (sha1_hash (PyStr.lower key))))
      as [log d]; cbn [fst snd] in *.
    exists log, d. repeat split; try assumption. now destruct d.
  - pose proof (descend_single_path fs (PyStr.chars (sha1_hash key))
                                    DOC_FOLDER) as Hp.
    pose proof (single_path_on_key_path _ _ _ _ _ Hp) as [Hon Hlen].
    rewrite chars_length, sha1_hash_length in Hlen.
    unfold get_doc_content_log.
    destruct (descend fs DOC_FOLDER (PyStr.chars (sha1_hash key)))
      as [log d]; cbn [fst snd] in *.
    exists log, d. repeat split; try assumption. now destruct d.
Qed.

(** ** Strings *)

Lemma append_assoc (a b c : string) : (a ++ b) ++ c = a ++ (b ++ c).
Proof. induction a as [|x a IH]; simpl; [reflexivity | now rewrite IH]. Qed.

Lemma append_nil_r (a : string) : a ++ EmptyString = a.
Proof. induction a as [|x a IH]; simpl; [reflexivity | now rewrite IH]. Qed.

Lemma prefix_app (a b : string) : prefix a (a ++ b) = true.
Proof.
  induction a as [|x a IH]; simpl.
  - now destruct b.
  - destruct (ascii_dec x x) as [_|Hn]; [exact IH | congruence].
Qed.

Lemma prefix_app_r (a b c : string) :
  prefix a b = true -> prefix a (b ++ c) = true.
Proof.
  revert b; induction a as [|x a IH]; intros b; simpl.
  - intros _. now destruct (b ++ c).
  - destruct b as [|y b]; [discriminate|]. simpl.
    destruct (ascii_dec x y); [apply IH | discriminate].
Qed.

Lemma prefix_longer (a : string) (c : ascii) (b : string) :
  prefix (a ++ String c b) a = false.
Proof.
  induction a as [|x a IH]; simpl; [reflexivity|].
  destruct (ascii_dec x x); [exact IH | reflexivity].
Qed.

Lemma prefix_fork (a : string) (c1 c2 : ascii) (b1 b2 p : string) :
  prefix (a ++ String c1 b1) p = true ->
  prefix (a ++ String c2 b2) p = true -> c1 = c2.
Proof.
  revert p; induction a as [|x a IH]; intros p; simpl.
  - destruct p as [|y p]; [discriminate|]. simpl.
    destruct (ascii_dec c1 y), (ascii_dec c2 y); intros; congruence.
  - destruct p as [|y p]; [discriminate|]. simpl.
    destruct (ascii_dec x y); [apply IH | discriminate].
Qed.

(** ** C10: the paths of the builder and the paths of the reader *)

Section Preserves.
Context (P : filesys -> Prop).

Lemma preserves_ret {A} (a : A) : preserves P (ret a).
Proof. intros w Hw; exact Hw. Qed.

Lemma preserves_raise {A} (e : exn) : preserves P (@raise A e).
Proof. intros w Hw; exact Hw. Qed.

Lemma preserves_lift {A} (r : outcome A) : preserves P (lift r).
Proof. intros w Hw; exact Hw. Qed.

Lemma preserves_bind {A B} (m : M A) (f : A -> M B) :
  preserves P m -> (forall a, preserves P (f a)) -> preserves P (bind m f).
Proof.
  intros Hm Hf w Hw. unfold bind. specialize (Hm w Hw).
  destruct (m w) as [w' [a|e]]; cbn [fst] in *; [now apply Hf | exact Hm].
Qed.

Lemma preserves_for_each {A} (l : list A) (body : A -> M unit) :
  (forall a, preserves P (body a)) -> preserves P (for_each l body).
Proof.
  intros Hb; induction l as [|x l IH]; cbn [for_each].
  - apply preserves_ret.
  - apply preserves_bind; [apply Hb | intros _; exact IH].
Qed.

Lemma preserves_counters {A} (m : M A) :
  (forall w, w_fs (fst (m w)) = w_fs w) -> preserves P m.
Proof. intros Hm w Hw; now rewrite Hm. Qed.
End Preserves.

Section BuilderPaths.
Context (platform root : string).
Let sep := SEPARATOR platform.

Lemma under_child (folder name : string) :
  under root sep folder -> under root sep (folder ++ sep ++ name).
Proof.
  intros [-> | Hp]; right.
  - rewrite <- append_assoc. apply prefix_app.
  - now apply prefix_app_r.
Qed.

Lemma fs_under_set (fs : filesys) (path : string) (e : fs_entry) :
  under root sep path -> fs_under root sep fs ->
  fs_under root sep (PyDict.set path e fs).
Proof.
  intros Hp Hfs p Hin. apply In_keys_set in Hin as [-> | Hin]; auto.
Qed.

Lemma preserves_mkdir (path : string) :
  under root sep path ->
  preserves (fs_under root sep) (os_mkdir platform path).
Proof.
  intros Hp w Hw. unfold os_mkdir.
  destruct (PyDict.mem path (w_fs w)); [exact Hw|].
  destruct (negb (parent_exists platform (w_fs w) path)); [exact Hw|].
  cbn. now apply fs_under_set.
Qed.

Lemma preserves_open_w (path : string) :
  under root sep path ->
  preserves (fs_under root sep) (open_w platform path).
Proof.
  intros Hp w Hw. unfold open_w.
  destruct (fs_isdir (w_fs w) path); [exact Hw|].
  destruct (negb (parent_exists platform (w_fs w) path)); [exact Hw|].
  cbn. now apply fs_under_set.
Qed.

Lemma preserves_file_write (path text : string) :
  under root sep path ->
  preserves (fs_under root sep) (file_write path text).
Proof.
  intros Hp w Hw. unfold file_write.
  destruct (PyDict.get path (w_fs w)) as [[|content]|]; try exact Hw.
  cbn. now apply fs_under_set.
Qed.

Lemma preserves_write_name_entry (filename : string) (value : pydict)
      (word : string) :
  under root sep filename ->
  preserves (fs_under root sep) (write_name_entry filename value word).
Proof.
  intros Hp. unfold write_name_entry.
  repeat (first
    [ apply preserves_bind; [|intros ?]
    | apply preserves_lift
    | apply preserves_for_each; intros ?
    | now apply preserves_file_write
    | apply preserves_counters; reflexivity
    | unfold progress_report;
      match goal with |- context [if ?b then _ else _] => destruct b end;
      [apply preserves_raise | apply preserves_ret] ]).
Qed.

Lemma preserves_write_doc_entry (filename : string) (value : pydict)
      (doc_name : string) :
  under root sep filename ->
  preserves (fs_under root sep) (write_doc_entry filename value doc_name).
Proof.
  intros Hp. unfold write_doc_entry.
  repeat (first
    [ apply preserves_bind; [|intros ?]
    | apply preserves_lift
    | apply preserves_for_each; intros ?
    | now apply preserves_file_write
    | apply preserves_counters; reflexivity
    | unfold progress_report;
      match goal with |- context [if ?b then _ else _] => destruct b end;
      [apply preserves_raise | apply preserves_ret] ]).
Qed.
End BuilderPaths.

(** Induction on the values that goes through the dictionaries. *)
Lemma pyval_nested_ind (P : pyval -> Prop) :
  (forall n, P (VInt n)) -> (forall s, P (VStr s)) ->
  (forall s, P (VSet s)) -> (forall m, P (VSents m)) ->
  (forall d, Forall (fun kv => P (snd kv)) d -> P (VDict d)) ->
  P VObj ->
  forall v, P v.
Proof.
  intros HInt HStr HSet HSents HDict HObj.
  fix IH 1. intros [n|s|s|m|d|].
  - apply HInt.
  - apply HStr.
  - apply HSet.
  - apply HSents.
  - apply HDict. induction d as [|[k v] d IHd]; constructor.
    + apply IH.
    + exact IHd.
  - apply HObj.
Qed.

Section FlushPaths.
Context (platform root : string).
Let sep := SEPARATOR platform.

Lemma preserves_build_indices_node (node : pyval) :
  forall folder,
    under root sep folder ->
    preserves (fs_under root sep) (build_indices_node platform node folder).
Proof.
  induction node as [n|s|s|m|d IHd|] using pyval_nested_ind;
    intros folder Hf; try apply preserves_raise.
  cbn [build_indices_node].
  induction d as [|[hash_digit value] d IHl].
  - apply preserves_ret.
  - inversion IHd as [|? ? Hv Hd]; subst.
    apply preserves_bind; [|intros _; now apply IHl].
    destruct value as [n|s|s|m|d'|]; try apply preserves_raise.
    destruct (PyDict.mem SAFE_STRING d').
    + apply preserves_bind.
      * apply preserves_open_w. now apply under_child.
      * intros _. apply preserves_for_each. intros word.
        apply preserves_write_name_entry. now apply under_child.
    + apply preserves_bind.
      * apply preserves_mkdir. now apply under_child.
      * intros _. apply Hv. now apply under_child.
Qed.

Lemma preserves_build_docs_node (node : pyval) :
  forall folder,
    under root sep folder ->
    preserves (fs_under root sep) (build_docs_node platform node folder).
Proof.
  induction node as [n|s|s|m|d IHd|] using pyval_nested_ind;
    intros folder Hf; try apply preserves_raise.
  cbn [build_docs_node].
  induction d as [|[hash_digit value] d IHl].
  - apply preserves_ret.
  - inversion IHd as [|? ? Hv Hd]; subst.
    apply preserves_bind; [|intros _; now apply IHl].
    destruct value as [n|s|s|m|d'|]; try apply preserves_raise.
    destruct (PyDict.mem SAFE_STRING d').
    + apply preserves_bind.
      * apply preserves_open_w. now apply under_child.
      * intros _. apply preserves_for_each. intros word.
        apply preserves_write_doc_entry. now apply under_child.
    + apply preserves_bind.
      * apply preserves_mkdir. now apply under_child.
      * intros _. apply Hv. now apply under_child.
Qed.

(** Everything a flush into [root] leaves on an empty disk is [root]
    or lies below it. *)
Lemma flush_under (flush : M unit) (g : counters) :
  preserves (fs_under root sep) flush ->
  fs_under root sep
    (w_fs (fst ((os_mkdir platform root ;;; flush) (mkWorld [] g)))).
Proof.
  intros Hflush.
  apply (preserves_bind (fs_under root sep)).
  - apply preserves_mkdir. now left.
  - intros _. exact Hflush.
  - intros p [].
Qed.
End FlushPaths.

Section ReaderPaths.
Context (root : string) (fs : filesys).

(** No path of the file system starts with [root] and a backslash. *)
Hypothesis no_reader_path :
  forall p, In p (PyDict.keys fs) -> prefix (root ++ BACKSLASH) p = false.

Lemma reader_path_absent (p : string) :
  prefix (root ++ BACKSLASH) p = true ->
  ~ In p (PyDict.keys fs)
  /\ fs_isdir fs p = false /\ fs_isfile fs p = false.
Proof.
  intros Hp.
  assert (Hnot : ~ In p (PyDict.keys fs)).
  { intros Hin. apply no_reader_path in Hin. congruence. }
  split; [exact Hnot|].
  apply (get_None_keys p fs) in Hnot.
  unfold fs_isdir, fs_isfile. now rewrite Hnot.
Qed.

Lemma descend_finds_nothing (digits : list ascii) :
  Forall (fun q => ~ In (probe_path q) (PyDict.keys fs))
         (fst (descend (view_of fs) root digits))
  /\ (snd (descend (view_of fs) root digits) = Absent
      \/ snd (descend (view_of fs) root digits) = Exhausted).
Proof.
  destruct digits as [|d digits]; cbn [descend].
  - split; [constructor | now right].
  - assert (H1 : prefix (root ++ BACKSLASH)
                        (root ++ BACKSLASH ++ String d EmptyString) = true).
    { rewrite <- append_assoc. apply prefix_app. }
    assert (H2 : prefix (root ++ BACKSLASH)
                   ((root ++ BACKSLASH ++ String d EmptyString) ++ ".txt")
                 = true).
    { now apply prefix_app_r. }
    destruct (reader_path_absent _ H1) as [Hn1 [Hd1 _]].
    destruct (reader_path_absent _ H2) as [Hn2 [_ Hf2]].
    cbn [isdir isfile view_of]. rewrite Hd1, Hf2. cbn [fst snd].
    split; [repeat constructor; assumption | now left].
Qed.
End ReaderPaths.

Lemma under_slash_no_reader_path (root : string) (fs : filesys) :
  fs_under root "/" fs ->
  forall p, In p (PyDict.keys fs) -> prefix (root ++ BACKSLASH) p = false.
Proof.
  intros Hfs p Hin. destruct (Hfs p Hin) as [-> | Hp].
  - apply prefix_longer.
  - destruct (prefix (root ++ BACKSLASH) p) eqn:Hb; [|reflexivity].
    pose proof (prefix_fork root _ _ _ _ p Hp Hb) as Heq.
    discriminate Heq.
Qed.

Lemma separator_not_win32 (platform : string) :
  platform <> "win32" -> SEPARATOR platform = "/".
Proof.
  intros Hn. unfold SEPARATOR.
  destruct (String.eqb_spec platform "win32"); [contradiction | reflexivity].
Qed.

(** C10.  Off Windows the builder joins its paths with a slash and the
    reader joins its paths with a backslash.  So, on a disk that holds
    what a flush of any tree has written (up to its end or up to the
    exception that stopped it), no path the lookup probes is a path of
    the disk, and [search_word] and [get_doc_content] return the empty
    result for every key. *)
Theorem lookups_miss_off_windows
        (platform : string) (g : counters) (tree : pydict) (key : string) :
  platform <> "win32" ->
  SEPARATOR platform = "/"
  /\ (let fs := w_fs (after_build_indices platform g tree) in
      Forall (fun q => ~ In (probe_path q) (PyDict.keys fs))
             (fst (search_word_log (view_of fs) key))
      /\ search_word (view_of fs) key = [])
  /\ (let fs := w_fs (after_build_docs platform g tree) in
      Forall (fun q => ~ In (probe_path q) (PyDict.keys fs))
             (fst (get_doc_content_log (view_of fs) key))
      /\ get_doc_content (view_of fs) key = Ok []).
Proof.
  intros Hp. pose proof (separator_not_win32 platform Hp) as Hsep.
  split; [exact Hsep|]. split; cbn zeta.
  - assert (Hu : fs_under INDEX_FOLDER "/"
                   (w_fs (after_build_indices platform g tree))).
    { rewrite <- Hsep. apply flush_under.
      apply preserves_build_indices_node. now left. }
    pose proof (descend_finds_nothing INDEX_FOLDER _
                  (under_slash_no_reader_path _ _ Hu)
                  (PyStr.chars (sha1_hash (PyStr.lower key)))) as [Hlog Hd].
    unfold search_word, search_word_log.
    destruct (descend _ INDEX_FOLDER _) as [log d]; cbn [fst snd] in *.
    destruct Hd as [-> | ->]; now split.
  - assert (Hu : fs_under DOC_FOLDER "/"
                   (w_fs (after_build_docs platform g tree))).
    { rewrite <- Hsep. apply flush_under.
      apply preserves_build_docs_node. now left. }
    pose proof (descend_finds_nothing DOC_FOLDER _
                  (under_slash_no_reader_path _ _ Hu)
                  (PyStr.chars (sha1_hash key))) as [Hlog Hd].
    unfold get_doc_content, get_doc_content_log.
    destruct (descend _ DOC_FOLDER _) as [log d]; cbn [fst snd] in *.
    destruct Hd as [-> | ->]; now split.
Qed.

Lemma lookups_miss_off_windows_witness :
  "linux" <> "win32"
  /\ SEPARATOR "linux" = "/"
  /\ (let fs := w_fs (after_build_indices "linux" initial_counters
                                          name_tree_example) in
      Forall (fun q => ~ In (probe_path q) (PyDict.keys fs))
             (fst (search_word_log (view_of fs) "soul"))
      /\ search_word (view_of fs) "soul" = [])
  /\ (let fs := w_fs (after_build_docs "linux" initial_counters
                                       name_tree_example) in
      Forall (fun q => ~ In (probe_path q) (PyDict.keys fs))
             (fst (get_doc_content_log (view_of fs) "soul"))
      /\ get_doc_content (view_of fs) "soul" = Ok []).
Proof.
  split; [discriminate|].
  apply (lookups_miss_off_windows "linux" initial_counters
                                  name_tree_example "soul").
  discriminate.
Defined.

(** ** Sorting *)

Section SortedFacts.
Context {A : Type} (le : A -> A -> bool).
Hypothesis le_total : forall a b, le a b = false -> le b a = true.

Lemma insert_sorted_perm (x : A) (l : list A) :
  Permutation (insert_sorted le x l) (x :: l).
Proof.
  induction l as [|y l IH]; cbn; [reflexivity|].
  destruct (le x y); [reflexivity|].
  rewrite IH. apply perm_swap.
Qed.

Lemma sorted_perm (l : list A) : Permutation (sorted le l) l.
Proof.
  induction l as [|x l IH]; cbn; [reflexivity|].
  rewrite insert_sorted_perm. now constructor.
Qed.

Lemma insert_sorted_Sorted (x : A) (l : list A) :
  Sorted (fun a b => le a b = true) l ->
  Sorted (fun a b => le a b = true) (insert_sorted le x l).
Proof.
  induction l as [|y l IH]; cbn; intros Hs.
  - repeat constructor.
  - destruct (le x y) eqn:Hxy.
    + constructor; [exact Hs | now constructor].
    + inversion Hs as [|? ? Hl Hy]; subst.
      constructor; [now apply IH|].
      destruct l as [|z l]; cbn.
      * constructor. now apply le_total.
      * destruct (le x z); constructor;
          [now apply le_total | now inversion Hy].
Qed.

Lemma sorted_Sorted (l : list A) :
  Sorted (fun a b => le a b = true) (sorted le l).
Proof.
  induction l as [|x l IH]; cbn; [constructor|].
  now apply insert_sorted_Sorted.
Qed.
End SortedFacts.

Lemma Sorted_weaken {A} (R1 R2 : A -> A -> Prop) (l : list A) :
  (forall a b, R1 a b -> R2 a b) -> Sorted R1 l -> Sorted R2 l.
Proof.
  intros Hr; induction 1 as [|x l Hs IH Hh]; constructor; [exact IH|].
  destruct Hh; constructor; auto.
Qed.

Lemma str_leb_total (a b : string) :
  PyStr.leb a b = false -> PyStr.leb b a = true.
Proof.
  revert b; induction a as [|x a IH]; intros [|y b]; cbn [PyStr.leb];
    try congruence.
  destruct (Nat.ltb_spec (PyStr.code x) (PyStr.code y)); [discriminate|].
  destruct (Nat.ltb_spec (PyStr.code y) (PyStr.code x)); [reflexivity|].
  apply IH.
Qed.

Lemma item_leb_total (a b : Z * string) :
  item_leb a b = false -> item_leb b a = true.
Proof.
  unfold item_leb.
  destruct (Z.ltb_spec (fst a) (fst b)); [discriminate|].
  destruct (Z.ltb_spec (fst b) (fst a)); [reflexivity|].
  apply str_leb_total.
Qed.

Lemma item_leb_fst (a b : Z * string) :
  item_leb a b = true -> (fst a <= fst b)%Z.
Proof.
  unfold item_leb.
  destruct (Z.ltb_spec (fst a) (fst b)); [lia|].
  destruct (Z.ltb_spec (fst b) (fst a)); [discriminate | lia].
Qed.

(** ** C4: what the flush writes for one key *)

Lemma file_text_set (fs : filesys) (filename text : string) :
  file_text (PyDict.set filename (FFile text) fs) filename = Some text.
Proof. unfold file_text. now rewrite get_set_same. Qed.

Lemma file_write_text (filename text content : string) (w : world) :
  file_text (w_fs w) filename = Some content ->
  exists w', file_write filename text w = (w', Ok tt)
             /\ file_text (w_fs w') filename = Some (content ++ text).
Proof.
  unfold file_text, file_write.
  destruct (PyDict.get filename (w_fs w)) as [[|c]|]; try discriminate.
  intros [= ->]. eexists; split; [reflexivity|].
  cbn. now rewrite get_set_same.
Qed.

Lemma for_each_write_text {A} (filename : string) (text : A -> string)
      (l : list A) :
  forall (content : string) (w : world),
    file_text (w_fs w) filename = Some content ->
    exists w', for_each l (fun x => file_write filename (text x)) w
               = (w', Ok tt)
               /\ file_text (w_fs w') filename
                  = Some (content ++ String.concat EmptyString (map text l)).
Proof.
  induction l as [|x l IH]; intros content w Ht; cbn [for_each map].
  - exists w; split; [reflexivity|]. cbn. now rewrite append_nil_r.
  - destruct (file_write_text filename (text x) content w Ht)
      as [w1 [Hw1 Ht1]].
    destruct (IH _ _ Ht1) as [w2 [Hw2 Ht2]].
    exists w2; split.
    + now rewrite (bind_ok _ _ _ _ _ Hw1).
    + rewrite Ht2, append_assoc. f_equal. f_equal.
      destruct l; cbn; [now rewrite append_nil_r | reflexivity].
Qed.

Lemma progress_tail_fs (w : world) (count : counters -> Z)
      (one_percent : counters -> Z) (incr : M unit) :
  (forall w0, exists w1, incr w0 = (w1, Ok tt) /\ w_fs w1 = w_fs w0) ->
  w_fs (fst ((incr ;;; g <- get_counters ;;
              progress_report (count g) (one_percent g)) w)) = w_fs w.
Proof.
  intros Hincr. destruct (Hincr w) as [w1 [Hw1 Hfs]].
  rewrite (bind_ok _ _ _ _ _ Hw1). unfold bind, get_counters.
  unfold progress_report.
  destruct (one_percent (w_glob w1) =? 0)%Z; exact Hfs.
Qed.

(** C4, as the code has it.  For a key of a leaf, the flush appends to
    the leaf file: in the name tree, the header made of the key, a space
    and the number of names, then one line for each name, in ascending
    order; in the content tree, the header made of the key alone, with no
    size, then for each sentence, in ascending sentence number, the
    number, a space and the text with the brackets restored (the text
    brings its own line end). *)
Theorem flush_entry_format :
  (forall (filename : string) (value : pydict) (word : string)
          (names : list string) (content : string) (w : world),
      file_text (w_fs w) filename = Some content ->
      PyDict.get word value = Some (VSet names) ->
      exists lines : list string,
        Permutation lines names
        /\ List.length lines = List.length names
        /\ Sorted (fun a b => PyStr.leb a b = true) lines
        /\ file_text (w_fs (fst (write_name_entry filename value word w)))
                     filename
           = Some (content
                     ++ (word ++ " "
                           ++ PyStr.str_of_Z (Z.of_nat (List.length names))
                           ++ LF)
                     ++ String.concat EmptyString
                          (map (fun doc_name : string => doc_name ++ LF)
                               lines)))
  /\ (forall (filename : string) (value : pydict) (doc_name : string)
             (sents : list (Z * string)) (content : string) (w : world),
         file_text (w_fs w) filename = Some content ->
         PyDict.get doc_name value = Some (VSents sents) ->
         exists items : list (Z * string),
           Permutation items sents
           /\ Sorted (fun a b => (fst a <= fst b)%Z) items
           /\ file_text (w_fs (fst (write_doc_entry filename value doc_name
                                                     w)))
                        filename
              = Some (content
                        ++ (doc_name ++ LF)
                        ++ String.concat EmptyString
                             (map (fun item : Z * string =>
                                     PyStr.str_of_Z (fst item) ++ " "
                                       ++ transform_brackets (snd item))
                                  items))).
Proof.
  split.
  - intros filename value word names content w Ht Hg.
    exists (sorted PyStr.leb names).
    pose proof (sorted_perm PyStr.leb names) as Hperm.
    repeat split.
    + exact Hperm.
    + now apply Permutation_length.
    + apply sorted_Sorted, str_leb_total.
    + unfold write_name_entry, getitem. rewrite Hg. cbn [of_option].
      unfold bind at 1, lift at 1. unfold bind at 1, lift at 1.
      cbn [py_len].
      destruct (file_write_text filename
                  (word ++ " "
                     ++ PyStr.str_of_Z (Z.of_nat (List.length names)) ++ LF)
                  content w Ht) as [w1 [Hw1 Ht1]].
      rewrite (bind_ok _ _ _ _ _ Hw1).
      unfold bind at 1, lift at 1.
      destruct (for_each_write_text filename
                  (fun doc_name : string => doc_name ++ LF)
                  (sorted PyStr.leb names) _ w1 Ht1) as [w2 [Hw2 Ht2]].
      rewrite (bind_ok _ _ _ _ _ Hw2).
      rewrite (progress_tail_fs w2 processed_word_count word_count_1percent).
      * rewrite Ht2. now rewrite append_assoc.
      * intros w0. eexists; split; reflexivity.
  - intros filename value doc_name sents content w Ht Hg.
    exists (sorted item_leb sents). repeat split.
    + apply sorted_perm.
    + apply (Sorted_weaken (fun a b => item_leb a b = true));
        [apply item_leb_fst | apply sorted_Sorted, item_leb_total].
    + unfold write_doc_entry.
      destruct (file_write_text filename (doc_name ++ LF) content w Ht)
        as [w1 [Hw1 Ht1]].
      rewrite (bind_ok _ _ _ _ _ Hw1).
      unfold getitem. rewrite Hg. cbn [of_option].
      unfold bind at 1, lift at 1. unfold bind at 1, lift at 1.
      destruct (for_each_write_text filename
                  (fun item : Z * string =>
                     PyStr.str_of_Z (fst item) ++ " "
                       ++ transform_brackets (snd item))
                  (sorted item_leb sents) _ w1 Ht1) as [w2 [Hw2 Ht2]].
      rewrite (bind_ok _ _ _ _ _ Hw2).
      rewrite (progress_tail_fs w2 processed_doc_count doc_count_1percent).
      * rewrite Ht2. now rewrite append_assoc.
      * intros w0. eexists; split; reflexivity.
Qed.

Lemma flush_entry_format_witness :
  (exists lines : list string,
      Permutation lines ["Soul_Food"; "Soul"]
      /\ List.length lines = List.length ["Soul_Food"; "Soul"]
      /\ Sorted (fun a b => PyStr.leb a b = true) lines
      /\ file_text
           (w_fs (fst (write_name_entry "docname-index/0.txt"
                         [("soul", VSet ["Soul_Food"; "Soul"])] "soul"
                         (mkWorld [("docname-index/0.txt",
                                    FFile EmptyString)]
                                  initial_counters))))
           "docname-index/0.txt"
         = Some (EmptyString
                   ++ ("soul" ++ " "
                         ++ PyStr.str_of_Z
                              (Z.of_nat (List.length ["Soul_Food"; "Soul"]))
                         ++ LF)
                   ++ String.concat EmptyString
                        (map (fun doc_name : string => doc_name ++ LF)
                             lines)))
  /\ (exists items : list (Z * string),
         Permutation items [(1%Z, "b" ++ LF); (0%Z, "a" ++ LF)]
         /\ Sorted (fun a b => (fst a <= fst b)%Z) items
         /\ file_text
              (w_fs (fst (write_doc_entry "indexed-docs/0.txt"
                            [("Soul",
                              VSents [(1%Z, "b" ++ LF); (0%Z, "a" ++ LF)])]
                            "Soul"
                            (mkWorld [("indexed-docs/0.txt",
                                       FFile EmptyString)]
                                     initial_counters))))
              "indexed-docs/0.txt"
            = Some (EmptyString
                      ++ ("Soul" ++ LF)
                      ++ String.concat EmptyString
                           (map (fun item : Z * string =>
                                   PyStr.str_of_Z (fst item) ++ " "
                                     ++ transform_brackets (snd item))
                                items))).
Proof.
  split.
  - apply (proj1 flush_entry_format); reflexivity.
  - apply (proj2 flush_entry_format); reflexivity.
Defined.

(** C4 as stated fails in the content tree: the leaf file that
    [build_docs] writes for the document [Soul], with two sentences, has
    the header line [Soul] and no line [Soul 2]. *)
Lemma content_leaf_header_has_no_size :
  file_text (w_fs (after_build_docs "linux" initial_counters
                                    doc_tree_example))
            "indexed-docs/0.txt"
  = Some ("Soul" ++ LF ++ "0 Soul is a genre ." ++ LF
            ++ "1 It began in the 1950s ." ++ LF)
  /\ ~ In ("Soul 2" ++ LF)
          (read_lines []
             ("Soul" ++ LF ++ "0 Soul is a genre ." ++ LF
                ++ "1 It began in the 1950s ." ++ LF)).
Proof.
  split; [vm_compute; reflexivity|].
  vm_compute. intros [H|[H|[H|[]]]]; discriminate H.
Qed.

(** ** C3 and C8: an insert at a leaf *)

Ltac dict_simpl :=
  repeat first
    [ rewrite get_set_same
    | rewrite get_set_other by congruence
    | match goal with
      | H : PyDict.get _ _ = _ |- _ => rewrite H
      end
    | progress cbn [of_option outcome_bind as_int py_len negb] ].

(** The leaf branch of [add_doc_name_word] in closed form. *)
Lemma add_name_at_leaf_ok (doc_name word : string) (value : pydict)
      (start_index : Z) (w w' : world) (r : pyval) :
  add_name_at_leaf doc_name word value start_index w = (w', Ok r) ->
  exists total : Z,
    PyDict.get SAFE_STRING value = Some (VInt total)
    /\ word <> SAFE_STRING
    /\ let names' := PySet.add doc_name (names_of value word) in
       let value' :=
         PyDict.set SAFE_STRING (VInt (total + 1))
           (PyDict.set word (VSet names')
              (if PyDict.mem word value then value
               else PyDict.set word (VSet []) value)) in
       if (total + 1 >? FILE_CAPACITY)%Z
          && (FILE_CAPACITY >=? Z.of_nat (List.length names') + 1)%Z
       then exists children,
           expand_indices (PyDict.del SAFE_STRING value') (start_index + 1)
           = Ok children /\ r = VDict children
       else r = VDict value'.
Proof.
  unfold add_name_at_leaf, names_of, PyDict.mem.
  destruct (String.eqb_spec word SAFE_STRING) as [->|Hw].
  - destruct (PyDict.get SAFE_STRING value) as [[]|] eqn:Hs;
      unfold bind, lift, ret, incr_word_count, getitem; cbn [negb];
      dict_simpl; discriminate.
  - destruct (PyDict.get word value) as [[| |names| | |]|] eqn:Hg;
      destruct (PyDict.get SAFE_STRING value) as [[total| | | | |]|] eqn:Hs;
      unfold bind, lift, ret, incr_word_count, getitem; cbn [negb];
      dict_simpl; try discriminate.
    all: intros Hr; exists total; split; [reflexivity|];
      split; [exact Hw|]; cbn zeta;
      destruct (total + 1 >? FILE_CAPACITY)%Z; cbn [andb];
      [ destruct (FILE_CAPACITY >=? _)%Z;
        [ destruct (expand_indices _ _) as [children|];
          [ injection Hr as _ <-; now exists children | discriminate ]
        | now injection Hr as _ <- ]
      | now injection Hr as _ <- ].
Qed.

(** The leaf branch of [add_doc_content] in closed form. *)
Lemma add_content_at_leaf_ok (doc_name : string)
      (doc_content : list (Z * string)) (value : pydict)
      (start_index : Z) (w w' : world) (r : pyval) :
  add_content_at_leaf doc_name doc_content value start_index w = (w', Ok r) ->
  exists total : Z,
    PyDict.get SAFE_STRING value = Some (VInt total)
    /\ doc_name <> SAFE_STRING
    /\ let dict_len := (Z.of_nat (List.length doc_content) + 1)%Z in
       let value' :=
         PyDict.set SAFE_STRING (VInt (total + dict_len))
           (PyDict.set doc_name (VSents doc_content) value) in
       if (total + dict_len >? FILE_CAPACITY)%Z
          && (FILE_CAPACITY >=? dict_len)%Z
       then exists children,
           expand_docs (PyDict.del SAFE_STRING value') (start_index + 1)
           = Ok children /\ r = VDict children
       else r = VDict value'.
Proof.
  unfold add_content_at_leaf.
  destruct (String.eqb_spec doc_name SAFE_STRING) as [->|Hw].
  - unfold bind, lift, ret, incr_doc_count, getitem.
    dict_simpl. discriminate.
  - destruct (PyDict.get SAFE_STRING value) as [[total| | | | |]|] eqn:Hs;
      unfold bind, lift, ret, incr_doc_count, getitem;
      dict_simpl; try discriminate.
    intros Hr; exists total; split; [reflexivity|];
      split; [exact Hw|]; cbn zeta.
    destruct ((total + (Z.of_nat (List.length doc_content) + 1)
               >? FILE_CAPACITY)%Z
              && (FILE_CAPACITY
                  >=? Z.of_nat (List.length doc_content) + 1)%Z).
    + destruct (expand_docs _ _) as [children|];
        [ injection Hr as _ <-; now exists children | discriminate ].
    + now injection Hr as _ <-.
Qed.

Lemma occupancy_set_safe (v : pyval) (d : pydict) :
  occupancy (PyDict.set SAFE_STRING v d) = occupancy d.
Proof.
  induction d as [|[k x] d IH]; [reflexivity|].
  cbn [PyDict.set key_eqb KeyEq_string].
  destruct (String.eqb_spec k SAFE_STRING) as [->|Hk].
  - reflexivity.
  - cbn [occupancy]. destruct (String.eqb_spec k SAFE_STRING); [easy|].
    now rewrite IH.
Qed.

Lemma occupancy_set_new (k : string) (v : pyval) (d : pydict) :
  PyDict.get k d = None -> k <> SAFE_STRING ->
  occupancy (PyDict.set k v d) = (occupancy d + (payload_size v + 1))%Z.
Proof.
  intros Hg Hk. induction d as [|[k' x] d IH].
  - cbn. destruct (String.eqb_spec k SAFE_STRING); [easy | lia].
  - cbn [PyDict.get PyDict.set key_eqb KeyEq_string] in *.
    destruct (String.eqb k' k); [discriminate|].
    cbn [occupancy]. rewrite (IH Hg).
    destruct (String.eqb k' SAFE_STRING); lia.
Qed.

Lemma index_one_char (s : string) (i : Z) (x : string) :
  PyStr.index s i = Some x -> String.length x = 1%nat.
Proof.
  unfold PyStr.index.
  destruct (_ <? 0)%Z; [intros [=]|].
  destruct (String.get _ s); intros [= <-]. reflexivity.
Qed.

Lemma Forall_keys_set (P : string -> Prop) (k : string) (v : pyval)
      (d : pydict) :
  P k -> Forall P (PyDict.keys d) -> Forall P (PyDict.keys (PyDict.set k v d)).
Proof.
  intros Hk Hd. apply Forall_forall. intros x Hx.
  apply In_keys_set in Hx as [-> | Hx]; [exact Hk|].
  now apply (proj1 (Forall_forall _ _) Hd).
Qed.

Lemma expand_step_inv (start_index : Z) (seen : list string)
      (result result' : pydict) (word : string) (name_set : pyval) :
  expand_inv seen result ->
  word <> SAFE_STRING -> ~ In word seen ->
  expand_step start_index result (word, name_set) = Ok result' ->
  expand_inv (word :: seen) result'.
Proof.
  intros [Hkeys Hinv] Hw Hseen. unfold expand_step.
  destruct (PyStr.index (sha1_hash word) start_index) as [hash_digit|] eqn:Hd;
    [|discriminate].
  cbn [of_option outcome_bind].
  pose proof (index_one_char _ _ _ Hd) as Hlen.
  set (result0 :=
         if negb (PyDict.mem hash_digit result)
         then PyDict.set hash_digit (VDict [(SAFE_STRING, VInt 0)]) result
         else result).
  assert (Hinv0 : expand_inv seen result0).
  { unfold result0, PyDict.mem.
    destruct (PyDict.get hash_digit result) eqn:Hg; cbn [negb];
      [now split|].
    split; [now apply Forall_keys_set|].
    intros digit child.
    destruct (String.eqb_spec hash_digit digit) as [<-|Hne].
    - rewrite get_set_same. intros [= <-].
      exists [(SAFE_STRING, VInt 0)]. repeat split.
      intros k [<-|[]]. now left.
    - rewrite get_set_other by assumption. apply Hinv. }
  assert (Hmem : exists child, PyDict.get hash_digit result0 = Some child).
  { unfold result0, PyDict.mem.
    destruct (PyDict.get hash_digit result) eqn:Hg; cbn [negb].
    - eauto.
    - rewrite get_set_same. eauto. }
  destruct Hmem as [child Hchild]. destruct Hinv0 as [Hkeys0 Hinv0].
  destruct (Hinv0 _ _ Hchild) as [c [-> [Htot Hck]]].
  unfold getitem at 1. rewrite Hchild. cbn [of_option outcome_bind as_dict].
  destruct (py_len name_set) as [n|] eqn:Hn; [|discriminate].
  cbn [outcome_bind].
  assert (Hnew : PyDict.get word c = None).
  { apply get_None_keys. intros Hin.
    destruct (Hck _ Hin) as [?|?]; contradiction. }
  unfold getitem. rewrite get_set_other by assumption. rewrite Htot.
  cbn [of_option outcome_bind as_int]. intros [= <-].
  split; [now apply Forall_keys_set|].
  intros digit child.
  destruct (String.eqb_spec hash_digit digit) as [<-|Hne].
  - rewrite get_set_same. intros [= <-].
    eexists; split; [reflexivity|]. split.
    + rewrite get_set_same, occupancy_set_safe.
      rewrite occupancy_set_new by assumption.
      unfold payload_size. now rewrite Hn.
    + intros k Hk. apply In_keys_set in Hk as [->|Hk]; [now left|].
      apply In_keys_set in Hk as [->|Hk]; [right; now left|].
      destruct (Hck _ Hk); [now left | right; now right].
  - rewrite get_set_other by assumption. intros Hg.
    destruct (Hinv0 _ _ Hg) as [c' [-> [Htot' Hck']]].
    exists c'. repeat split; try assumption.
    intros k Hk. destruct (Hck' _ Hk); [now left | right; now right].
Qed.

Lemma expand_loop_inv (start_index : Z) (items : pydict) :
  forall (seen : list string) (result result' : pydict),
    expand_inv seen result ->
    NoDup (PyDict.keys items) ->
    ~ In SAFE_STRING (PyDict.keys items) ->
    (forall k, In k (PyDict.keys items) -> ~ In k seen) ->
    expand_loop start_index items result = Ok result' ->
    exists seen', expand_inv seen' result'.
Proof.
  induction items as [|[word name_set] items IH];
    intros seen result result' Hinv Hnd Hsafe Hfresh; cbn [expand_loop].
  - intros [= <-]. now exists seen.
  - destruct (expand_step start_index result (word, name_set))
      as [result1|] eqn:Hstep; [|discriminate].
    cbn [outcome_bind]. cbn [PyDict.keys map fst] in *.
    inversion Hnd as [|? ? Hnotin Hnd']; subst.
    apply (IH (word :: seen) result1).
    + apply (expand_step_inv start_index seen result result1 word name_set);
        auto.
      * intros ->. apply Hsafe. now left.
      * apply Hfresh. now left.
    + exact Hnd'.
    + intros Hin. apply Hsafe. now right.
    + intros k Hk [<-|Hin]; [contradiction|].
      apply (Hfresh k); [now right | exact Hin].
Qed.

(** After [expand_indices] or [expand_docs], on a dictionary without
    [SAFE_STRING], the node has single digits for keys and every child
    carries its own occupancy as its total. *)
Lemma expand_recounts (start_index : Z) (items children : pydict) :
  NoDup (PyDict.keys items) ->
  ~ In SAFE_STRING (PyDict.keys items) ->
  expand_loop start_index items [] = Ok children ->
  Forall (fun k => String.length k = 1%nat) (PyDict.keys children)
  /\ forall digit child,
      PyDict.get digit children = Some child -> recounted_leaf child.
Proof.
  intros Hnd Hsafe Hloop.
  destruct (expand_loop_inv start_index items [] [] children) as [seen [Hk Hc]];
    auto.
  - split; [constructor | intros digit child [=]].
  - split; [exact Hk|]. intros digit child Hg.
    destruct (Hc _ _ Hg) as [c [-> [Htot _]]]. now exists c.
Qed.

Lemma NoDup_keys_set (k : string) (v : pyval) (d : pydict) :
  NoDup (PyDict.keys d) -> NoDup (PyDict.keys (PyDict.set k v d)).
Proof.
  intros Hnd. destruct (PyDict.get k d) eqn:Hg.
  - now rewrite (keys_set_present k v p d Hg).
  - rewrite (keys_set_new k v d Hg).
    apply NoDup_app; [exact Hnd | repeat constructor; intros [] |].
    intros x Hx [<-|[]]. now apply (get_None_keys k d) in Hg.
Qed.

Lemma keys_del (k : string) (d : pydict) :
  NoDup (PyDict.keys d) ->
  NoDup (PyDict.keys (PyDict.del k d)) /\ ~ In k (PyDict.keys (PyDict.del k d)).
Proof.
  induction d as [|[k' v] d IH]; cbn [PyDict.del PyDict.keys map fst];
    intros Hnd.
  - split; [constructor | intros []].
  - inversion Hnd as [|? ? Hnotin Hnd']; subst.
    cbn [key_eqb KeyEq_string].
    destruct (String.eqb_spec k' k) as [->|Hne].
    + split; assumption.
    + destruct (IH Hnd') as [Hn Hi]. cbn [map fst]. split.
      * constructor; [|exact Hn]. intros Hin. apply Hnotin.
        clear -Hin. induction d as [|[k2 v2] d IHd]; [exact Hin|].
        cbn [PyDict.del key_eqb KeyEq_string] in Hin.
        destruct (String.eqb k2 k); cbn in *; intuition.
      * intros [Heq|Hin]; [congruence | contradiction].
Qed.

Lemma one_char_not_safe (children : pydict) :
  Forall (fun k => String.length k = 1%nat) (PyDict.keys children) ->
  PyDict.mem SAFE_STRING children = false.
Proof.
  intros Hk. unfold PyDict.mem.
  destruct (PyDict.get SAFE_STRING children) eqn:Hg; [|reflexivity].
  apply get_In, (in_map fst) in Hg. cbn [fst] in Hg.
  pose proof (proj1 (Forall_forall _ _) Hk _ Hg) as Hlen. discriminate Hlen.
Qed.

Lemma NoDup_leaf_after (k1 k2 : string) (v1 v2 v3 : pyval) (b : bool)
      (value : pydict) :
  NoDup (PyDict.keys value) ->
  let value' :=
    PyDict.set SAFE_STRING v1
      (PyDict.set k1 v2 (if b then value else PyDict.set k2 v3 value)) in
  NoDup (PyDict.keys (PyDict.del SAFE_STRING value'))
  /\ ~ In SAFE_STRING (PyDict.keys (PyDict.del SAFE_STRING value')).
Proof.
  intros Hnd. cbn zeta. apply keys_del.
  repeat apply NoDup_keys_set. destruct b; [exact Hnd|].
  now apply NoDup_keys_set.
Qed.

(** C8, as the code has it.  An insert into a leaf of the name tree
    that leaves it a leaf raises its running total by 1 (not by 2: the
    header line of a new word is not counted); an insert into a leaf of
    the content tree that leaves it a leaf raises its running total by
    the size of the sentence map plus 1.  When the insert splits the
    leaf, the total of each new child is the sum, over the keys of the
    child, of the payload size plus 1. *)
Theorem leaf_total_after_insert :
  (forall (doc_name word : string) (value : pydict) (start_index : Z)
          (w w' : world) (r : pyval),
      NoDup (PyDict.keys value) ->
      add_name_at_leaf doc_name word value start_index w = (w', Ok r) ->
      exists total : Z,
        leaf_total (VDict value) = Some total
        /\ (is_leaf r = true -> leaf_total r = Some (total + 1)%Z)
        /\ (is_leaf r = false ->
            exists children,
              r = VDict children
              /\ forall digit child,
                  PyDict.get digit children = Some child ->
                  recounted_leaf child))
  /\ (forall (doc_name : string) (doc_content : list (Z * string))
             (value : pydict) (start_index : Z) (w w' : world) (r : pyval),
         NoDup (PyDict.keys value) ->
         add_content_at_leaf doc_name doc_content value start_index w
         = (w', Ok r) ->
         exists total : Z,
           leaf_total (VDict value) = Some total
           /\ (is_leaf r = true ->
               leaf_total r
               = Some (total + (Z.of_nat (List.length doc_content) + 1))%Z)
           /\ (is_leaf r = false ->
               exists children,
                 r = VDict children
                 /\ forall digit child,
                     PyDict.get digit children = Some child ->
                     recounted_leaf child)).
Proof.
  split.
  - intros doc_name word value start_index w w' r Hnd Hrun.
    destruct (add_name_at_leaf_ok _ _ _ _ _ _ _ Hrun)
      as [total [Hs [Hw Hr]]].
    exists total. split; [cbn; now rewrite Hs|]. cbn zeta in Hr.
    destruct (_ && _).
    + destruct Hr as [children [Hex ->]].
      destruct (NoDup_leaf_after word word (VInt (total + 1))
                  (VSet (PySet.add doc_name (names_of value word)))
                  (VSet []) (PyDict.mem word value) value Hnd)
        as [Hnd' Hsafe].
      destruct (expand_recounts _ _ _ Hnd' Hsafe Hex) as [Hk Hc].
      split.
      * cbn [is_leaf]. rewrite (one_char_not_safe _ Hk). discriminate.
      * intros _. now exists children.
    + subst r. cbn [is_leaf leaf_total]. unfold PyDict.mem.
      rewrite get_set_same. split; [reflexivity | discriminate].
  - intros doc_name doc_content value start_index w w' r Hnd Hrun.
    destruct (add_content_at_leaf_ok _ _ _ _ _ _ _ Hrun)
      as [total [Hs [Hw Hr]]].
    exists total. split; [cbn; now rewrite Hs|]. cbn zeta in Hr.
    destruct (_ && _).
    + destruct Hr as [children [Hex ->]].
      destruct (NoDup_leaf_after doc_name doc_name
                  (VInt (total + (Z.of_nat (List.length doc_content) + 1)))
                  (VSents doc_content) VObj true value Hnd)
        as [Hnd' Hsafe].
      destruct (expand_recounts _ _ _ Hnd' Hsafe Hex) as [Hk Hc].
      split.
      * cbn [is_leaf]. rewrite (one_char_not_safe _ Hk). discriminate.
      * intros _. now exists children.
    + subst r. cbn [is_leaf leaf_total]. unfold PyDict.mem.
      rewrite get_set_same. split; [reflexivity | discriminate].
Qed.

Lemma leaf_total_after_insert_witness :
  exists total : Z,
    leaf_total (VDict [(SAFE_STRING, VInt 0)]) = Some total
    /\ (is_leaf (VDict [(SAFE_STRING, VInt 1); ("soul", VSet ["Soul"])])
        = true ->
        leaf_total (VDict [(SAFE_STRING, VInt 1); ("soul", VSet ["Soul"])])
        = Some (total + 1)%Z)
    /\ (is_leaf (VDict [(SAFE_STRING, VInt 1); ("soul", VSet ["Soul"])])
        = false ->
        exists children,
          VDict [(SAFE_STRING, VInt 1); ("soul", VSet ["Soul"])]
          = VDict children
          /\ forall digit child,
              PyDict.get digit children = Some child ->
              recounted_leaf child).
Proof.
  apply (proj1 leaf_total_after_insert "Soul" "soul"
               [(SAFE_STRING, VInt 0)] 0%Z initial_world
               (mkWorld [] (mkCounters 1 0 0 0 0 0))).
  - repeat constructor. intros [].
  - reflexivity.
Defined.

(** C8 as stated fails in the name tree: the insert of the name [Soul]
    for the word [soul] into an empty leaf takes the running total from
    0 to 1, not to 2. *)
Lemma name_insert_adds_one :
  leaf_total (VDict [(SAFE_STRING, VInt 0)]) = Some 0%Z
  /\ snd (add_name_at_leaf "Soul" "soul" [(SAFE_STRING, VInt 0)] 0
                           initial_world)
     = Ok (VDict [(SAFE_STRING, VInt 1); ("soul", VSet ["Soul"])])
  /\ leaf_total (VDict [(SAFE_STRING, VInt 1); ("soul", VSet ["Soul"])])
     <> Some (0 + 2)%Z.
Proof.
  split; [reflexivity|]. split; [reflexivity|]. discriminate.
Qed.

(** C3, as the code has it.  After an insert the leaf is split exactly
    when its running total exceeds [FILE_CAPACITY] and the payload of
    the key just inserted, plus one, does not: the guard looks at the
    inserted key, not at the largest payload of the leaf. *)
Theorem split_after_insert :
  (forall (doc_name word : string) (value : pydict) (start_index : Z)
          (w w' : world) (r : pyval),
      NoDup (PyDict.keys value) ->
      add_name_at_leaf doc_name word value start_index w = (w', Ok r) ->
      exists total : Z,
        leaf_total (VDict value) = Some total
        /\ (is_leaf r = false <->
            (total + 1 > FILE_CAPACITY
             /\ Z.of_nat (List.length
                            (PySet.add doc_name (names_of value word))) + 1
                <= FILE_CAPACITY)%Z))
  /\ (forall (doc_name : string) (doc_content : list (Z * string))
             (value : pydict) (start_index : Z) (w w' : world) (r : pyval),
         NoDup (PyDict.keys value) ->
         add_content_at_leaf doc_name doc_content value start_index w
         = (w', Ok r) ->
         exists total : Z,
           leaf_total (VDict value) = Some total
           /\ (is_leaf r = false <->
               (total + (Z.of_nat (List.length doc_content) + 1)
                > FILE_CAPACITY
                /\ Z.of_nat (List.length doc_content) + 1
                   <= FILE_CAPACITY)%Z)).
Proof.
  split.
  - intros doc_name word value start_index w w' r Hnd Hrun.
    destruct (add_name_at_leaf_ok _ _ _ _ _ _ _ Hrun)
      as [total [Hs [Hw Hr]]].
    exists total. split; [cbn; now rewrite Hs|]. cbn zeta in Hr.
    destruct (Z.gtb_spec (total + 1) FILE_CAPACITY) as [Hgt|Hle];
      [destruct (Z.geb_spec FILE_CAPACITY
                   (Z.of_nat (List.length
                      (PySet.add doc_name (names_of value word))) + 1))
         as [Hge|Hlt]|]; cbn [andb] in Hr.
    + destruct Hr as [children [Hex ->]].
      destruct (NoDup_leaf_after word word (VInt (total + 1))
                  (VSet (PySet.add doc_name (names_of value word)))
                  (VSet []) (PyDict.mem word value) value Hnd)
        as [Hnd' Hsafe].
      destruct (expand_recounts _ _ _ Hnd' Hsafe Hex) as [Hk _].
      cbn [is_leaf]. rewrite (one_char_not_safe _ Hk).
      split; [intros _; lia | reflexivity].
    + subst r. cbn [is_leaf]. unfold PyDict.mem. rewrite get_set_same.
      split; [discriminate | lia].
    + subst r. cbn [is_leaf]. unfold PyDict.mem. rewrite get_set_same.
      split; [discriminate | lia].
  - intros doc_name doc_content value start_index w w' r Hnd Hrun.
    destruct (add_content_at_leaf_ok _ _ _ _ _ _ _ Hrun)
      as [total [Hs [Hw Hr]]].
    exists total. split; [cbn; now rewrite Hs|]. cbn zeta in Hr.
    destruct (Z.gtb_spec (total + (Z.of_nat (List.length doc_content) + 1))
                         FILE_CAPACITY) as [Hgt|Hle];
      [destruct (Z.geb_spec FILE_CAPACITY
                   (Z.of_nat (List.length doc_content) + 1))
         as [Hge|Hlt]|]; cbn [andb] in Hr.
    + destruct Hr as [children [Hex ->]].
      destruct (NoDup_leaf_after doc_name doc_name
                  (VInt (total + (Z.of_nat (List.length doc_content) + 1)))
                  (VSents doc_content) VObj true value Hnd)
        as [Hnd' Hsafe].
      destruct (expand_recounts _ _ _ Hnd' Hsafe Hex) as [Hk _].
      cbn [is_leaf]. rewrite (one_char_not_safe _ Hk).
      split; [intros _; lia | reflexivity].
    + subst r. cbn [is_leaf]. unfold PyDict.mem. rewrite get_set_same.
      split; [discriminate | lia].
    + subst r. cbn [is_leaf]. unfold PyDict.mem. rewrite get_set_same.
      split; [discriminate | lia].
Qed.

Lemma split_after_insert_witness :
  exists total : Z,
    leaf_total (VDict [(SAFE_STRING, VInt 0)]) = Some total
    /\ (is_leaf (VDict [(SAFE_STRING, VInt 1); ("soul", VSet ["Soul"])])
        = false <->
        (total + 1 > FILE_CAPACITY
         /\ Z.of_nat (List.length
                        (PySet.add "Soul"
                           (names_of [(SAFE_STRING, VInt 0)] "soul"))) + 1
            <= FILE_CAPACITY)%Z).
Proof.
  apply (proj1 split_after_insert "Soul" "soul"
               [(SAFE_STRING, VInt 0)] 0%Z initial_world
               (mkWorld [] (mkCounters 1 0 0 0 0 0))).
  - repeat constructor. intros [].
  - reflexivity.
Defined.

(** C3 as stated fails.  In a leaf whose running total is 20001 and
    whose word [big] has 20001 names, the insert of a name for the new
    word [soul] splits the leaf, although the largest payload alone
    keeps its bucket over the capacity: the child that receives [big]
    has the total 20002.  And in a leaf with 10000 names for each of the
    words [soul] and [river], one more name for [river] splits the leaf
    into a single child that holds both words with the total 20003: a
    leaf over the capacity in which no key exceeds the capacity, and
    which no insert or flush checks again. *)
Lemma split_despite_dominant_key :
  split_claimed
    (PyDict.set SAFE_STRING (VInt 20002)
       (PyDict.set "soul" (VSet ["Soul"]) dominated_leaf)) = false
  /\ children_summary
       (snd (add_name_at_leaf "Soul" "soul" dominated_leaf 0 initial_world))
     = [ ("5", ([SAFE_STRING; "big"], Some 20002%Z, 20001%Z));
         ("8", ([SAFE_STRING; "soul"], Some 2%Z, 1%Z)) ]
  /\ children_summary
       (snd (add_name_at_leaf "River_Thames" "river" shared_leaf 0
                              initial_world))
     = [ ("8", ([SAFE_STRING; "soul"; "river"], Some 20003%Z, 10001%Z)) ].
Proof. repeat split; vm_compute; reflexivity. Qed.

(** ** Substrings, [join] and [split] *)

Lemma prefix_spec (a s : string) :
  prefix a s = true <-> exists b, s = a ++ b.
Proof.
  revert s; induction a as [|x a IH]; intros s; cbn.
  - split; [intros _; now exists s | now destruct s].
  - destruct s as [|y s]; cbn.
    + split; [discriminate | intros [b Hb]; discriminate Hb].
    + destruct (ascii_dec x y) as [->|Hn].
      * rewrite IH. split; intros [b Hb]; exists b; congruence.
      * split; [discriminate | intros [b Hb]; congruence].
Qed.

Lemma contains_spec (sub s : string) :
  PyStr.contains sub s = true <-> exists a b, s = a ++ sub ++ b.
Proof.
  induction s as [|y s IH]; cbn [PyStr.contains].
  - rewrite orb_false_r, prefix_spec. split.
    + intros [b Hb]. now exists EmptyString, b.
    + intros [a [b Hb]]. destruct a; [now exists b | discriminate].
  - rewrite orb_true_iff, prefix_spec, IH. split.
    + intros [[b Hb] | [a [b Hb]]].
      * now exists EmptyString, b.
      * exists (String y a), b. cbn. now rewrite Hb.
    + intros [[|x a] [b Hb]].
      * left. now exists b.
      * right. exists a, b. cbn in Hb. congruence.
Qed.

Lemma append_length (a b : string) :
  String.length (a ++ b) = (String.length a + String.length b)%nat.
Proof. induction a as [|x a IH]; cbn; [reflexivity | now rewrite IH]. Qed.

Lemma length_zero (a : string) : String.length a = 0%nat -> a = EmptyString.
Proof. now destruct a. Qed.

Lemma contains_refl (s : string) : PyStr.contains s s = true.
Proof.
  apply contains_spec. exists EmptyString, EmptyString.
  cbn. now rewrite append_nil_r.
Qed.

Lemma contains_trans (a b c : string) :
  PyStr.contains a b = true -> PyStr.contains b c = true ->
  PyStr.contains a c = true.
Proof.
  rewrite !contains_spec. intros [a1 [a2 ->]] [b1 [b2 ->]].
  exists (b1 ++ a1), (a2 ++ b2). now rewrite !append_assoc.
Qed.

Lemma contains_length (a b : string) :
  PyStr.contains a b = true -> (String.length a <= String.length b)%nat.
Proof.
  rewrite contains_spec. intros [a1 [a2 ->]]. rewrite !append_length. lia.
Qed.

Lemma contains_same_length (a b : string) :
  PyStr.contains a b = true -> String.length a = String.length b -> a = b.
Proof.
  rewrite contains_spec. intros [a1 [a2 ->]]. rewrite !append_length.
  intros Hl.
  rewrite (length_zero a1), (length_zero a2) by lia.
  cbn. now rewrite append_nil_r.
Qed.

Lemma contains_antisym (a b : string) :
  PyStr.contains a b = true -> PyStr.contains b a = true -> a = b.
Proof.
  intros Hab Hba. apply contains_same_length; [exact Hab|].
  apply contains_length in Hab, Hba. lia.
Qed.

Lemma join_cons (sep x : string) (l : list string) :
  l <> [] -> PyStr.join sep (x :: l) = x ++ sep ++ PyStr.join sep l.
Proof. now destruct l. Qed.

Lemma join_app (sep : string) (l1 l2 : list string) :
  l1 <> [] -> l2 <> [] ->
  PyStr.join sep (l1 ++ l2)
  = PyStr.join sep l1 ++ sep ++ PyStr.join sep l2.
Proof.
  intros H1 H2. induction l1 as [|x l1 IH]; [contradiction|].
  destruct l1 as [|y l1].
  - cbn [app]. now apply join_cons.
  - change ((x :: y :: l1) ++ l2)%list with (x :: ((y :: l1) ++ l2))%list.
    rewrite join_cons by discriminate.
    rewrite IH by discriminate.
    rewrite (join_cons sep x (y :: l1)) by discriminate.
    now rewrite !append_assoc.
Qed.

(** A run of tokens is a substring once both are joined. *)
Lemma token_run_contains (wl wl' : list string) :
  token_run wl wl' ->
  PyStr.contains (PyStr.join " " wl) (PyStr.join " " wl') = true.
Proof.
  intros [before [after ->]]. apply contains_spec.
  destruct wl as [|t wl].
  - exists EmptyString. cbn. eauto.
  - destruct before as [|b before], after as [|a after].
    + exists EmptyString, EmptyString.
      rewrite app_nil_l, app_nil_r. cbn [append]. now rewrite append_nil_r.
    + exists EmptyString, (" " ++ PyStr.join " " (a :: after)).
      rewrite app_nil_l. now rewrite join_app by discriminate.
    + exists (PyStr.join " " (b :: before) ++ " "), EmptyString.
      rewrite app_nil_r, join_app by discriminate.
      now rewrite append_nil_r, append_assoc.
    + exists (PyStr.join " " (b :: before) ++ " "),
             (" " ++ PyStr.join " " (a :: after)).
      rewrite join_app by (cbn; discriminate).
      rewrite join_app by discriminate.
      now rewrite !append_assoc.
Qed.

Lemma of_chars_chars (s : string) : PyStr.of_chars (PyStr.chars s) = s.
Proof. apply string_of_list_ascii_of_string. Qed.

Lemma chars_app (a b : string) :
  PyStr.chars (a ++ b) = (PyStr.chars a ++ PyStr.chars b)%list.
Proof.
  unfold PyStr.chars.
  induction a as [|x a IH]; cbn; [reflexivity | now rewrite IH].
Qed.

Section SplitJoin.
Let sep := PyStr.char_isspace.

Lemma split_runs_token (t : list ascii) :
  forall (cur : list ascii) (in_sep : bool) (s : string),
    t <> [] ->
    forallb (fun c => negb (sep c)) t = true ->
    PyStr.split_runs sep false cur in_sep (PyStr.of_chars t ++ s)
    = PyStr.split_runs sep false (rev t ++ cur) false s.
Proof.
  induction t as [|c t IH]; intros cur in_sep s Hne Hall; [contradiction|].
  cbn [forallb] in Hall. apply andb_true_iff in Hall as [Hc Ht].
  apply negb_true_iff in Hc.
  cbn [PyStr.of_chars string_of_list_ascii append PyStr.split_runs].
  fold (PyStr.of_chars t). rewrite Hc.
  destruct t as [|c' t].
  - reflexivity.
  - rewrite IH by (try discriminate; exact Ht).
    cbn [rev]. now rewrite <- !app_assoc.
Qed.

(** [" ".join(wl).split()] gives [wl] back when [wl] is made of
    tokens. *)
Lemma split_ws_join (wl : list string) :
  forallb wf_token wl = true ->
  forall in_sep,
    PyStr.split_runs sep false [] in_sep (PyStr.join " " wl) = wl.
Proof.
  induction wl as [|t wl IH]; intros Hwf in_sep.
  - now destruct in_sep.
  - cbn [forallb] in Hwf. apply andb_true_iff in Hwf as [Ht Hwl].
    unfold wf_token in Ht. apply andb_true_iff in Ht as [Hne Hsp].
    assert (Hchars : PyStr.chars t <> []) by (now destruct t).
    destruct wl as [|t' wl].
    + cbn [PyStr.join]. rewrite <- (append_nil_r t) at 1.
      rewrite <- (of_chars_chars t) at 1.
      rewrite split_runs_token by assumption.
      rewrite app_nil_r. cbn [PyStr.split_runs andb negb].
      destruct (rev (PyStr.chars t)) eqn:Hrev.
      * apply (f_equal (@rev ascii)) in Hrev.
        rewrite rev_involutive in Hrev. contradiction.
      * rewrite <- Hrev, rev_involutive. now rewrite of_chars_chars.
    + rewrite join_cons by discriminate.
      rewrite <- (of_chars_chars t) at 1.
      rewrite split_runs_token by assumption.
      rewrite app_nil_r.
      change (" " ++ PyStr.join " " (t' :: wl))
        with (String " "%char (PyStr.join " " (t' :: wl))).
      cbn [PyStr.split_runs].
      change (sep " "%char) with true. cbn match.
      destruct (rev (PyStr.chars t)) eqn:Hrev.
      * apply (f_equal (@rev ascii)) in Hrev.
        rewrite rev_involutive in Hrev. contradiction.
      * cbn [andb negb]. rewrite <- Hrev, rev_involutive, of_chars_chars.
        f_equal. now apply IH.
Qed.
End SplitJoin.

(** ** Sets *)

Lemma set_mem_In (x : string) (s : list string) :
  PySet.mem x s = true <-> In x s.
Proof.
  unfold PySet.mem. rewrite existsb_exists. split.
  - intros [y [Hy Heq]]. apply String.eqb_eq in Heq. now subst.
  - intros Hin. exists x. split; [exact Hin | apply String.eqb_refl].
Qed.

Lemma set_add_In (x y : string) (s : list string) :
  In x (PySet.add y s) <-> x = y \/ In x s.
Proof.
  unfold PySet.add. destruct (PySet.mem y s) eqn:Hm.
  - apply set_mem_In in Hm. split; [now right | intros [->|H]; assumption].
  - rewrite in_app_iff. cbn. intuition congruence.
Qed.

Lemma set_add_NoDup (y : string) (s : list string) :
  NoDup s -> NoDup (PySet.add y s).
Proof.
  intros Hnd. unfold PySet.add. destruct (PySet.mem y s) eqn:Hm; [exact Hnd|].
  apply NoDup_app; [exact Hnd | repeat constructor; intros [] |].
  intros x Hx [<-|[]]. apply set_mem_In in Hx. congruence.
Qed.

Lemma set_fold_In (x : string) (l : list string) :
  forall s, In x (fold_left (fun s y => PySet.add y s) l s) <-> In x s \/ In x l.
Proof.
  induction l as [|y l IH]; intros s; cbn [fold_left].
  - cbn. tauto.
  - rewrite IH, set_add_In. cbn. intuition congruence.
Qed.

Lemma set_fold_NoDup (l : list string) :
  forall s, NoDup s -> NoDup (fold_left (fun s y => PySet.add y s) l s).
Proof.
  induction l as [|y l IH]; intros s Hs; cbn [fold_left]; [exact Hs|].
  apply IH. now apply set_add_NoDup.
Qed.

Lemma set_union_In (x : string) (a b : list string) :
  In x (PySet.union a b) <-> In x a \/ In x b.
Proof. apply set_fold_In. Qed.

Lemma set_of_list_In (x : string) (l : list string) :
  In x (PySet.of_list l) <-> In x l.
Proof. unfold PySet.of_list. rewrite set_fold_In. cbn. tauto. Qed.

Lemma set_of_list_NoDup (l : list string) : NoDup (PySet.of_list l).
Proof. apply set_fold_NoDup. constructor. Qed.

(** ** C6: the absorption *)

Lemma name_dict_add_names (name_dict : list (list string * list string))
      (name : string) (word_list wl : list string) (n : string) :
  In n (names_for (name_dict_add name_dict (name, word_list)) wl)
  <-> In n (names_for name_dict wl) \/ (n = name /\ wl = word_list).
Proof.
  unfold name_dict_add, names_for.
  destruct (list_eq_dec string_dec word_list wl) as [->|Hne].
  - rewrite get_set_same, set_add_In. intuition congruence.
  - rewrite get_set_other by assumption. intuition congruence.
Qed.

Lemma name_dict_add_keys (name_dict : list (list string * list string))
      (name : string) (word_list wl : list string) :
  In wl (PyDict.keys (name_dict_add name_dict (name, word_list)))
  <-> In wl (PyDict.keys name_dict) \/ wl = word_list.
Proof.
  unfold name_dict_add. rewrite In_keys_set. tauto.
Qed.

Lemma name_dict_names (names : list named) :
  forall (name_dict : list (list string * list string))
         (wl : list string) (n : string),
    In n (names_for (fold_left name_dict_add names name_dict) wl)
    <-> In n (names_for name_dict wl) \/ In (n, wl) names.
Proof.
  induction names as [|[name word_list] names IH]; intros name_dict wl n;
    cbn [fold_left].
  - cbn. tauto.
  - rewrite IH, name_dict_add_names. cbn. intuition congruence.
Qed.

Lemma name_dict_keys (names : list named) :
  forall (name_dict : list (list string * list string)) (wl : list string),
    In wl (PyDict.keys (fold_left name_dict_add names name_dict))
    <-> In wl (PyDict.keys name_dict) \/ exists n, In (n, wl) names.
Proof.
  induction names as [|[name word_list] names IH]; intros name_dict wl;
    cbn [fold_left].
  - cbn. split; [now left | intros [H|[n []]]; exact H].
  - rewrite IH, name_dict_add_keys. cbn. split.
    + intros [[H| ->]|[n H]]; eauto.
    + intros [H|[n [Heq|H]]]; eauto.
      injection Heq as -> ->. left; now right.
Qed.

Lemma total_length_bound (x : string) (l : list string) :
  In x l -> (String.length x <= total_length l)%nat.
Proof.
  unfold total_length.
  induction l as [|y l IH]; cbn [In fold_right]; [intros []|].
  intros [->|H]; [lia | apply IH in H; lia].
Qed.

(** Above every member there is a maximal one. *)
Lemma maximal_above (universe : list string) :
  forall (n : nat) (x : string),
    In x universe ->
    (total_length universe - String.length x < n)%nat ->
    exists m, maximal universe m /\ PyStr.contains x m = true.
Proof.
  induction n as [|n IH]; intros x Hx Hn; [lia|].
  destruct (existsb (fun y => PyStr.contains x y && negb (String.eqb y x))
                    universe) eqn:Hex.
  - apply existsb_exists in Hex as [y [Hy Hc]].
    apply andb_true_iff in Hc as [Hc Hne].
    apply negb_true_iff, String.eqb_neq in Hne.
    assert (Hlen : (String.length x < String.length y)%nat).
    { pose proof (contains_length _ _ Hc) as Hle.
      destruct (Nat.eq_dec (String.length x) (String.length y)) as [He|He];
        [|lia].
      exfalso. apply Hne. symmetry. now apply contains_same_length. }
    pose proof (total_length_bound y universe Hy) as Hb.
    destruct (IH y Hy) as [m [Hm Hym]]; [lia|].
    exists m. split; [exact Hm | now apply (contains_trans x y m)].
  - exists x. split; [|apply contains_refl].
    split; [exact Hx|]. intros y Hy Hc.
    destruct (String.eqb_spec y x) as [->|Hne]; [reflexivity|].
    assert (Ht : existsb (fun y => PyStr.contains x y
                                   && negb (String.eqb y x)) universe = true).
    { apply existsb_exists. exists y. split; [exact Hy|].
      rewrite Hc. cbn. now apply negb_true_iff, String.eqb_neq. }
    congruence.
Qed.

(** The [while] loop keeps exactly the maximal strings, in whatever
    order the set hands them out. *)
Lemma absorb_loop_maximal (universe : list string) :
  forall words_set new_set : list string,
    NoDup words_set ->
    (forall x, In x words_set -> ~ In x new_set) ->
    incl words_set universe ->
    (forall x, In x new_set -> maximal universe x) ->
    (forall x, maximal universe x -> In x words_set \/ In x new_set) ->
    forall x, In x (absorb_loop words_set new_set) <-> maximal universe x.
Proof.
  induction words_set as [|w ws IH];
    intros new_set Hnd Hdisj Hincl Hnew Hall x; cbn [absorb_loop].
  - split; [apply Hnew|]. intros Hm. destruct (Hall x Hm) as [[]|H]; exact H.
  - inversion Hnd as [|? ? Hw Hnd']; subst.
    assert (Hwn : ~ In w new_set) by (apply Hdisj; now left).
    destruct (existsb (fun remain_words => PyStr.contains w remain_words)
                      (PySet.union ws new_set)) eqn:Hex; cbn [negb].
    + (* w is inside another string: it is dropped *)
      apply existsb_exists in Hex as [y [Hy Hc]].
      apply set_union_In in Hy.
      assert (Hyw : y <> w) by (intros ->; tauto).
      assert (HyU : In y universe).
      { destruct Hy as [Hy|Hy]; [apply Hincl; now right | apply Hnew, Hy]. }
      apply IH; auto.
      * intros z Hz. apply Hdisj. now right.
      * intros z Hz. apply Hincl. now right.
      * intros z Hm. destruct (Hall z Hm) as [[<-|H]|H]; auto.
        exfalso. apply Hyw. now apply (proj2 Hm).
    + (* w is inside no string still in play: it is maximal *)
      assert (Hmax : maximal universe w).
      { split; [apply Hincl; now left|]. intros y Hy Hc.
        destruct (String.eqb_spec y w) as [->|Hne]; [reflexivity|]. exfalso.
        destruct (maximal_above universe
                    (S (total_length universe - String.length y)) y Hy)
          as [m [Hm Hym]]; [lia|].
        assert (Hwm : PyStr.contains w m = true)
          by now apply (contains_trans w y m).
        assert (Hmw : m <> w).
        { intros ->. apply Hne. now apply contains_antisym. }
        assert (Hin : In m (PySet.union ws new_set)).
        { apply set_union_In. destruct (Hall m Hm) as [[Heq|H]|H]; auto.
          congruence. }
        assert (Ht : existsb (fun r => PyStr.contains w r)
                             (PySet.union ws new_set) = true).
        { apply existsb_exists. now exists m. }
        congruence. }
      apply IH; auto.
      * intros z Hz Hin. apply set_add_In in Hin as [->|Hin];
          [contradiction | apply (Hdisj z); [now right | exact Hin]].
      * intros z Hz. apply Hincl. now right.
      * intros z Hz. apply set_add_In in Hz as [->|Hz]; auto.
      * intros z Hm. rewrite set_add_In.
        destruct (Hall z Hm) as [[<-|H]|H]; auto.
Qed.

Lemma absorb_result_In (name_dict : list (list string * list string))
      (new_set : list string) (n : string) :
  forall result : list string,
    In n (fold_left
            (fun result words =>
               PySet.union result
                 (match PyDict.get (PyStr.split_ws words) name_dict with
                  | Some s => s
                  | None => []
                  end))
            new_set result)
    <-> In n result
        \/ exists words, In words new_set
                         /\ In n (names_for name_dict (PyStr.split_ws words)).
Proof.
  induction new_set as [|w new_set IH]; intros result; cbn [fold_left].
  - split; [now left | intros [H|[words [[] _]]]; exact H].
  - rewrite IH, set_union_In. unfold names_for. split.
    + intros [[H|H]|[words [Hw H]]]; [now left | right | right].
      * exists w. split; [now left | exact H].
      * exists words. split; [now right | exact H].
    + intros [H|[words [[<-|Hw] H]]]; [now left; left | now left; right|].
      right. now exists words.
Qed.

Lemma wf_names_In (names : list named) (n : string) (wl : list string) :
  wf_names names = true -> In (n, wl) names -> forallb wf_token wl = true.
Proof.
  unfold wf_names. rewrite forallb_forall. intros Hwf Hin.
  exact (Hwf _ Hin).
Qed.

Lemma join_injective (a b : list string) :
  forallb wf_token a = true -> forallb wf_token b = true ->
  PyStr.join " " a = PyStr.join " " b -> a = b.
Proof.
  intros Ha Hb Heq.
  rewrite <- (split_ws_join a Ha false), <- (split_ws_join b Hb false).
  now rewrite Heq.
Qed.

(** The names [absorb_doc_names] returns, for accepted names made of
    tokens: those with a token sequence that no other accepted sequence
    holds as a string. *)
Lemma absorb_doc_names_spec (names : list named) (n : string) :
  wf_names names = true ->
  In n (absorb_doc_names names)
  <-> exists wl, In (n, wl) names /\ ~ absorbed names wl.
Proof.
  intros Hwf. unfold absorb_doc_names.
  set (name_dict := fold_left name_dict_add names []).
  set (universe := PySet.of_list (map (PyStr.join " ")
                                      (PyDict.keys name_dict))).
  assert (Hkeys : forall wl, In wl (PyDict.keys name_dict)
                             <-> exists n', In (n', wl) names).
  { intros wl. unfold name_dict. rewrite name_dict_keys. cbn.
    split; [intros [[]|H]; exact H | now right]. }
  assert (Hnames : forall wl n', In n' (names_for name_dict wl)
                                 <-> In (n', wl) names).
  { intros wl n'. unfold name_dict. rewrite name_dict_names. cbn.
    split; [intros [[]|H]; exact H | now right]. }
  assert (HU : forall s, In s universe
                         <-> exists n' wl, In (n', wl) names
                                           /\ s = PyStr.join " " wl).
  { intros s. unfold universe. rewrite set_of_list_In, in_map_iff. split.
    - intros [wl [<- Hwl]]. apply Hkeys in Hwl as [n' Hn']. eauto.
    - intros [n' [wl [Hin ->]]]. exists wl. split; [reflexivity|].
      apply Hkeys. eauto. }
  assert (Hloop : forall s, In s (absorb_loop universe [])
                            <-> maximal universe s).
  { apply absorb_loop_maximal.
    - apply set_of_list_NoDup.
    - intros x _ [].
    - apply incl_refl.
    - intros x [].
    - intros x [Hx _]. now left. }
  rewrite absorb_result_In. split.
  - intros [[]|[words [Hw Hn]]]. apply Hloop in Hw.
    destruct Hw as [HwU Hmax]. apply HU in HwU as [n' [wl [Hin ->]]].
    pose proof (wf_names_In _ _ _ Hwf Hin) as Hwl.
    unfold PyStr.split_ws in Hn. rewrite split_ws_join in Hn by assumption.
    apply Hnames in Hn. exists wl. split; [exact Hn|].
    intros [n2 [wl2 [Hin2 [Hne Hc]]]]. apply Hne.
    apply join_injective.
    + exact (wf_names_In _ _ _ Hwf Hin2).
    + exact Hwl.
    + apply Hmax; [apply HU; eauto | exact Hc].
  - intros [wl [Hin Hnot]]. right. exists (PyStr.join " " wl).
    pose proof (wf_names_In _ _ _ Hwf Hin) as Hwl. split.
    + apply Hloop. split; [apply HU; eauto|].
      intros y Hy Hc. apply HU in Hy as [n2 [wl2 [Hin2 ->]]].
      destruct (list_eq_dec string_dec wl2 wl) as [->|Hne]; [reflexivity|].
      exfalso. apply Hnot. now exists n2, wl2.
    + unfold PyStr.split_ws. rewrite split_ws_join by assumption.
      now apply Hnames.
Qed.

(** ** C5: the entity mode of the resolver *)

Lemma named_eqb_eq (a b : named) : named_eqb a b = true <-> a = b.
Proof.
  destruct a as [n1 w1], b as [n2 w2]. unfold named_eqb. cbn [fst snd].
  rewrite andb_true_iff, String.eqb_eq.
  destruct (key_eqb_spec w1 w2) as [->|Hn]; intuition congruence.
Qed.

Lemma named_add_In (x y : named) (s : list named) :
  In x (named_add y s) <-> x = y \/ In x s.
Proof.
  unfold named_add. destruct (existsb (named_eqb y) s) eqn:Hex.
  - apply existsb_exists in Hex as [z [Hz Heq]]. apply named_eqb_eq in Heq.
    subst z. split; [now right | intros [->|H]; assumption].
  - rewrite in_app_iff. cbn. intuition congruence.
Qed.

Lemma named_union_In (x : named) (b : list named) :
  forall a, In x (named_union a b) <-> In x a \/ In x b.
Proof.
  unfold named_union. induction b as [|y b IH]; intros a; cbn [fold_left].
  - cbn. tauto.
  - rewrite IH, named_add_In. cbn. intuition congruence.
Qed.

Lemma get_valid_names_into_In (words : list string) (name_list : list named)
      (x : named) :
  forall valid_names,
    In x (get_valid_names_into words name_list valid_names)
    <-> In x valid_names
        \/ (In x name_list
            /\ firstn (List.length (snd x)) words = snd x).
Proof.
  induction name_list as [|[name word_list] name_list IH];
    intros valid_names; cbn [get_valid_names_into].
  - cbn. tauto.
  - rewrite IH.
    destruct (key_eqb_spec (firstn (List.length word_list) words) word_list)
      as [Heq|Hne].
    + rewrite named_add_In. cbn [In]. split.
      * intros [[->|H]|[H1 H2]]; auto.
      * intros [H|[[<-|H1] H2]]; auto.
    + cbn [In]. split.
      * intros [H|[H1 H2]]; auto.
      * intros [H|[[<-|H1] H2]]; auto.
        try (cbn [snd] in H2; contradiction).
Qed.

Lemma get_valid_names_In (words : list string) (name_list : list named)
      (x : named) :
  In x (get_valid_names words name_list)
  <-> In x name_list /\ firstn (List.length (snd x)) words = snd x.
Proof.
  unfold get_valid_names. rewrite get_valid_names_into_In. cbn. tauto.
Qed.

(** What the second loop leaves in [result]: the matches of the
    positions whose case class is the final mode; what was there before
    stays only when the mode never changes. *)
Lemma resolve_loop_In (p : pools) (x : named) (words : list string) :
  forall (lower_words : list string) (ne_found : bool) (result : list named),
    List.length lower_words = List.length words ->
    In x (resolve_loop p words lower_words ne_found result)
    <-> (In x result /\ ne_found = (ne_found || existsb is_ne words))
        \/ exists i word,
            nth_error words i = Some word
            /\ is_ne word = (ne_found || existsb is_ne words)
            /\ In x (accepted_at p word (skipn i lower_words)).
Proof.
  induction words as [|word words IH];
    intros lower_words ne_found result Hlen.
  - cbn. rewrite orb_false_r. split.
    + intros H. now left.
    + intros [[H _]|[i [w [Hn _]]]]; [exact H|]. now destruct i.
  - destruct lower_words as [|lower_word lower_words]; [discriminate|].
    injection Hlen as Hlen. cbn [resolve_loop existsb].
    fold (is_ne word).
    rewrite (IH _ _ _ Hlen). clear IH.
    assert (Hshift :
              forall mode,
                (exists i w, nth_error (word :: words) i = Some w
                             /\ is_ne w = mode
                             /\ In x (accepted_at p w
                                        (skipn i (lower_word :: lower_words))))
                <-> (is_ne word = mode
                     /\ In x (accepted_at p word (lower_word :: lower_words)))
                    \/ (exists i w, nth_error words i = Some w
                                    /\ is_ne w = mode
                                    /\ In x (accepted_at p w
                                               (skipn i lower_words)))).
    { intros mode. split.
      - intros [[|i] [w [Hn [Hm Hin]]]].
        + injection Hn as <-. now left.
        + right. now exists i, w.
      - intros [[Hm Hin]|[i [w [Hn [Hm Hin]]]]].
        + now exists 0%nat, word.
        + now exists (S i), w. }
    rewrite Hshift. clear Hshift.
    assert (Hacc :
              forall r,
                In x (match PyDict.get lower_word
                              (if is_ne word then ne_doc_names p
                               else doc_names p) with
                      | Some candidates =>
                          named_union r
                            (get_valid_names (lower_word :: lower_words)
                                             candidates)
                      | None => r
                      end)
                <-> In x r
                    \/ In x (accepted_at p word (lower_word :: lower_words))).
    { intros r. unfold accepted_at.
      destruct (PyDict.get lower_word _); [apply named_union_In|].
      cbn. tauto. }
    destruct ne_found, (is_ne word) eqn:Hne; cbn [negb andb orb Bool.eqb];
      try rewrite Hacc; cbn [In].
    + (* entity mode, entity token *)
      intuition.
    + (* entity mode, common token *)
      intuition congruence.
    + (* the mode is entered here *)
      intuition congruence.
    + (* common mode, common token *)
      destruct (existsb is_ne words); intuition congruence.
Qed.

Lemma first_ne_none (words : list string) :
  first_ne words = None <-> existsb is_ne words = false.
Proof.
  induction words as [|w words IH]; cbn; [tauto|].
  destruct (is_ne w); cbn; [split; discriminate|].
  rewrite <- IH. destruct (first_ne words); cbn; split; congruence.
Qed.

Lemma first_ne_some (words : list string) :
  forall k, first_ne words = Some k ->
            existsb is_ne words = true
            /\ forall i w, nth_error words i = Some w -> is_ne w = true ->
                           (k <= i)%nat.
Proof.
  induction words as [|w words IH]; cbn [first_ne existsb]; intros k;
    [discriminate|].
  destruct (is_ne w) eqn:Hw; cbn [orb].
  - intros [= <-]. split; [reflexivity | intros; lia].
  - destruct (first_ne words) as [k'|]; [|discriminate]. intros [= <-].
    destruct (IH k' eq_refl) as [Hex Hmin]. split; [exact Hex|].
    intros [|i] w' Hn Hne; cbn in Hn.
    + injection Hn as <-. congruence.
    + apply Hmin in Hn; [lia | exact Hne].
Qed.



(** ** C6 on the names a sentence accepts *)

Lemma pool_ok_set (fs : fsview) (word : string)
      (d : list (string * list named)) :
  pool_ok d -> pool_ok (PyDict.set word (lookup_candidates fs word) d).
Proof.
  intros Hd k c n wl.
  destruct (String.eqb_spec word k) as [<-|Hne].
  - rewrite get_set_same. intros [= <-]. unfold lookup_candidates.
    rewrite in_map_iff. intros [name [[= <- <-] _]]. reflexivity.
  - rewrite get_set_other by assumption. apply Hd.
Qed.

Lemma collect_word_ok (fs : fsview) (stop_words : list string) (p : pools)
      (word : string) :
  pool_ok (doc_names p) /\ pool_ok (ne_doc_names p) ->
  pool_ok (doc_names (collect_word fs stop_words p word))
  /\ pool_ok (ne_doc_names (collect_word fs stop_words p word)).
Proof.
  intros [Hd Hn]. unfold collect_word.
  destruct (_ && _); [|now split].
  destruct (PyStr.first_islower word).
  - destruct (negb _); cbn [doc_names ne_doc_names]; [|now split].
    split; [now apply pool_ok_set | exact Hn].
  - destruct (negb _); cbn [doc_names ne_doc_names]; [|now split].
    split; [exact Hd | now apply pool_ok_set].
Qed.

Lemma pools_of_ok (fs : fsview) (sentence : string)
      (stop_words : list string) :
  pool_ok (doc_names (pools_of fs sentence stop_words))
  /\ pool_ok (ne_doc_names (pools_of fs sentence stop_words)).
Proof.
  unfold pools_of.
  assert (H : forall words p,
             pool_ok (doc_names p) /\ pool_ok (ne_doc_names p) ->
             pool_ok (doc_names
                        (fold_left (collect_word fs stop_words) words p))
             /\ pool_ok (ne_doc_names
                           (fold_left (collect_word fs stop_words) words p))).
  { induction words as [|w words IH]; intros p Hp; cbn [fold_left];
      [exact Hp|]. apply IH. now apply collect_word_ok. }
  apply H. split; intros k c n wl [=].
Qed.

Lemma In_firstn {A} (x : A) (n : nat) (l : list A) :
  In x (firstn n l) -> In x l.
Proof.
  intros H. rewrite <- (firstn_skipn n l). apply in_or_app. now left.
Qed.

Lemma In_skipn {A} (x : A) (n : nat) (l : list A) :
  In x (skipn n l) -> In x l.
Proof.
  intros H. rewrite <- (firstn_skipn n l). apply in_or_app. now right.
Qed.

(** An accepted pair is a document name with its own words, and these
    words are words of the sentence. *)
Lemma resolve_accepted (fs : fsview) (sentence : string)
      (stop_words : list string) (n : string) (wl : list string) :
  In (n, wl) (resolve fs sentence stop_words) ->
  wl = get_words n
  /\ forall t, In t wl -> In t (map PyStr.lower (sentence_words sentence)).
Proof.
  intros Hin.
  assert (Hacc : exists i word,
             In (n, wl)
                (accepted_at (pools_of fs sentence stop_words) word
                   (skipn i (map PyStr.lower (sentence_words sentence))))).
  { apply (resolve_loop_In (pools_of fs sentence stop_words) (n, wl)
             (sentence_words sentence)
             (map PyStr.lower (sentence_words sentence)) false []
             (length_map _ _)) in Hin.
    destruct Hin as [[[] _]|[i [w [_ [_ Hx]]]]]. now exists i, w. }
  destruct Hacc as [i [word Hx]]. unfold accepted_at in Hx.
  destruct (skipn i (map PyStr.lower (sentence_words sentence)))
    as [|lower_word rest] eqn:Hskip; [contradiction|].
  destruct (PyDict.get lower_word _) as [cands|] eqn:Hg; [|contradiction].
  apply get_valid_names_In in Hx as [Hc Hpre]. cbn [snd] in Hpre.
  destruct (pools_of_ok fs sentence stop_words) as [Hd Hn].
  split.
  - destruct (is_ne word); [apply (Hn _ _ _ _ Hg Hc) | apply (Hd _ _ _ _ Hg Hc)].
  - intros t Ht. rewrite <- Hpre in Ht. apply In_firstn in Ht.
    rewrite <- Hskip in Ht. now apply In_skipn in Ht.
Qed.

Lemma chars_of_chars (l : list ascii) : PyStr.chars (PyStr.of_chars l) = l.
Proof. apply list_ascii_of_string_of_list_ascii. Qed.

Lemma split_runs_fields (sep : ascii -> bool) (keep_empty : bool)
      (s : string) :
  forall (cur : list ascii) (in_sep : bool) (field : string),
    Forall (fun c => sep c = false) cur ->
    In field (PyStr.split_runs sep keep_empty cur in_sep s) ->
    Forall (fun c => sep c = false) (PyStr.chars field).
Proof.
  induction s as [|c s IH]; intros cur in_sep field Hcur;
    cbn [PyStr.split_runs].
  - assert (Hlast : In field [PyStr.of_chars (rev cur)] ->
                    Forall (fun c => sep c = false) (PyStr.chars field)).
    { intros [<-|[]]. rewrite chars_of_chars. now apply Forall_rev. }
    destruct (in_sep && negb keep_empty); [intros []|].
    destruct (negb keep_empty && _); [intros [] | exact Hlast].
  - assert (Hfield : Forall (fun c => sep c = false)
                            (PyStr.chars (PyStr.of_chars (rev cur)))).
    { rewrite chars_of_chars. now apply Forall_rev. }
    destruct (sep c) eqn:Hc.
    + destruct in_sep; [now apply IH|].
      destruct (negb keep_empty && _); [now apply IH|].
      intros [<-|Hin]; [exact Hfield | now apply (IH [] true)].
    + apply IH. now constructor.
Qed.

Lemma lower_chars (s : string) :
  PyStr.chars (PyStr.lower s) = map PyStr.char_lower (PyStr.chars s).
Proof.
  unfold PyStr.chars.
  induction s as [|c s IH]; cbn; [reflexivity | now rewrite IH].
Qed.

Lemma word_char_lower_not_space (c : ascii) :
  PyStr.char_isword c = true ->
  PyStr.char_isspace (PyStr.char_lower c) = false.
Proof.
  destruct c as [b0 b1 b2 b3 b4 b5 b6 b7].
  destruct b0, b1, b2, b3, b4, b5, b6, b7;
    vm_compute; intros H; first [reflexivity | discriminate H].
Qed.

Lemma sentence_words_wf (sentence : string) (t : string) :
  In t (map PyStr.lower (sentence_words sentence)) -> wf_token t = true.
Proof.
  rewrite in_map_iff. intros [w [<- Hw]]. unfold sentence_words in Hw.
  apply filter_In in Hw as [Hw Hne].
  apply (split_runs_fields _ _ _ [] false w (Forall_nil _)) in Hw.
  unfold wf_token. apply andb_true_iff. split.
  - now destruct w.
  - rewrite lower_chars. apply forallb_forall. intros c Hc.
    apply in_map_iff in Hc as [c0 [<- Hc0]].
    apply negb_true_iff, word_char_lower_not_space.
    pose proof (proj1 (Forall_forall _ _) Hw c0 Hc0) as H.
    now apply negb_false_iff in H.
Qed.

Lemma resolve_wf (fs : fsview) (sentence : string)
      (stop_words : list string) :
  wf_names (resolve fs sentence stop_words) = true.
Proof.
  unfold wf_names. apply forallb_forall. intros [n wl] Hin. cbn [snd].
  apply forallb_forall. intros t Ht. apply (sentence_words_wf sentence).
  now apply (proj2 (resolve_accepted _ _ _ _ _ Hin)).
Qed.

(** C6.  Of the names a sentence accepts, [search_sentence] returns
    those whose words, joined with spaces, are a substring of no other
    accepted sequence of words.  So a name whose words are a contiguous
    run of the words of another accepted name is discarded, and only
    maximal matches are kept; two names with the same words are kept or
    discarded together, neither absorbs the other.  Of the candidates
    [Soul] and [Soul_Food] only [Soul_Food] survives, in whichever order
    the set hands them out. *)
Theorem absorption_keeps_maximal (fs : fsview) (sentence : string)
        (stop_words : list string) :
  let accepted := resolve fs sentence stop_words in
  let kept := search_sentence fs sentence stop_words in
  (forall name, In name kept
                <-> exists wl, In (name, wl) accepted
                               /\ ~ absorbed accepted wl)
  /\ (forall name wl name' wl',
         In (name, wl) accepted -> In (name', wl') accepted ->
         wl' <> wl -> token_run wl wl' -> ~ In name kept)
  /\ (forall name1 name2 wl,
         In (name1, wl) accepted -> In (name2, wl) accepted ->
         (In name1 kept <-> In name2 kept)
         /\ (~ absorbed accepted wl -> In name1 kept /\ In name2 kept))
  /\ absorb_doc_names [("Soul", ["soul"]); ("Soul_Food", ["soul"; "food"])]
     = ["Soul_Food"]
  /\ absorb_doc_names [("Soul_Food", ["soul"; "food"]); ("Soul", ["soul"])]
     = ["Soul_Food"]
  /\ search_sentence (view_of example_disk) "Soul Food" [] = ["Soul_Food"].
Proof.
  cbn zeta. unfold search_sentence.
  pose proof (absorb_doc_names_spec (resolve fs sentence stop_words)) as Hspec.
  pose proof (resolve_wf fs sentence stop_words) as Hwf.
  assert (Hfun : forall name wl wl2,
             In (name, wl) (resolve fs sentence stop_words) ->
             In (name, wl2) (resolve fs sentence stop_words) -> wl2 = wl).
  { intros name wl wl2 H1 H2.
    apply resolve_accepted in H1 as [-> _].
    now apply resolve_accepted in H2 as [-> _]. }
  split; [|split; [|split]].
  - intros name. now apply Hspec.
  - intros name wl name' wl' Hin Hin' Hne Hrun Hkept.
    apply Hspec in Hkept as [wl2 [Hin2 Hnot]]; [|exact Hwf].
    rewrite (Hfun _ _ _ Hin Hin2) in Hnot. apply Hnot.
    exists name', wl'. repeat split; auto. now apply token_run_contains.
  - intros name1 name2 wl H1 H2. split.
    + rewrite !Hspec by exact Hwf. split.
      * intros [wl2 [Hin Hnot]]. rewrite (Hfun _ _ _ H1 Hin) in Hnot.
        now exists wl.
      * intros [wl2 [Hin Hnot]]. rewrite (Hfun _ _ _ H2 Hin) in Hnot.
        now exists wl.
    + intros Hnot. rewrite !Hspec by exact Hwf. split; now exists wl.
  - vm_compute. repeat split; reflexivity.
Qed.

Lemma example_accepts_soul :
  In ("Soul", ["soul"]) (resolve (view_of example_disk) "Soul Food" []).
Proof. vm_compute. left. reflexivity. Qed.

Lemma example_accepts_soul_food :
  In ("Soul_Food", ["soul"; "food"])
     (resolve (view_of example_disk) "Soul Food" []).
Proof. vm_compute. right. left. reflexivity. Qed.

Lemma absorption_keeps_maximal_witness :
  In ("Soul", ["soul"]) (resolve (view_of example_disk) "Soul Food" [])
  /\ In ("Soul_Food", ["soul"; "food"])
        (resolve (view_of example_disk) "Soul Food" [])
  /\ token_run ["soul"] ["soul"; "food"]
  /\ ~ In "Soul" (search_sentence (view_of example_disk) "Soul Food" []).
Proof.
  split; [exact example_accepts_soul|].
  split; [exact example_accepts_soul_food|].
  split; [exists [], ["food"]; reflexivity|].
  refine (proj1 (proj2 (absorption_keeps_maximal (view_of example_disk)
                                                 "Soul Food" []))
                "Soul" ["soul"] "Soul_Food" ["soul"; "food"]
                example_accepts_soul example_accepts_soul_food _ _).
  - discriminate.
  - exists [], ["food"]. reflexivity.
Defined.

(** ** C1 and C9: what a build leaves on the disk *)

Lemma stateless_ret {A} (a : A) : stateless (ret a).
Proof. intros w; reflexivity. Qed.

Lemma stateless_raise {A} (e : exn) : stateless (@raise A e).
Proof. intros w; reflexivity. Qed.

Lemma stateless_lift {A} (r : outcome A) : stateless (lift r).
Proof. intros w; reflexivity. Qed.

Lemma stateless_bind {A B} (m : M A) (f : A -> M B) :
  stateless m -> (forall a, stateless (f a)) -> stateless (bind m f).
Proof.
  intros Hm Hf w. unfold bind. specialize (Hm w).
  destruct (m w) as [w' [a|e]]; cbn [fst] in *; subst w'; [apply Hf|].
  reflexivity.
Qed.

Lemma stateless_for_each {A} (l : list A) (body : A -> M unit) :
  (forall a, stateless (body a)) -> stateless (for_each l body).
Proof.
  intros Hb; induction l as [|x l IH]; cbn [for_each].
  - apply stateless_ret.
  - apply stateless_bind; [apply Hb | intros _; exact IH].
Qed.

Lemma stateless_fold_M {A B} (body : A -> B -> M A) (l : list B) :
  (forall a x, stateless (body a x)) -> forall a, stateless (fold_M body l a).
Proof.
  intros Hb; induction l as [|x l IH]; intros a; cbn [fold_M].
  - apply stateless_ret.
  - apply stateless_bind; [apply Hb | exact IH].
Qed.

Lemma stateless_add_doc_name_word (platform doc_name word : string)
      (tree : pydict) (start_index : Z) :
  stateless (add_doc_name_word platform doc_name word tree start_index).
Proof.
  intros w. now rewrite add_doc_name_word_raises.
Qed.

Lemma stateless_add_doc_content (platform doc_name : string)
      (doc_content : list (Z * string)) (tree : pydict) (start_index : Z) :
  stateless (add_doc_content platform doc_name doc_content tree start_index).
Proof.
  intros w. now rewrite add_doc_content_raises.
Qed.

Lemma stateless_add_doc_name (platform doc_name : string) (tree : pydict) :
  stateless (add_doc_name platform doc_name tree).
Proof.
  unfold add_doc_name. apply stateless_for_each. intros word.
  apply stateless_bind; [apply stateless_add_doc_name_word|].
  intros _. apply stateless_ret.
Qed.

Lemma stateless_read_file (path : string) : stateless (read_file path).
Proof.
  intros w. unfold read_file.
  now destruct (PyDict.get path (w_fs w)) as [[|c]|].
Qed.

Lemma stateless_insert_current (platform : string) (first_round : bool)
      (index_dict doc_dict : pydict) (st : scan_state) :
  stateless (if first_round
             then add_doc_name platform (current_doc st) index_dict
             else (add_doc_content platform (current_doc st)
                     (current_sents st) doc_dict 0 ;;; ret tt)).
Proof.
  destruct first_round; [apply stateless_add_doc_name|].
  apply stateless_bind; [apply stateless_add_doc_content|].
  intros _. apply stateless_ret.
Qed.

Lemma stateless_process_line (platform : string) (first_round : bool)
      (index_dict doc_dict : pydict) (st : scan_state) (line : string) :
  stateless (process_line platform first_round index_dict doc_dict st line).
Proof.
  unfold process_line. apply stateless_bind.
  - destruct (negb _); [|apply stateless_ret].
    apply stateless_bind; [|intros _; apply stateless_ret].
    destruct (PyStr.nonempty _); [|apply stateless_ret].
    apply stateless_insert_current.
  - intros st'. destruct (negb first_round); [|apply stateless_ret].
    apply stateless_bind; [apply stateless_lift|].
    intros s. destruct (PyStr.isdigit s); apply stateless_ret.
Qed.

Lemma stateless_read_round (platform : string) (first_round : bool)
      (index_dict doc_dict : pydict) (st : scan_state) :
  stateless (read_round platform first_round index_dict doc_dict st).
Proof.
  unfold read_round. apply stateless_bind.
  - apply stateless_fold_M. intros st' file_index.
    apply stateless_bind; [apply stateless_read_file|].
    intros lines. apply stateless_fold_M. intros st'' line.
    apply stateless_process_line.
  - intros st'. apply stateless_bind; [apply stateless_insert_current|].
    intros _. apply stateless_ret.
Qed.

(** The second round always ends in an exception: at the latest, its
    last insert raises. *)
Lemma second_round_raises (platform : string) (index_dict doc_dict : pydict)
      (st : scan_state) (w : world) :
  exists e, snd (read_round platform false index_dict doc_dict st w)
            = Raise e.
Proof.
  unfold read_round.
  set (files := fold_M _ file_indices st).
  pose proof (stateless_fold_M
                (fun st file_index =>
                   lines <- read_file (get_input_pathname platform file_index) ;;
                   fold_M (process_line platform false index_dict doc_dict)
                          lines st)
                file_indices) as Hfiles.
  unfold bind at 1. destruct (files w) as [w1 [st1|e]]; [|now exists e].
  unfold bind at 1. unfold bind at 1.
  rewrite add_doc_content_raises.
  cbn. eauto.
Qed.

Lemma index_documents_try_raises (platform : string) (w : world) :
  exists e w',
    index_documents_try platform w = (w', Raise e)
    /\ w_glob w' = w_glob w
    /\ (w_fs w' = w_fs w \/ w_fs w' = PyDict.set INDEX_FOLDER FDir (w_fs w)).
Proof.
  unfold index_documents_try.
  pose proof (stateless_read_round platform true [] []
                (mkScan EmptyString []) w) as H1.
  unfold bind at 1.
  destruct (read_round platform true [] [] (mkScan EmptyString []) w)
    as [w1 [st1|e]]; cbn [fst] in H1; subst w1;
    [|exists e, w; auto].
  unfold bind at 1. unfold os_mkdir at 1.
  destruct (PyDict.mem INDEX_FOLDER (w_fs w));
    [eexists; exists w; auto|].
  destruct (negb (parent_exists platform (w_fs w) INDEX_FOLDER));
    [eexists; exists w; auto|].
  unfold bind at 1. cbn [build_indices build_indices_node ret].
  set (w2 := mkWorld (PyDict.set INDEX_FOLDER FDir (w_fs w)) (w_glob w)).
  pose proof (stateless_read_round platform false [] [] st1 w2) as H2.
  destruct (second_round_raises platform [] [] st1 w2) as [e He].
  unfold bind at 1.
  destruct (read_round platform false [] [] st1 w2) as [w3 [st2|e2]];
    cbn [fst snd] in *; subst w3; [discriminate|].
  exists e2, w2. cbn. auto.
Qed.

(** Whatever the input files hold, [index_documents] ends in an
    exception; it changes no counter, and on the disk it creates at most
    the empty folder of the name index. *)
Lemma index_documents_never_completes (platform : string) (w : world) :
  exists e,
    snd (index_documents platform w) = Some e
    /\ w_glob (fst (index_documents platform w)) = w_glob w
    /\ (w_fs (fst (index_documents platform w)) = w_fs w
        \/ w_fs (fst (index_documents platform w))
           = PyDict.set INDEX_FOLDER FDir (w_fs w)).
Proof.
  unfold index_documents.
  destruct (index_documents_try_raises platform w) as [e [w' [-> [Hg Hfs]]]].
  exists e. cbn. auto.
Qed.

(** C1 on the corpus of the documents [Soul] and [Soul_Food], on
    Windows, where the builder and the reader spell paths alike: the
    build stops at the first insert with [NameError] and leaves the disk
    as it was, so the lookup of the indexed word "soul" finds nothing,
    where the round trip asks for the names [Soul] and [Soul_Food], and
    the lookup of the document [Soul] finds no sentence. *)
Theorem build_indexes_nothing :
  index_documents "win32" (corpus_world "win32")
  = (corpus_world "win32", Some (NameError "index_node"))
  /\ search_word
       (view_of (w_fs (fst (index_documents "win32"
                                            (corpus_world "win32")))))
       "soul" = []
  /\ get_doc_content
       (view_of (w_fs (fst (index_documents "win32"
                                            (corpus_world "win32")))))
       "Soul" = Ok [].
Proof. vm_compute. repeat split; reflexivity. Qed.

(** C9 on the same corpus: after the build, [get_doc_content] returns
    no sentence of the document [Soul], on either platform.  Past the
    inserts the retrieval still fails.  The flush of the tree the
    inserts were meant to build stops with [ZeroDivisionError] after the
    first document, so the second is not found.  And for a document
    whose sentence 1 has an empty text, the flush writes the three
    sentences in ascending order, but the reader strips the line of
    sentence 1, finds no space in it and ends the scan: only sentence 0
    is returned. *)
Theorem content_is_not_retrieved :
  get_doc_content
    (view_of (w_fs (fst (index_documents "linux" (corpus_world "linux")))))
    "Soul" = Ok []
  /\ get_doc_content
       (view_of (w_fs (fst (index_documents "win32"
                                            (corpus_world "win32")))))
       "Soul" = Ok []
  /\ snd ((os_mkdir "win32" DOC_FOLDER ;;;
           build_docs "win32" doc_tree_example DOC_FOLDER)
            (mkWorld [] initial_counters))
     = Raise ZeroDivisionError
  /\ get_doc_content
       (view_of (w_fs (after_build_docs "win32" initial_counters
                                        doc_tree_example)))
       "Soul_Food" = Ok []
  /\ file_text (w_fs (after_build_docs "win32" initial_counters gap_tree))
               "indexed-docs\0.txt"
     = Some ("Soul" ++ LF ++ "0 a" ++ LF ++ "1 " ++ LF ++ "2 c" ++ LF)
  /\ get_doc_content
       (view_of (w_fs (after_build_docs "win32" initial_counters gap_tree)))
       "Soul" = Ok [(0%Z, "a")].
Proof. vm_compute. repeat split; reflexivity. Qed.

(* ===================================================================== *)
(** * Further properties of the code *)
(* ===================================================================== *)

(** ** [transform_brackets] *)

Lemma prefix_empty (s : string) : prefix EmptyString s = true.
Proof. now destruct s. Qed.

Lemma contains_tail (p : string) (c : ascii) (s : string) :
  PyStr.contains p s = true -> PyStr.contains p (String c s) = true.
Proof.
  intros H. cbn [PyStr.contains]. rewrite H. apply orb_true_r.
Qed.

Lemma contains_drop (p : string) (n : nat) :
  forall s, PyStr.contains p (PyStr.drop n s) = true ->
            PyStr.contains p s = true.
Proof.
  induction n as [|n IH]; intros [|c s] H; cbn [PyStr.drop] in H; auto.
  apply contains_tail. now apply IH.
Qed.

Lemma drop_length (n : nat) :
  forall s, (String.length (PyStr.drop n s) <= String.length s - n)%nat.
Proof.
  induction n as [|n IH]; intros [|c s]; cbn [PyStr.drop String.length];
    try lia.
  apply IH.
Qed.

(** A prefix of the replaced text that is free of the new character is
    a prefix of the original text. *)
Lemma replace_fuel_prefix (old : string) (c : ascii) (p : string) :
  ~ In c (PyStr.chars p) ->
  forall (n : nat) (s : string),
    prefix p (PyStr.replace_fuel n old (String c EmptyString) s) = true ->
    prefix p s = true.
Proof.
  induction p as [|a p IH]; intros Hc n s H; [apply prefix_empty|].
  destruct n as [|n]; [exact H|].
  destruct s as [|s0 s]; [exact H|].
  cbn [PyStr.replace_fuel] in H.
  destruct (prefix old (String s0 s)).
  - cbn in H. destruct (ascii_dec a c) as [->|]; [|discriminate].
    exfalso. apply Hc. now left.
  - cbn [prefix] in *. destruct (ascii_dec a s0); [|discriminate].
    apply (IH (fun Hin => Hc (or_intror Hin)) n s H).
Qed.

Lemma replace_fuel_contains (old : string) (c : ascii) (p : string) :
  ~ In c (PyStr.chars p) ->
  forall (n : nat) (s : string),
    PyStr.contains p (PyStr.replace_fuel n old (String c EmptyString) s)
    = true ->
    PyStr.contains p s = true.
Proof.
  intros Hc. induction n as [|n IH]; intros s H; [exact H|].
  destruct s as [|s0 s]; [exact H|].
  pose proof (replace_fuel_prefix old c p Hc (S n) (String s0 s)) as Hp.
  cbn [PyStr.replace_fuel] in H, Hp.
  destruct (prefix old (String s0 s)).
  - change (String c EmptyString ++ ?x) with (String c x) in H, Hp.
    cbn [PyStr.contains] in H. apply orb_true_iff in H as [H|H].
    + cbn [PyStr.contains]. now rewrite (Hp H).
    + apply IH in H. now apply contains_drop in H.
  - cbn [PyStr.contains] in H. apply orb_true_iff in H as [H|H].
    + cbn [PyStr.contains]. now rewrite (Hp H).
    + apply contains_tail. now apply IH.
Qed.

(** After the replacement by a character that [old] does not hold, no
    occurrence of [old] is left. *)
Lemma replace_fuel_removes (old : string) (c : ascii) :
  old <> EmptyString -> ~ In c (PyStr.chars old) ->
  forall (n : nat) (s : string),
    (String.length s <= n)%nat ->
    PyStr.contains old (PyStr.replace_fuel n old (String c EmptyString) s)
    = false.
Proof.
  intros Hne Hc.
  assert (Hnil : PyStr.contains old EmptyString = false).
  { destruct old; [contradiction | reflexivity]. }
  induction n as [|n IH]; intros s Hlen.
  - destruct s; [exact Hnil | cbn in Hlen; lia].
  - destruct s as [|s0 s]; [exact Hnil|].
    pose proof (replace_fuel_prefix old c old Hc (S n) (String s0 s)) as Hp.
    cbn [PyStr.replace_fuel] in *.
    destruct (prefix old (String s0 s)) eqn:Hpre.
    + change (String c EmptyString ++ ?x) with (String c x) in *.
      cbn [PyStr.contains]. apply orb_false_iff. split.
      * destruct old as [|a old]; [contradiction|]. cbn [prefix].
        destruct (ascii_dec a c) as [->|]; [|reflexivity].
        exfalso. apply Hc. now left.
      * apply IH.
        pose proof (drop_length (String.length old) (String s0 s)) as Hd.
        destruct old; [contradiction|]. cbn [String.length] in *. lia.
    + cbn [PyStr.contains]. apply orb_false_iff. split.
      * destruct (prefix old (String s0 (PyStr.replace_fuel _ _ _ _)))
          eqn:Hq; [|reflexivity].
        specialize (Hp eq_refl). discriminate.
      * apply IH. cbn [String.length] in Hlen. lia.
Qed.

(** A text without occurrence of [old] is left as it is. *)
Lemma replace_fuel_absent (old new : string) :
  forall (n : nat) (s : string),
    PyStr.contains old s = false -> PyStr.replace_fuel n old new s = s.
Proof.
  induction n as [|n IH]; intros s H; [reflexivity|].
  destruct s as [|s0 s]; [reflexivity|].
  cbn [PyStr.contains] in H. apply orb_false_iff in H as [Hp Hc].
  cbn [PyStr.replace_fuel]. rewrite Hp. now rewrite IH.
Qed.

Lemma transform_brackets_tokens (target : string) :
  PyStr.contains "-LRB-" (transform_brackets target) = false
  /\ PyStr.contains "-RRB-" (transform_brackets target) = false.
Proof.
  unfold transform_brackets, PyStr.replace. split.
  - destruct (PyStr.contains "-LRB-" (PyStr.replace_fuel _ "-RRB-" ")" _))
      eqn:H; [|reflexivity].
    apply replace_fuel_contains in H.
    + rewrite replace_fuel_removes in H; [discriminate| discriminate | | lia].
      cbn. intuition discriminate.
    + cbn. intuition discriminate.
  - apply replace_fuel_removes; [discriminate | | lia].
    cbn. intuition discriminate.
Qed.

Lemma transform_brackets_absent (target : string) :
  PyStr.contains "-LRB-" target = false ->
  PyStr.contains "-RRB-" target = false ->
  transform_brackets target = target.
Proof.
  intros HL HR. unfold transform_brackets, PyStr.replace.
  rewrite (replace_fuel_absent "-LRB-" "(" _ target HL).
  now apply replace_fuel_absent.
Qed.

(** X1.  [transform_brackets] leaves neither bracket token in its result:
    no text it returns holds [-LRB-] or [-RRB-], also when the removal of
    one token brings the pieces of another together. *)
Theorem transform_brackets_removes_tokens (target : string) :
  PyStr.contains "-LRB-" (transform_brackets target) = false
  /\ PyStr.contains "-RRB-" (transform_brackets target) = false.
Proof. apply transform_brackets_tokens. Qed.

(** X2.  The texts that [transform_brackets] returns unchanged are exactly
    the texts that hold neither token; so applying it twice is the same
    as applying it once. *)
Theorem transform_brackets_fixed_points (target : string) :
  (transform_brackets target = target
   <-> PyStr.contains "-LRB-" target = false
       /\ PyStr.contains "-RRB-" target = false)
  /\ transform_brackets (transform_brackets target)
     = transform_brackets target.
Proof.
  split; [split|].
  - intros <-. apply transform_brackets_tokens.
  - intros [HL HR]. now apply transform_brackets_absent.
  - destruct (transform_brackets_tokens target) as [HL HR].
    now apply transform_brackets_absent.
Qed.
(** ** [sha1_hash] *)

Lemma hex_digit_is_hex (x : Z) :
  is_hex (SHA1.hex_digit (Z.land x 15)) = true.
Proof.
  assert (H : (0 <= Z.land x 15 < 16)%Z).
  { change 15%Z with (Z.ones 4). rewrite Z.land_ones by lia.
    apply Z.mod_pos_bound. reflexivity. }
  set (y := Z.land x 15) in *.
  assert (Hy : In y [0; 1; 2; 3; 4; 5; 6; 7; 8; 9; 10; 11; 12; 13; 14; 15]%Z).
  { cbn. lia. }
  cbn in Hy.
  repeat (destruct Hy as [<- | Hy]; [reflexivity|]). contradiction.
Qed.

Lemma hex8_is_hex (x : Z) (rest : string) :
  forallb is_hex (PyStr.chars rest) = true ->
  forallb is_hex (PyStr.chars (SHA1.hex8 x rest)) = true.
Proof.
  intros H. unfold SHA1.hex8. cbn [PyStr.chars list_ascii_of_string forallb].
  rewrite !hex_digit_is_hex. exact H.
Qed.

Lemma sha1_hash_hex (target : string) :
  forallb is_hex (PyStr.chars (sha1_hash target)) = true.
Proof.
  unfold sha1_hash, SHA1.hexdigest. repeat apply hex8_is_hex. reflexivity.
Qed.

Lemma get_forallb (p : ascii -> bool) (s : string) :
  forallb p (PyStr.chars s) = true ->
  forall (n : nat) (c : ascii), String.get n s = Some c -> p c = true.
Proof.
  induction s as [|a s IH]; intros H n c Hg; [discriminate|].
  cbn in H. apply andb_true_iff in H as [Ha Hs].
  destruct n; cbn in Hg; [now injection Hg as <- | now apply (IH Hs n)].
Qed.

(** X3.  [sha1_hash] returns 40 lowercase hexadecimal digits for every
    text; a subscript from -40 to 39 of the hash is one such digit and
    any other subscript is out of range.  On the test vectors of the
    standard the embedding returns the published digests. *)
Theorem sha1_hash_digits (target : string) :
  String.length (sha1_hash target) = 40%nat
  /\ forallb is_hex (PyStr.chars (sha1_hash target)) = true
  /\ (forall i : Z,
         if valid_subscript i
         then exists c, PyStr.index (sha1_hash target) i
                        = Some (String c EmptyString)
                        /\ is_hex c = true
         else PyStr.index (sha1_hash target) i = None)
  /\ sha1_hash EmptyString = "da39a3ee5e6b4b0d3255bfef95601890afd80709"
  /\ sha1_hash "abc" = "a9993e364706816aba3e25717850c26c9cd0d89d"
  /\ sha1_hash "abcdbcdecdefdefgefghfghighijhijkijkljklmklmnlmnomnopnopq"
     = "84983e441c3bd26ebaae4aa1f95129e5e54670f1".
Proof.
  split; [apply sha1_hash_length|].
  split; [apply sha1_hash_hex|].
  split; [|now vm_compute].
  intros i. unfold valid_subscript.
  destruct (andb _ _) eqn:Hv.
  - apply andb_true_iff in Hv as [H1 H2].
    apply Z.leb_le in H1. apply Z.ltb_lt in H2.
    destruct (index_valid (sha1_hash target) i) as [c Hc].
    { rewrite sha1_hash_length. lia. }
    exists c. split; [exact Hc|].
    unfold PyStr.index in Hc.
    destruct (_ <? 0)%Z; [discriminate|].
    destruct (String.get _ _) as [c'|] eqn:Hg; [|discriminate].
    injection Hc as ->.
    exact (get_forallb is_hex _ (sha1_hash_hex target) _ _ Hg).
  - apply index_invalid. rewrite sha1_hash_length.
    apply andb_false_iff in Hv as [H|H];
      [apply Z.leb_gt in H | apply Z.ltb_ge in H]; lia.
Qed.
(** ** Decimal numbers: [str] and [int] *)

Lemma decimal_digit (n : N) :
  (n < 10)%N ->
  PyStr.char_isdigit (ascii_of_N (48 + n)) = true
  /\ PyStr.digit_val (ascii_of_N (48 + n)) = Z.of_N n.
Proof.
  intros H.
  assert (Hn : In n [0; 1; 2; 3; 4; 5; 6; 7; 8; 9]%N) by (cbn; lia).
  cbn in Hn.
  repeat (destruct Hn as [<- | Hn]; [now split|]). contradiction.
Qed.

Lemma digits_fuel_value (fuel : nat) :
  forall (n : N) (acc : string),
    (n < 2 ^ N.of_nat fuel)%N ->
    fold_left (fun a c => 10 * a + PyStr.digit_val c)%Z
              (PyStr.chars (PyStr.digits_fuel fuel n acc)) 0%Z
    = fold_left (fun a c => 10 * a + PyStr.digit_val c)%Z
                (PyStr.chars acc) (Z.of_N n).
Proof.
  induction fuel as [|fuel IH]; intros n acc Hn.
  - cbn in Hn. assert (n = 0%N) as -> by lia. reflexivity.
  - cbn [PyStr.digits_fuel].
    assert (Hm : (N.modulo n 10 < 10)%N) by (apply N.mod_lt; discriminate).
    destruct (decimal_digit _ Hm) as [_ Hv].
    destruct (N.ltb_spec n 10) as [Hlt|Hge].
    + cbn [PyStr.chars list_ascii_of_string fold_left].
      fold (PyStr.chars acc). rewrite Hv, N.mod_small by exact Hlt.
      f_equal.
    + rewrite IH.
      * cbn [PyStr.chars list_ascii_of_string fold_left].
        fold (PyStr.chars acc). rewrite Hv. f_equal.
        rewrite (N.div_mod n 10) at 3 by discriminate. lia.
      * apply N.Div0.div_lt_upper_bound.
        assert (N.of_nat (S fuel) = N.succ (N.of_nat fuel)) as Hs by lia.
        rewrite Hs, N.pow_succ_r' in Hn. lia.
Qed.

Lemma digits_fuel_digits (fuel : nat) :
  forall (n : N) (acc : string),
    forallb PyStr.char_isdigit (PyStr.chars acc) = true ->
    forallb PyStr.char_isdigit (PyStr.chars (PyStr.digits_fuel fuel n acc))
    = true.
Proof.
  induction fuel as [|fuel IH]; intros n acc Hacc; [exact Hacc|].
  cbn [PyStr.digits_fuel].
  assert (Hm : (N.modulo n 10 < 10)%N) by (apply N.mod_lt; discriminate).
  destruct (decimal_digit _ Hm) as [Hd _].
  assert (Hacc' : forallb PyStr.char_isdigit
                    (PyStr.chars (String (ascii_of_N (48 + N.modulo n 10))
                                         acc)) = true).
  { cbn [PyStr.chars list_ascii_of_string forallb]. now rewrite Hd. }
  destruct (n <? 10)%N; [exact Hacc' | now apply IH].
Qed.

Lemma digits_fuel_nonempty (fuel : nat) :
  forall (n : N) (acc : string),
    (fuel <> 0%nat \/ acc <> EmptyString) ->
    PyStr.digits_fuel fuel n acc <> EmptyString.
Proof.
  induction fuel as [|fuel IH]; intros n acc H.
  - destruct H as [H|H]; [contradiction | exact H].
  - cbn [PyStr.digits_fuel]. destruct (n <? 10)%N; [discriminate|].
    apply IH. right. discriminate.
Qed.

Lemma str_of_N_value (n : N) :
  PyStr.Z_of_digits (PyStr.str_of_N n) = Z.of_N n
  /\ forallb PyStr.char_isdigit (PyStr.chars (PyStr.str_of_N n)) = true
  /\ PyStr.str_of_N n <> EmptyString.
Proof.
  unfold PyStr.Z_of_digits, PyStr.str_of_N. split; [|split].
  - rewrite digits_fuel_value; [reflexivity|].
    assert (N.of_nat (S (N.to_nat (N.log2 n))) = N.succ (N.log2 n)) as ->
      by lia.
    destruct n as [|p]; [reflexivity|].
    apply N.log2_spec. reflexivity.
  - now apply digits_fuel_digits.
  - apply digits_fuel_nonempty. now left.
Qed.

Lemma int_digits_all (l : list ascii) :
  forallb PyStr.char_isdigit l = true ->
  forall (b : bool) (a : Z),
    (l <> [] \/ b = true) ->
    int_digits b a l
    = Some (fold_left (fun a c => 10 * a + PyStr.digit_val c)%Z l a).
Proof.
  induction l as [|c l IH]; intros Hl b a Hb.
  - destruct Hb as [Hb | ->]; [contradiction | reflexivity].
  - cbn in Hl. apply andb_true_iff in Hl as [Hc Hl].
    cbn [int_digits fold_left]. rewrite Hc. apply IH; auto.
Qed.

Lemma lstrip_by_head (p : ascii -> bool) (c : ascii) (s : string) :
  p c = false -> PyStr.lstrip_by p (String c s) = String c s.
Proof. intros H. cbn. now rewrite H. Qed.

Lemma rstrip_by_none (p : ascii -> bool) (s : string) :
  forallb (fun c => negb (p c)) (PyStr.chars s) = true ->
  PyStr.rstrip_by p s = s.
Proof.
  induction s as [|c s IH]; intros H; [reflexivity|].
  cbn in H. apply andb_true_iff in H as [Hc Hs].
  cbn [PyStr.rstrip_by]. rewrite (IH Hs).
  destruct s; [|reflexivity].
  apply negb_true_iff in Hc. now rewrite Hc.
Qed.

Lemma digit_not_int_space (c : ascii) :
  PyStr.char_isdigit c = true ->
  int_space c = false /\ Ascii.eqb c "-" = false /\ Ascii.eqb c "+" = false
  /\ PyStr.char_isspace c = false.
Proof.
  unfold PyStr.char_isdigit, int_space, PyStr.char_isspace, PyStr.code.
  intros H. apply andb_true_iff in H as [H1 H2].
  apply Nat.leb_le in H1. apply Nat.leb_le in H2.
  repeat split.
  - apply orb_false_iff. split.
    + apply andb_false_iff. right. apply Nat.leb_gt. lia.
    + apply Nat.eqb_neq. lia.
  - apply Ascii.eqb_neq. intros ->. cbn in *. lia.
  - apply Ascii.eqb_neq. intros ->. cbn in *. lia.
  - apply orb_false_iff. split; apply andb_false_iff.
    + right. apply Nat.leb_gt. lia.
    + right. apply Nat.leb_gt. lia.
Qed.

Lemma digits_no_int_space (l : list ascii) :
  forallb PyStr.char_isdigit l = true ->
  forallb (fun c => negb (int_space c)) l = true.
Proof.
  induction l as [|c l IH]; intros H; [reflexivity|].
  cbn in *. apply andb_true_iff in H as [Hc Hl].
  destruct (digit_not_int_space c Hc) as [-> _]. now apply IH.
Qed.

(** [int] on a string of digits, with or without a minus sign. *)
Lemma py_int_digits (s : string) :
  s <> EmptyString ->
  forallb PyStr.char_isdigit (PyStr.chars s) = true ->
  py_int s = Ok (PyStr.Z_of_digits s)
  /\ py_int ("-" ++ s) = Ok (- PyStr.Z_of_digits s)%Z.
Proof.
  intros Hne Hd.
  pose proof (digits_no_int_space _ Hd) as Hsp.
  destruct s as [|c s]; [contradiction|].
  assert (Hc : PyStr.char_isdigit c = true).
  { cbn in Hd. now apply andb_true_iff in Hd as [Hc _]. }
  destruct (digit_not_int_space c Hc) as [Hc1 [Hc2 [Hc3 _]]].
  unfold py_int, PyStr.strip_by. split.
  - rewrite lstrip_by_head by exact Hc1.
    rewrite rstrip_by_none by exact Hsp.
    cbn [PyStr.chars list_ascii_of_string]. rewrite Hc2, Hc3.
    fold (PyStr.chars s).
    change (c :: PyStr.chars s) with (PyStr.chars (String c s)).
    rewrite int_digits_all; [reflexivity | exact Hd | left; discriminate].
  - change ("-" ++ String c s) with (String "-" (String c s)).
    rewrite lstrip_by_head by reflexivity.
    rewrite rstrip_by_none by (cbn; exact Hsp).
    cbn [PyStr.chars list_ascii_of_string Ascii.eqb Bool.eqb].
    fold (PyStr.chars s).
    change (c :: PyStr.chars s) with (PyStr.chars (String c s)).
    rewrite int_digits_all; [reflexivity | exact Hd | left; discriminate].
Qed.

(** [int(str(z)) == z] *)
Lemma py_int_str_of_Z (z : Z) : py_int (PyStr.str_of_Z z) = Ok z.
Proof.
  destruct z as [|p|p]; [reflexivity| |].
  - destruct (str_of_N_value (Npos p)) as [Hv [Hd Hne]].
    cbn [PyStr.str_of_Z].
    destruct (py_int_digits _ Hne Hd) as [-> _]. now rewrite Hv.
  - destruct (str_of_N_value (Npos p)) as [Hv [Hd Hne]].
    cbn [PyStr.str_of_Z].
    destruct (py_int_digits _ Hne Hd) as [_ ->]. now rewrite Hv.
Qed.
(** ** [get_input_pathname] *)

Lemma Z_of_digits_zero (s : string) :
  PyStr.Z_of_digits (String "0" s) = PyStr.Z_of_digits s.
Proof. reflexivity. Qed.

Lemma py_int_format_03d (n : Z) : py_int (format_03d n) = Ok n.
Proof.
  destruct n as [|p|p]; [reflexivity| |].
  - destruct (str_of_N_value (Npos p)) as [Hv [Hd Hne]].
    unfold format_03d. cbn [Z.ltb Z.compare PyStr.str_of_Z].
    assert (H0 : forall s,
               s <> EmptyString ->
               forallb PyStr.char_isdigit (PyStr.chars s) = true ->
               PyStr.Z_of_digits s = Zpos p ->
               py_int s = Ok (Zpos p)).
    { intros s Hs1 Hs2 Hs3.
      destruct (py_int_digits s Hs1 Hs2) as [-> _]. now rewrite Hs3. }
    destruct (String.length (PyStr.str_of_N (N.pos p))) as [|[|[|k]]];
      apply H0; auto; try discriminate.
  - destruct (str_of_N_value (Npos p)) as [Hv [Hd Hne]].
    unfold format_03d. cbn [Z.ltb Z.compare PyStr.str_of_Z].
    change ("-" ++ PyStr.str_of_N (N.pos p))
      with (String "-" (PyStr.str_of_N (N.pos p))).
    cbn [String.length PyStr.drop].
    destruct (String.length (PyStr.str_of_N (N.pos p))) as [|[|k]].
    + destruct (py_int_digits _ Hne Hd) as [_ H].
      rewrite Hv in H. exact H.
    + change ("-0" ++ PyStr.str_of_N (N.pos p))
        with ("-" ++ String "0" (PyStr.str_of_N (N.pos p))).
      destruct (py_int_digits (String "0" (PyStr.str_of_N (N.pos p))))
        as [_ H]; [discriminate | exact Hd |].
      rewrite H, Z_of_digits_zero, Hv. reflexivity.
    + destruct (py_int_digits _ Hne Hd) as [_ H].
      rewrite Hv in H. exact H.
Qed.

Lemma append_inv_head (a x y : string) : a ++ x = a ++ y -> x = y.
Proof.
  induction a as [|c a IH]; cbn; intros H; [exact H|].
  injection H as H. now apply IH.
Qed.

Lemma append_inv_tail (a x y : string) : x ++ a = y ++ a -> x = y.
Proof.
  intros H. apply (f_equal PyStr.chars) in H. rewrite !chars_app in H.
  apply app_inv_tail in H.
  rewrite <- (of_chars_chars x), <- (of_chars_chars y). now rewrite H.
Qed.

(** X4.  [get_input_pathname] names a different file for every file
    number: two numbers that differ give two path names that differ, on
    every platform and for every integer, padded or not. *)
Theorem get_input_pathname_injective (platform : string) (i j : Z) :
  i <> j -> get_input_pathname platform i <> get_input_pathname platform j.
Proof.
  intros Hij H. apply Hij. unfold get_input_pathname in H.
  do 3 apply append_inv_head in H. apply append_inv_tail in H.
  pose proof (py_int_format_03d i) as Hi. rewrite H in Hi.
  rewrite py_int_format_03d in Hi. now injection Hi.
Qed.

Lemma get_input_pathname_injective_witness :
  1%Z <> 2%Z
  /\ get_input_pathname "win32" 1 <> get_input_pathname "win32" 2.
Proof.
  split; [discriminate|].
  apply (get_input_pathname_injective "win32" 1 2). discriminate.
Defined.
(** ** [expand_indices] and [expand_docs] *)

Lemma expand_step_route (start_index : Z) (seen result result' : pydict)
      (word : string) (name_set : pyval) :
  route_inv start_index seen result ->
  word <> SAFE_STRING ->
  ~ In word (PyDict.keys seen) -> ~ In SAFE_STRING (PyDict.keys seen) ->
  expand_step start_index result (word, name_set) = Ok result' ->
  route_inv start_index ((word, name_set) :: seen) result'.
Proof.
  intros [Hin Hout] Hw Hfresh Hsafe. unfold expand_step.
  destruct (PyStr.index (sha1_hash word) start_index) as [hash_digit|] eqn:Hd;
    [|discriminate].
  cbn [of_option outcome_bind].
  set (result0 :=
         if negb (PyDict.mem hash_digit result)
         then PyDict.set hash_digit (VDict [(SAFE_STRING, VInt 0)]) result
         else result).
  assert (H0 : forall digit, digit <> hash_digit ->
                 PyDict.get digit result0 = PyDict.get digit result).
  { intros digit Hne. unfold result0.
    destruct (negb _); [|reflexivity].
    apply get_set_other. congruence. }
  assert (Hc0 : forall child,
             PyDict.get hash_digit result0 = Some (VDict child) ->
             forall k p, k <> SAFE_STRING -> PyDict.get k child = Some p ->
                         PyDict.get hash_digit result = Some (VDict child)).
  { unfold result0, PyDict.mem.
    destruct (PyDict.get hash_digit result) eqn:Hg; cbn [negb];
      [intros; congruence|].
    rewrite get_set_same. intros child [= <-] k p Hk Hp.
    cbn [PyDict.get key_eqb KeyEq_string] in Hp.
    destruct (String.eqb_spec SAFE_STRING k); [congruence | discriminate]. }
  unfold getitem at 1.
  destruct (PyDict.get hash_digit result0) as [[| | | |child|]|] eqn:Hchild;
    try discriminate.
  cbn [of_option outcome_bind as_dict].
  destruct (py_len name_set) as [n|]; [|discriminate].
  cbn [outcome_bind]. unfold getitem.
  destruct (PyDict.get SAFE_STRING _) as [[total| | | | |]|]; try discriminate.
  cbn [of_option outcome_bind as_int]. intros [= <-].
  split.
  - intros k p [[= <- <-]|Hk].
    + exists hash_digit. eexists. split; [exact Hd|].
      split; [apply get_set_same|].
      rewrite get_set_other by congruence. apply get_set_same.
    + destruct (Hin k p Hk) as [digit [c [Hi [Hg Hp]]]].
      assert (Hkw : k <> word).
      { intros ->. apply Hfresh. now apply (in_map fst) in Hk. }
      assert (Hks : k <> SAFE_STRING).
      { intros ->. apply Hsafe. now apply (in_map fst) in Hk. }
      exists digit.
      destruct (String.eqb_spec digit hash_digit) as [->|Hne].
      * eexists. split; [exact Hi|]. split; [apply get_set_same|].
        rewrite !get_set_other by congruence.
        assert (child = c) as ->; [|exact Hp].
        unfold result0, PyDict.mem in Hchild. rewrite Hg in Hchild.
        cbn [negb] in Hchild. congruence.
      * exists c. split; [exact Hi|]. split; [|exact Hp].
        rewrite get_set_other by congruence. now rewrite H0.
  - intros digit c k p Hg Hk Hp.
    destruct (String.eqb_spec digit hash_digit) as [->|Hne].
    + rewrite get_set_same in Hg. injection Hg as <-.
      rewrite get_set_other in Hp by congruence.
      destruct (String.eqb_spec k word) as [->|Hkw].
      * rewrite get_set_same in Hp. injection Hp as <-.
        split; [now left | exact Hd].
      * rewrite get_set_other in Hp by congruence.
        pose proof (Hc0 child eq_refl k p Hk Hp) as Hg.
        destruct (Hout _ _ _ _ Hg Hk Hp) as [Hi1 Hi2].
        split; [now right | exact Hi2].
    + rewrite get_set_other in Hg by congruence. rewrite H0 in Hg by exact Hne.
      destruct (Hout _ _ _ _ Hg Hk Hp) as [Hi1 Hi2].
      split; [now right | exact Hi2].
Qed.

Lemma expand_loop_route (start_index : Z) (items : pydict) :
  forall (seen result result' : pydict),
    route_inv start_index seen result ->
    NoDup (PyDict.keys (rev seen ++ items)%list) ->
    ~ In SAFE_STRING (PyDict.keys (rev seen ++ items)%list) ->
    expand_loop start_index items result = Ok result' ->
    route_inv start_index (rev items ++ seen)%list result'.
Proof.
  induction items as [|[word name_set] items IH];
    intros seen result result' Hinv Hnd Hsafe; cbn [expand_loop].
  - now intros [= <-].
  - destruct (expand_step start_index result (word, name_set))
      as [result1|] eqn:Hstep; [|discriminate].
    cbn [outcome_bind]. intros Hloop.
    cbn [rev]. rewrite <- app_assoc. cbn [app].
    unfold PyDict.keys in Hnd, Hsafe. rewrite map_app in Hnd, Hsafe.
    cbn [map fst] in Hnd, Hsafe.
    apply (IH ((word, name_set) :: seen) result1); auto.
    + apply (expand_step_route start_index seen result); auto.
      * intros ->. apply Hsafe. apply in_or_app. right. now left.
      * intros Hin. apply NoDup_remove_2 in Hnd. apply Hnd.
        apply in_or_app. left. unfold PyDict.keys in Hin.
        rewrite map_rev. now apply -> in_rev.
      * intros Hin. apply Hsafe. apply in_or_app. left.
        unfold PyDict.keys in Hin. rewrite map_rev. now apply -> in_rev.
    + cbn [rev]. unfold PyDict.keys. rewrite <- app_assoc, map_app.
      exact Hnd.
    + cbn [rev]. unfold PyDict.keys. rewrite <- app_assoc, map_app.
      exact Hsafe.
Qed.

Lemma expand_loop_routes (start_index : Z) (items children : pydict) :
  NoDup (PyDict.keys items) ->
  ~ In SAFE_STRING (PyDict.keys items) ->
  expand_loop start_index items [] = Ok children ->
  route_inv start_index items children.
Proof.
  intros Hnd Hsafe Hloop.
  pose proof (expand_loop_route start_index items [] [] children) as H.
  destruct H as [Hin Hout]; auto.
  - split; [intros ? ? [] | intros ? ? ? ? [=]].
  - split.
    + intros word payload Hi. apply Hin. rewrite app_nil_r. now apply -> in_rev.
    + intros digit child word payload Hg Hw Hp.
      destruct (Hout _ _ _ _ Hg Hw Hp) as [Hi Hd]. split; [|exact Hd].
      rewrite app_nil_r in Hi. now apply in_rev.
Qed.

Lemma expand_step_total (start_index : Z) (seen : list string)
      (result : pydict) (word hash_digit : string) (name_set : pyval) :
  expand_inv seen result ->
  word <> SAFE_STRING ->
  sized name_set = true ->
  PyStr.index (sha1_hash word) start_index = Some hash_digit ->
  exists result',
    expand_step start_index result (word, name_set) = Ok result'.
Proof.
  intros [Hkeys Hinv] Hw Hs Hd. unfold expand_step. rewrite Hd.
  cbn [of_option outcome_bind].
  pose proof (index_one_char _ _ _ Hd) as Hlen.
  assert (Hchild : exists c,
             PyDict.get hash_digit
               (if negb (PyDict.mem hash_digit result)
                then PyDict.set hash_digit (VDict [(SAFE_STRING, VInt 0)])
                                result
                else result) = Some (VDict c)
             /\ exists total, PyDict.get SAFE_STRING c = Some (VInt total)).
  { unfold PyDict.mem.
    destruct (PyDict.get hash_digit result) as [child|] eqn:Hg; cbn [negb].
    - destruct (Hinv _ _ Hg) as [c [-> [Ht _]]]. rewrite Hg. eauto.
    - rewrite get_set_same. eexists. split; [reflexivity|].
      exists 0%Z. reflexivity. }
  destruct Hchild as [c [Hc [total Ht]]].
  unfold getitem at 1. rewrite Hc. cbn [of_option outcome_bind as_dict].
  unfold sized in Hs. destruct (py_len name_set) as [n|]; [|discriminate].
  cbn [outcome_bind]. unfold getitem.
  rewrite get_set_other by congruence. rewrite Ht.
  cbn [of_option outcome_bind as_int]. eauto.
Qed.

Lemma expand_loop_total (start_index : Z) (items : pydict) :
  valid_subscript start_index = true ->
  forall (seen : list string) (result : pydict),
    expand_inv seen result ->
    NoDup (PyDict.keys items) ->
    ~ In SAFE_STRING (PyDict.keys items) ->
    (forall k, In k (PyDict.keys items) -> ~ In k seen) ->
    forallb (fun kv : string * pyval => sized (snd kv)) items = true ->
    exists result', expand_loop start_index items result = Ok result'.
Proof.
  intros Hv.
  induction items as [|[word name_set] items IH];
    intros seen result Hinv Hnd Hsafe Hfresh Hsized; cbn [expand_loop].
  - eauto.
  - cbn [forallb snd] in Hsized. apply andb_true_iff in Hsized as [Hs Hsized].
    cbn [PyDict.keys map fst] in *.
    inversion Hnd as [|? ? Hnotin Hnd']; subst.
    assert (Hw : word <> SAFE_STRING) by (intros ->; apply Hsafe; now left).
    destruct (index_valid (sha1_hash word) start_index) as [c Hc].
    { rewrite sha1_hash_length. unfold valid_subscript in Hv.
      apply andb_true_iff in Hv as [H1 H2].
      apply Z.leb_le in H1. apply Z.ltb_lt in H2. lia. }
    destruct (expand_step_total start_index seen result word _ name_set
                Hinv Hw Hs Hc) as [result1 Hstep].
    rewrite Hstep. cbn [outcome_bind].
    apply (IH (word :: seen) result1).
    + apply (expand_step_inv start_index seen result result1 word name_set);
        auto.
      apply Hfresh. now left.
    + exact Hnd'.
    + intros Hin. apply Hsafe. now right.
    + intros k Hk [<-|Hin]; [contradiction|].
      apply (Hfresh k); [now right | exact Hin].
    + exact Hsized.
Qed.

(** X5.  A split loses nothing and routes by the hash.  On a leaf whose
    keys are distinct and whose payloads have a length, at a subscript
    the hash accepts, [expand_indices] and [expand_docs] return the same
    node of children; every key of the leaf is found there, with its
    payload, in the child named by the digit of its hash at
    [start_index]; and the children hold no other key than these and
    their running totals. *)
Theorem expand_routes_every_entry (items : pydict) (start_index : Z) :
  NoDup (PyDict.keys items) ->
  ~ In SAFE_STRING (PyDict.keys items) ->
  forallb (fun kv : string * pyval => sized (snd kv)) items = true ->
  valid_subscript start_index = true ->
  exists children : pydict,
    expand_indices items start_index = Ok children
    /\ expand_docs items start_index = Ok children
    /\ (forall word payload,
           In (word, payload) items ->
           routed start_index children word payload)
    /\ (forall digit child word payload,
           PyDict.get digit children = Some (VDict child) ->
           word <> SAFE_STRING ->
           PyDict.get word child = Some payload ->
           In (word, payload) items
           /\ PyStr.index (sha1_hash word) start_index = Some digit).
Proof.
  intros Hnd Hsafe Hsized Hv.
  destruct (expand_loop_total start_index items Hv [] []) as [children Hc];
    auto.
  { split; [constructor | intros digit child [=]]. }
  exists children. split; [exact Hc|]. split; [exact Hc|].
  exact (expand_loop_routes start_index items children Hnd Hsafe Hc).
Qed.

Lemma expand_routes_every_entry_witness :
  exists children : pydict,
    expand_indices [("soul", VSet ["Soul"; "Soul_Food"]);
                    ("food", VSet ["Soul_Food"])] 0 = Ok children
    /\ expand_docs [("soul", VSet ["Soul"; "Soul_Food"]);
                    ("food", VSet ["Soul_Food"])] 0 = Ok children
    /\ (forall word payload,
           In (word, payload) [("soul", VSet ["Soul"; "Soul_Food"]);
                               ("food", VSet ["Soul_Food"])] ->
           routed 0 children word payload)
    /\ (forall digit child word payload,
           PyDict.get digit children = Some (VDict child) ->
           word <> SAFE_STRING ->
           PyDict.get word child = Some payload ->
           In (word, payload) [("soul", VSet ["Soul"; "Soul_Food"]);
                               ("food", VSet ["Soul_Food"])]
           /\ PyStr.index (sha1_hash word) 0 = Some digit).
Proof.
  apply (expand_routes_every_entry
           [("soul", VSet ["Soul"; "Soul_Food"]);
            ("food", VSet ["Soul_Food"])] 0).
  - repeat constructor; cbn; intuition discriminate.
  - cbn. intuition discriminate.
  - reflexivity.
  - reflexivity.
Defined.

(** X6.  Past the digits of the hash a split raises.  For a subscript
    outside -40..39, [expand_indices] and [expand_docs] raise
    [IndexError] at the first key of the leaf; so a leaf at the fortieth
    level of a tree, which is split with [start_index + 1 = 40], cannot
    be split.  A leaf without keys is returned as an empty node for any
    subscript. *)
Theorem expand_out_of_range (item : string * pyval) (items : pydict)
        (start_index : Z) :
  valid_subscript start_index = false ->
  expand_indices (item :: items) start_index = Raise IndexError
  /\ expand_docs (item :: items) start_index = Raise IndexError
  /\ expand_indices [] start_index = Ok []
  /\ expand_docs [] start_index = Ok [].
Proof.
  intros Hv.
  assert (H : expand_loop start_index (item :: items) [] = Raise IndexError).
  { destruct item as [word name_set]. cbn [expand_loop]. unfold expand_step.
    now rewrite (hash_digit_invalid word start_index Hv). }
  repeat split; exact H.
Qed.

Lemma expand_out_of_range_witness :
  expand_indices (("soul", VSet ["Soul"]) :: []) 40 = Raise IndexError
  /\ expand_docs (("soul", VSet ["Soul"]) :: []) 40 = Raise IndexError
  /\ expand_indices [] 40 = Ok []
  /\ expand_docs [] 40 = Ok [].
Proof.
  apply (expand_out_of_range ("soul", VSet ["Soul"]) [] 40). reflexivity.
Defined.

(** ** The inserts at a leaf *)

Ltac break_match :=
  repeat match goal with
         | |- context [match ?x with _ => _ end] => destruct x
         end.

(** The state after the leaf branch of [add_doc_name_word], whatever its
    outcome: the disk is as before, and the word is counted when it is
    new. *)
Lemma add_name_at_leaf_state (doc_name word : string) (value : pydict)
      (start_index : Z) (w : world) :
  w_fs (fst (add_name_at_leaf doc_name word value start_index w)) = w_fs w
  /\ w_glob (fst (add_name_at_leaf doc_name word value start_index w))
     = if PyDict.mem word value then w_glob w else word_counted (w_glob w).
Proof.
  unfold add_name_at_leaf, PyDict.mem.
  destruct (PyDict.get word value) eqn:Hg; cbn [negb];
    unfold bind, lift, ret, incr_word_count; cbn [fst snd];
    break_match; split; reflexivity.
Qed.

Lemma add_content_at_leaf_state (doc_name : string)
      (doc_content : list (Z * string)) (value : pydict) (start_index : Z)
      (w : world) :
  w_fs (fst (add_content_at_leaf doc_name doc_content value start_index w))
  = w_fs w
  /\ w_glob (fst (add_content_at_leaf doc_name doc_content value
                                      start_index w))
     = doc_counted (w_glob w).
Proof.
  unfold add_content_at_leaf, bind, lift, ret, incr_doc_count; cbn [fst snd].
  break_match; split; reflexivity.
Qed.

Lemma get_del_safe (k : string) (d : pydict) :
  k <> SAFE_STRING ->
  PyDict.get k (PyDict.del SAFE_STRING d) = PyDict.get k d.
Proof. intros Hk. apply get_del_other. congruence. Qed.

(** X7.  An insert at a leaf of the name tree loses no entry.  When the
    call returns, the document name is among the names of the word; if
    the leaf is still a leaf, every other word has the payload it had;
    if the leaf was split, the word and every other word of the leaf are
    found, with these payloads, in the child that the next digit of their
    own hash names.  The disk is untouched and [word_count] grows by one
    exactly when the word is new to the leaf. *)
Theorem name_insert_then_lookup (doc_name word : string) (value : pydict)
        (start_index : Z) (w w' : world) (r : pyval) :
  NoDup (PyDict.keys value) ->
  add_name_at_leaf doc_name word value start_index w = (w', Ok r) ->
  let names' := PySet.add doc_name (names_of value word) in
  In doc_name names'
  /\ (exists node : pydict,
         r = VDict node
         /\ if is_leaf r
            then PyDict.get word node = Some (VSet names')
                 /\ forall k, k <> word -> k <> SAFE_STRING ->
                              PyDict.get k node = PyDict.get k value
            else routed (start_index + 1) node word (VSet names')
                 /\ forall k p, k <> word -> k <> SAFE_STRING ->
                                PyDict.get k value = Some p ->
                                routed (start_index + 1) node k p)
  /\ w_fs w' = w_fs w
  /\ w_glob w' = if PyDict.mem word value then w_glob w
                 else word_counted (w_glob w).
Proof.
  intros Hnd Hr. cbn zeta.
  split; [apply set_add_In; now left|].
  split.
  2:{ pose proof (add_name_at_leaf_state doc_name word value start_index w)
        as Hs. now rewrite Hr in Hs. }
  destruct (add_name_at_leaf_ok _ _ _ _ _ _ _ Hr) as [total [Ht [Hw Hcase]]].
  cbn zeta in Hcase.
  set (names' := PySet.add doc_name (names_of value word)) in *.
  set (base := if PyDict.mem word value then value
               else PyDict.set word (VSet []) value) in *.
  set (value' := PyDict.set SAFE_STRING (VInt (total + 1))
                   (PyDict.set word (VSet names') base)) in *.
  assert (Hword : PyDict.get word value' = Some (VSet names')).
  { unfold value'. rewrite get_set_other by congruence. apply get_set_same. }
  assert (Hother : forall k, k <> word -> k <> SAFE_STRING ->
                     PyDict.get k value' = PyDict.get k value).
  { intros k Hk1 Hk2. unfold value', base.
    rewrite !get_set_other by congruence.
    destruct (PyDict.mem word value); [reflexivity|].
    apply get_set_other. congruence. }
  destruct (andb _ _).
  - destruct Hcase as [children [Hexp ->]]. exists children.
    split; [reflexivity|].
    destruct (NoDup_leaf_after word word (VInt (total + 1)) (VSet names')
                (VSet []) (PyDict.mem word value) value Hnd) as [Hnd' Hs'].
    fold base value' in Hnd', Hs'.
    destruct (expand_recounts _ _ _ Hnd' Hs' Hexp) as [Hkeys _].
    cbn [is_leaf]. rewrite (one_char_not_safe _ Hkeys).
    destruct (expand_loop_routes _ _ _ Hnd' Hs' Hexp) as [Hin _].
    split.
    + apply Hin. apply get_In. now rewrite get_del_safe.
    + intros k p Hk1 Hk2 Hp. apply Hin. apply get_In.
      rewrite get_del_safe by exact Hk2. now rewrite Hother.
  - subst r. exists value'. split; [reflexivity|].
    cbn [is_leaf]. unfold PyDict.mem, value' at 1. rewrite get_set_same.
    split; assumption.
Qed.

Lemma name_insert_then_lookup_witness :
  let names' := PySet.add "Soul_Food"
                  (names_of [(SAFE_STRING, VInt 1); ("soul", VSet ["Soul"])]
                            "soul") in
  In "Soul_Food" names'
  /\ (exists node : pydict,
         VDict [(SAFE_STRING, VInt 2); ("soul", VSet ["Soul"; "Soul_Food"])]
         = VDict node
         /\ if is_leaf (VDict [(SAFE_STRING, VInt 2);
                               ("soul", VSet ["Soul"; "Soul_Food"])])
            then PyDict.get "soul" node = Some (VSet names')
                 /\ forall k, k <> "soul" -> k <> SAFE_STRING ->
                              PyDict.get k node
                              = PyDict.get k [(SAFE_STRING, VInt 1);
                                              ("soul", VSet ["Soul"])]
            else routed (0 + 1) node "soul" (VSet names')
                 /\ forall k p, k <> "soul" -> k <> SAFE_STRING ->
                                PyDict.get k [(SAFE_STRING, VInt 1);
                                              ("soul", VSet ["Soul"])]
                                = Some p ->
                                routed (0 + 1) node k p)
  /\ w_fs initial_world = w_fs initial_world
  /\ w_glob initial_world
     = if PyDict.mem "soul" [(SAFE_STRING, VInt 1); ("soul", VSet ["Soul"])]
       then w_glob initial_world
       else word_counted (w_glob initial_world).
Proof.
  apply (name_insert_then_lookup "Soul_Food" "soul"
           [(SAFE_STRING, VInt 1); ("soul", VSet ["Soul"])] 0
           initial_world initial_world).
  - repeat constructor; cbn; intuition discriminate.
  - reflexivity.
Defined.

(** X8.  An insert at a leaf of the content tree loses no entry.  When
    the call returns, the document has the sentences of this call, which
    replace the ones the leaf had for it; every other document keeps its
    sentences, in the leaf or, after a split, in the child that the next
    digit of its own hash names.  The disk is untouched and [doc_count]
    grows by one, also when the document was in the leaf before. *)
Theorem content_insert_then_lookup (doc_name : string)
        (doc_content : list (Z * string)) (value : pydict)
        (start_index : Z) (w w' : world) (r : pyval) :
  NoDup (PyDict.keys value) ->
  add_content_at_leaf doc_name doc_content value start_index w = (w', Ok r) ->
  (exists node : pydict,
      r = VDict node
      /\ if is_leaf r
         then PyDict.get doc_name node = Some (VSents doc_content)
              /\ forall k, k <> doc_name -> k <> SAFE_STRING ->
                           PyDict.get k node = PyDict.get k value
         else routed (start_index + 1) node doc_name (VSents doc_content)
              /\ forall k p, k <> doc_name -> k <> SAFE_STRING ->
                             PyDict.get k value = Some p ->
                             routed (start_index + 1) node k p)
  /\ w_fs w' = w_fs w
  /\ w_glob w' = doc_counted (w_glob w).
Proof.
  intros Hnd Hr.
  split.
  2:{ pose proof (add_content_at_leaf_state doc_name doc_content value
                    start_index w) as Hs. now rewrite Hr in Hs. }
  destruct (add_content_at_leaf_ok _ _ _ _ _ _ _ Hr)
    as [total [Ht [Hw Hcase]]].
  cbn zeta in Hcase.
  set (value' := PyDict.set SAFE_STRING
                   (VInt (total + (Z.of_nat (List.length doc_content) + 1)))
                   (PyDict.set doc_name (VSents doc_content) value)) in *.
  assert (Hword : PyDict.get doc_name value' = Some (VSents doc_content)).
  { unfold value'. rewrite get_set_other by congruence. apply get_set_same. }
  assert (Hother : forall k, k <> doc_name -> k <> SAFE_STRING ->
                     PyDict.get k value' = PyDict.get k value).
  { intros k Hk1 Hk2. unfold value'.
    now rewrite !get_set_other by congruence. }
  destruct (andb _ _).
  - destruct Hcase as [children [Hexp ->]]. exists children.
    split; [reflexivity|].
    destruct (NoDup_leaf_after doc_name doc_name
                (VInt (total + (Z.of_nat (List.length doc_content) + 1)))
                (VSents doc_content) (VSet []) true value Hnd)
      as [Hnd' Hs'].
    fold value' in Hnd', Hs'.
    destruct (expand_recounts _ _ _ Hnd' Hs' Hexp) as [Hkeys _].
    cbn [is_leaf]. rewrite (one_char_not_safe _ Hkeys).
    destruct (expand_loop_routes _ _ _ Hnd' Hs' Hexp) as [Hin _].
    split.
    + apply Hin. apply get_In. now rewrite get_del_safe.
    + intros k p Hk1 Hk2 Hp. apply Hin. apply get_In.
      rewrite get_del_safe by exact Hk2. now rewrite Hother.
  - subst r. exists value'. split; [reflexivity|].
    cbn [is_leaf]. unfold PyDict.mem, value' at 1. rewrite get_set_same.
    split; assumption.
Qed.

Lemma content_insert_then_lookup_witness :
  (exists node : pydict,
      VDict [(SAFE_STRING, VInt 2); ("Soul", VSents [(0%Z, "a")])]
      = VDict node
      /\ if is_leaf (VDict [(SAFE_STRING, VInt 2);
                            ("Soul", VSents [(0%Z, "a")])])
         then PyDict.get "Soul" node = Some (VSents [(0%Z, "a")])
              /\ forall k, k <> "Soul" -> k <> SAFE_STRING ->
                           PyDict.get k node
                           = PyDict.get k [(SAFE_STRING, VInt 0)]
         else routed (0 + 1) node "Soul" (VSents [(0%Z, "a")])
              /\ forall k p, k <> "Soul" -> k <> SAFE_STRING ->
                             PyDict.get k [(SAFE_STRING, VInt 0)] = Some p ->
                             routed (0 + 1) node k p)
  /\ w_fs (mkWorld [] (doc_counted initial_counters)) = w_fs initial_world
  /\ w_glob (mkWorld [] (doc_counted initial_counters))
     = doc_counted (w_glob initial_world).
Proof.
  apply (content_insert_then_lookup "Soul" [(0%Z, "a")]
           [(SAFE_STRING, VInt 0)] 0 initial_world
           (mkWorld [] (doc_counted initial_counters))).
  - repeat constructor; cbn; intuition discriminate.
  - reflexivity.
Defined.


(** ** [add_doc_name] *)

Lemma nonempty_of_chars (l : list ascii) :
  PyStr.nonempty (PyStr.of_chars l) = match l with [] => false | _ => true end.
Proof. now destruct l. Qed.

Lemma rev_nil_iff {A} (l : list A) : rev l = [] <-> l = [].
Proof.
  split; [|now intros ->]. intros H.
  apply (f_equal (@List.length A)) in H. rewrite length_rev in H.
  now destruct l.
Qed.

(** [re.split] returns a field that is not empty exactly when the text
    holds a character that is not a separator. *)
Lemma re_split_no_field (sep : ascii -> bool) (s : string) :
  forall (cur : list ascii) (in_sep : bool),
    (in_sep = true -> cur = []) ->
    filter PyStr.nonempty (PyStr.split_runs sep true cur in_sep s) = []
    <-> cur = [] /\ forallb sep (PyStr.chars s) = true.
Proof.
  induction s as [|c s IH]; intros cur in_sep Hinv.
  - cbn [PyStr.split_runs negb andb PyStr.chars list_ascii_of_string forallb
         filter].
    rewrite andb_false_r. cbn [filter]. rewrite nonempty_of_chars.
    destruct (rev cur) eqn:Hr.
    + assert (cur = []) as -> by (now apply rev_nil_iff). now split.
    + split; [discriminate|]. intros [-> _]. discriminate.
  - cbn [PyStr.split_runs negb andb PyStr.chars list_ascii_of_string forallb].
    fold (PyStr.chars s).
    destruct (sep c); cbn [andb].
    + destruct in_sep.
      * rewrite (IH [] true (fun _ => eq_refl)).
        rewrite (Hinv eq_refl). tauto.
      * cbn [filter]. rewrite nonempty_of_chars.
        destruct (rev cur) eqn:Hr.
        -- assert (cur = []) as -> by (now apply rev_nil_iff).
           rewrite (IH [] true (fun _ => eq_refl)). tauto.
        -- split; [discriminate|]. intros [-> _]. discriminate.
    + rewrite (IH (c :: cur) false) by discriminate.
      split; intros [H1 H2]; discriminate.
Qed.

Lemma set_fold_head (l : list string) :
  forall (x : string) (s : list string),
    exists rest, fold_left (fun s y => PySet.add y s) l (x :: s) = x :: rest.
Proof.
  induction l as [|y l IH]; intros x s; cbn [fold_left]; [eauto|].
  unfold PySet.add at 2. destruct (PySet.mem y (x :: s)); [apply IH|].
  cbn [app]. apply IH.
Qed.

Lemma add_doc_name_result (platform doc_name : string) (tree : pydict)
        (w : world) :
  add_doc_name platform doc_name tree w
  = (w, if has_word doc_name then Raise (NameError "index_node") else Ok tt).
Proof.
  unfold add_doc_name, has_word, PyStr.re_split.
  pose proof (re_split_no_field name_separator doc_name [] false) as H.
  destruct (filter PyStr.nonempty _) as [|x l] eqn:Hf.
  - destruct H as [H _]; [discriminate|]. destruct (H eq_refl) as [_ Hall].
    assert (Hex : existsb (fun c => negb (name_separator c))
                          (PyStr.chars doc_name) = false).
    { clear -Hall. induction (PyStr.chars doc_name) as [|c l IH];
        [reflexivity|].
      cbn in *. apply andb_true_iff in Hall as [-> Hl]. now apply IH. }
    rewrite Hex. reflexivity.
  - assert (Hex : existsb (fun c => negb (name_separator c))
                          (PyStr.chars doc_name) = true).
    { destruct (existsb _ _) eqn:He; [reflexivity|].
      destruct H as [_ H]; [discriminate|].
      assert (Hnil : x :: l = []); [|discriminate].
      apply H. split; [reflexivity|].
      clear -He. induction (PyStr.chars doc_name) as [|c l IH];
        [reflexivity|].
      cbn in *. apply orb_false_iff in He as [Hc Hl].
      apply negb_false_iff in Hc. rewrite Hc. now apply IH. }
    rewrite Hex. cbn [map]. unfold PySet.of_list. cbn [fold_left].
    unfold PySet.add at 2. cbn [PySet.mem existsb app].
    destruct (set_fold_head (map PyStr.lower l) (PyStr.lower x) [])
      as [rest ->].
    cbn [for_each]. unfold bind.
    now rewrite add_doc_name_word_raises.
Qed.


(** ** [search_word] *)

Lemma char_lower_idempotent (c : ascii) :
  PyStr.char_lower (PyStr.char_lower c) = PyStr.char_lower c.
Proof. destruct c as [[] [] [] [] [] [] [] []]; reflexivity. Qed.

Lemma lower_idempotent (s : string) :
  PyStr.lower (PyStr.lower s) = PyStr.lower s.
Proof.
  induction s as [|c s IH]; [reflexivity|].
  cbn [PyStr.lower]. now rewrite char_lower_idempotent, IH.
Qed.

(** The fields of [s.split()] are not empty. *)
Lemma split_runs_nonempty (sep : ascii -> bool) (s : string) :
  forall (cur : list ascii) (in_sep : bool) (field : string),
    In field (PyStr.split_runs sep false cur in_sep s) ->
    PyStr.nonempty field = true.
Proof.
  induction s as [|c s IH]; intros cur in_sep field;
    cbn [PyStr.split_runs negb andb].
  - rewrite andb_true_r. destruct in_sep; [intros []|].
    destruct cur as [|a cur]; [intros []|].
    intros [<-|[]]. rewrite nonempty_of_chars.
    destruct (rev (a :: cur)) eqn:Hr; [|reflexivity].
    apply (f_equal (@List.length ascii)) in Hr. rewrite length_rev in Hr.
    discriminate.
  - destruct (sep c).
    + destruct in_sep; [apply IH|].
      destruct cur as [|a cur]; [apply IH|].
      intros [<-|Hin]; [|now apply IH in Hin].
      rewrite nonempty_of_chars.
      destruct (rev (a :: cur)) eqn:Hr; [|reflexivity].
      apply (f_equal (@List.length ascii)) in Hr. rewrite length_rev in Hr.
      discriminate.
    + apply IH.
Qed.

Lemma split_ws_tokens (s : string) :
  forallb wf_token (PyStr.split_ws s) = true.
Proof.
  apply forallb_forall. intros field Hin. unfold wf_token, PyStr.split_ws in *.
  rewrite (split_runs_nonempty _ _ _ _ _ Hin). cbn [andb].
  pose proof (split_runs_fields PyStr.char_isspace false s [] false field
                (Forall_nil _) Hin) as Hf.
  apply forallb_forall. intros c Hc.
  now rewrite (proj1 (Forall_forall _ _) Hf c Hc).
Qed.

Lemma scan_names_tokens (key : string) (lines : list string) :
  forall (word_found : bool) (doc_name_list : list string),
    forallb wf_token doc_name_list = true ->
    forallb wf_token (scan_names key word_found lines doc_name_list) = true.
Proof.
  induction lines as [|line lines IH]; intros word_found acc Hacc;
    cbn [scan_names]; [exact Hacc|].
  destruct word_found.
  - destruct (_ =? 1)%nat eqn:Hlen; [|exact Hacc].
    apply IH. rewrite forallb_app, Hacc. cbn [forallb andb].
    rewrite andb_true_r.
    pose proof (split_ws_tokens (PyStr.strip line)) as Ht.
    destruct (PyStr.split_ws (PyStr.strip line)) as [|x l];
      [discriminate|].
    cbn [hd]. cbn in Ht. now apply andb_true_iff in Ht as [-> _].
  - destruct (andb _ _); now apply IH.
Qed.

(** X11.  [search_word] does not tell the case of its word: two words
    with the same lowercase form make the same calls to the file system
    and get the same names, and a word gets what its lowercase form
    gets.  Every name in the result is one token read from a line of a
    leaf: it is not empty and holds no white space. *)
Theorem search_word_ignores_case (fs : fsview) (word word' : string) :
  PyStr.lower word = PyStr.lower word' ->
  search_word_log fs word = search_word_log fs word'
  /\ search_word fs word = search_word fs (PyStr.lower word)
  /\ forallb wf_token (search_word fs word) = true.
Proof.
  intros Hl. split; [|split].
  - unfold search_word_log. now rewrite Hl.
  - unfold search_word, search_word_log. now rewrite lower_idempotent.
  - unfold search_word, search_word_log.
    destruct (descend _ _ _) as [log [filename| |]]; cbn [snd];
      [|reflexivity|reflexivity].
    now apply scan_names_tokens.
Qed.

Lemma search_word_ignores_case_witness :
  PyStr.lower "SOUL" = PyStr.lower "Soul"
  /\ search_word_log (view_of example_disk) "SOUL"
     = search_word_log (view_of example_disk) "Soul"
  /\ search_word (view_of example_disk) "SOUL"
     = search_word (view_of example_disk) (PyStr.lower "SOUL")
  /\ forallb wf_token (search_word (view_of example_disk) "SOUL") = true.
Proof.
  split; [reflexivity|].
  apply (search_word_ignores_case (view_of example_disk) "SOUL" "Soul").
  reflexivity.
Defined.
(** ** [get_words] *)

Lemma of_chars_app (l1 l2 : list ascii) :
  PyStr.of_chars (l1 ++ l2)%list = PyStr.of_chars l1 ++ PyStr.of_chars l2.
Proof.
  induction l1 as [|c l1 IH]; [reflexivity|]. cbn. f_equal. exact IH.
Qed.

Lemma lacks_In (c : ascii) (s : string) :
  lacks c s = true <-> ~ In c (PyStr.chars s).
Proof.
  unfold lacks. induction (PyStr.chars s) as [|x l IH]; cbn.
  - tauto.
  - rewrite andb_true_iff, IH, negb_true_iff.
    destruct (Ascii.eqb_spec x c); intuition congruence.
Qed.

Lemma lacks_app (c : ascii) (a b : string) :
  lacks c (a ++ b) = lacks c a && lacks c b.
Proof. unfold lacks. now rewrite chars_app, forallb_app. Qed.

Lemma split_on_aux_nonempty (c : ascii) (s : string) :
  forall cur, PyStr.split_on_aux c cur s <> [].
Proof.
  induction s as [|a s IH]; intros cur; cbn [PyStr.split_on_aux];
    [discriminate|].
  destruct (Ascii.eqb a c); [discriminate | apply IH].
Qed.

(** A field of [s.split(c)] holds characters of [s] only, and no [c]. *)
Lemma split_on_aux_fields (c : ascii) (s : string) :
  forall (cur : list ascii) (field : string) (x : ascii),
    In field (PyStr.split_on_aux c cur s) ->
    In x (PyStr.chars field) ->
    (In x cur \/ In x (PyStr.chars s)) /\ (~ In c cur -> x <> c).
Proof.
  induction s as [|a s IH]; intros cur field x; cbn [PyStr.split_on_aux].
  - intros [<-|[]]. rewrite chars_of_chars. intros Hx.
    apply in_rev in Hx. split; [now left|]. intros Hc ->. contradiction.
  - destruct (Ascii.eqb_spec a c) as [->|Hne].
    + intros [<-|Hin] Hx.
      * rewrite chars_of_chars in Hx. apply in_rev in Hx.
        split; [now left|]. intros Hc ->. contradiction.
      * destruct (IH [] field x Hin Hx) as [[[]|H1] H2].
        split; [right; now right|]. intros _. apply H2. intros [].
    + intros Hin Hx.
      destruct (IH (a :: cur) field x Hin Hx) as [H1 H2]. split.
      * destruct H1 as [[<-|H1]|H1]; [right; now left | now left |
                                        right; now right].
      * intros Hc. apply H2. intros [Heq|Hc']; [congruence | contradiction].
Qed.

Lemma join_split_on_aux (c : ascii) (s : string) :
  forall cur,
    PyStr.join (String c EmptyString) (PyStr.split_on_aux c cur s)
    = PyStr.of_chars (rev cur) ++ s.
Proof.
  induction s as [|a s IH]; intros cur; cbn [PyStr.split_on_aux].
  - cbn [PyStr.join]. now rewrite append_nil_r.
  - destruct (Ascii.eqb_spec a c) as [->|Hne].
    + rewrite join_cons by apply split_on_aux_nonempty.
      rewrite IH. reflexivity.
    + rewrite IH. cbn [rev]. rewrite of_chars_app, append_assoc. reflexivity.
Qed.

Lemma find_char_lacks (c : ascii) (s : string) :
  lacks c s = true -> PyStr.find_char c s = None.
Proof.
  unfold lacks. induction s as [|a s IH]; [reflexivity|].
  cbn. intros H. apply andb_true_iff in H as [Ha Hs].
  apply negb_true_iff in Ha. rewrite Ha. now rewrite (IH Hs).
Qed.

Lemma find_char_app (c : ascii) (a b : string) :
  lacks c a = true ->
  PyStr.find_char c (a ++ String c b) = Some (String.length a).
Proof.
  unfold lacks. induction a as [|x a IH]; cbn.
  - now rewrite Ascii.eqb_refl.
  - intros H. apply andb_true_iff in H as [Hx Ha].
    apply negb_true_iff in Hx. rewrite Hx. now rewrite (IH Ha).
Qed.

Lemma last_index_end (c : ascii) (x : string) :
  forall i, last_index c i (x ++ String c EmptyString)
            = Some (i + String.length x)%nat.
Proof.
  induction x as [|y x IH]; intros i; cbn [append last_index String.length].
  - rewrite Ascii.eqb_refl. f_equal. lia.
  - rewrite IH. f_equal. lia.
Qed.

Lemma take_app (a b : string) : PyStr.take (String.length a) (a ++ b) = a.
Proof. induction a as [|x a IH]; cbn; [now destruct b | now rewrite IH]. Qed.

Lemma drop_all (s : string) :
  forall n, (String.length s <= n)%nat -> PyStr.drop n s = EmptyString.
Proof.
  induction s as [|x s IH]; intros [|n] H; cbn in *; try reflexivity;
    try lia.
  apply IH. lia.
Qed.

Lemma split_on_aux_word (c : ascii) (w : string) :
  lacks c w = true ->
  forall (cur : list ascii) (s : string),
    PyStr.split_on_aux c cur (w ++ s)
    = PyStr.split_on_aux c (rev (PyStr.chars w) ++ cur)%list s.
Proof.
  unfold lacks. induction w as [|a w IH]; intros H cur s; [reflexivity|].
  cbn in H. apply andb_true_iff in H as [Ha Hw].
  apply negb_true_iff in Ha.
  cbn [append PyStr.split_on_aux]. rewrite Ha. rewrite (IH Hw).
  cbn [PyStr.chars list_ascii_of_string rev]. fold (PyStr.chars w).
  now rewrite <- app_assoc.
Qed.

Lemma split_on_one_line (c : ascii) (s : string) :
  lacks c s = true -> PyStr.split_on c s = [s].
Proof.
  intros H. unfold PyStr.split_on.
  rewrite <- (append_nil_r s) at 1.
  rewrite (split_on_aux_word c s H). cbn [PyStr.split_on_aux].
  rewrite app_nil_r, rev_involutive. now rewrite of_chars_chars.
Qed.

Lemma split_on_aux_join (c : ascii) (ws : list string) :
  forallb (lacks c) ws = true ->
  forall (w : string) (cur : list ascii),
    lacks c w = true ->
    PyStr.split_on_aux c cur (PyStr.join (String c EmptyString) (w :: ws))
    = (PyStr.of_chars (rev cur) ++ w) :: ws.
Proof.
  induction ws as [|w' ws IH]; intros Hws w cur Hw.
  - cbn [PyStr.join]. rewrite <- (append_nil_r w) at 1.
    rewrite (split_on_aux_word c w Hw). cbn [PyStr.split_on_aux].
    rewrite rev_app_distr, rev_involutive, of_chars_app, of_chars_chars.
    reflexivity.
  - cbn [forallb] in Hws. apply andb_true_iff in Hws as [Hw' Hws].
    rewrite join_cons by discriminate.
    rewrite (split_on_aux_word c w Hw).
    cbn [append PyStr.split_on_aux]. rewrite Ascii.eqb_refl.
    rewrite rev_app_distr, rev_involutive, of_chars_app, of_chars_chars.
    f_equal. now rewrite (IH Hws w' [] Hw').
Qed.

Lemma sub_brackets_plain (s : string) :
  lacks "(" s = true -> sub_brackets s = s.
Proof.
  intros H. unfold sub_brackets, PyStr.split_on.
  rewrite <- (join_split_on_aux (ascii_of_nat 10) s []) at 2.
  cbn [rev PyStr.of_chars string_of_list_ascii append]. unfold LF. f_equal.
  rewrite <- (map_id (PyStr.split_on_aux _ _ _)) at 2.
  apply map_ext_in. intros line Hin. unfold sub_brackets_line.
  rewrite find_char_lacks; [reflexivity|].
  apply lacks_In. intros Hc.
  destruct (split_on_aux_fields _ _ _ _ _ Hin Hc) as [[[]|Hs] _].
  now apply lacks_In in H.
Qed.

Lemma sub_brackets_suffix (a b : string) :
  lacks "(" a = true ->
  lacks (ascii_of_nat 10) a = true -> lacks (ascii_of_nat 10) b = true ->
  sub_brackets (a ++ "(" ++ b ++ ")") = a.
Proof.
  intros Ha1 Ha2 Hb. unfold sub_brackets.
  rewrite split_on_one_line.
  2:{ rewrite !lacks_app, Ha2, Hb. reflexivity. }
  cbn [map PyStr.join]. unfold sub_brackets_line.
  change (a ++ "(" ++ b ++ ")") with (a ++ String "(" (b ++ ")")) at 1.
  rewrite (find_char_app "(" a _ Ha1).
  replace (a ++ "(" ++ b ++ ")") with ((a ++ "(" ++ b) ++ ")")
    by now rewrite !append_assoc.
  rewrite (last_index_end ")" (a ++ "(" ++ b) 0).
  rewrite !append_length. cbn [String.length Nat.add].
  destruct (_ <? _)%nat eqn:Hlt.
  - rewrite !append_assoc, take_app.
    rewrite drop_all; [apply append_nil_r|].
    rewrite !append_length. cbn [String.length]. lia.
  - apply Nat.ltb_ge in Hlt. lia.
Qed.

Lemma lstrip_by_snoc (p : ascii -> bool) (c : ascii) (a : string) :
  p c = true ->
  PyStr.lstrip_by p (a ++ String c EmptyString)
  = if forallb p (PyStr.chars a) then EmptyString
    else PyStr.lstrip_by p a ++ String c EmptyString.
Proof.
  intros Hc. induction a as [|x a IH]; cbn.
  - now rewrite Hc.
  - destruct (p x); cbn [andb]; [exact IH | reflexivity].
Qed.

Lemma lstrip_by_all (p : ascii -> bool) (a : string) :
  forallb p (PyStr.chars a) = true -> PyStr.lstrip_by p a = EmptyString.
Proof.
  induction a as [|x a IH]; cbn; [reflexivity|].
  intros H. apply andb_true_iff in H as [-> Ha]. now apply IH.
Qed.

Lemma rstrip_by_snoc (p : ascii -> bool) (c : ascii) (a : string) :
  p c = true ->
  PyStr.rstrip_by p (a ++ String c EmptyString) = PyStr.rstrip_by p a.
Proof.
  intros Hc. induction a as [|x a IH]; cbn.
  - now rewrite Hc.
  - now rewrite IH.
Qed.

Lemma strip_by_snoc (p : ascii -> bool) (c : ascii) (a : string) :
  p c = true ->
  PyStr.strip_by p (a ++ String c EmptyString) = PyStr.strip_by p a.
Proof.
  intros Hc. unfold PyStr.strip_by. rewrite lstrip_by_snoc by exact Hc.
  destruct (forallb p (PyStr.chars a)) eqn:Ha.
  - now rewrite lstrip_by_all.
  - now apply rstrip_by_snoc.
Qed.

Lemma char_lower_underscore (c : ascii) :
  PyStr.char_lower c = "_"%char -> c = "_"%char.
Proof.
  destruct c as [[] [] [] [] [] [] [] []]; cbn; intros H;
    try discriminate H; reflexivity.
Qed.

Lemma get_words_nonempty (doc_name : string) : get_words doc_name <> [].
Proof.
  unfold get_words, PyStr.split_on. intros H. apply map_eq_nil in H.
  now apply split_on_aux_nonempty in H.
Qed.

(** X12.  The words of a document name.  [get_words] returns at least one
    word; every word is in lowercase and holds no underscore.  (A word
    can be empty: the name is empty, or underscores follow each other
    once the brackets are removed.) *)
Theorem get_words_shape (doc_name : string) :
  get_words doc_name <> []
  /\ Forall (fun word => PyStr.lower word = word
                         /\ lacks "_" word = true)
            (get_words doc_name).
Proof.
  split; [apply get_words_nonempty|].
  unfold get_words, PyStr.split_on.
  apply Forall_forall. intros word Hin.
  apply in_map_iff in Hin as [field [<- Hin]].
  split; [apply lower_idempotent|].
  apply lacks_In. rewrite lower_chars. intros Hc.
  apply in_map_iff in Hc as [x [Hx1 Hx2]].
  apply char_lower_underscore in Hx1. subst x.
  destruct (split_on_aux_fields _ _ _ _ _ Hin Hx2) as [_ H].
  apply H; [intros [] | reflexivity].
Qed.

(** X13.  What [get_words] drops from a name.  A bracketed suffix is
    dropped with what it holds, and so is the underscore before it:
    when [a] has no opening bracket, and neither [a] nor [b] a line
    feed, the names [a(b)] and [a_(b)] have the words of [a]. *)
Theorem get_words_drops_brackets (a b : string) :
  lacks "(" a = true ->
  lacks (ascii_of_nat 10) a = true ->
  lacks (ascii_of_nat 10) b = true ->
  get_words (a ++ "(" ++ b ++ ")") = get_words a
  /\ get_words (a ++ "_(" ++ b ++ ")") = get_words a.
Proof.
  intros Ha1 Ha2 Hb. unfold get_words. split.
  - now rewrite sub_brackets_suffix, sub_brackets_plain.
  - replace (a ++ "_(" ++ b ++ ")") with ((a ++ "_") ++ "(" ++ b ++ ")")
      by now rewrite append_assoc.
    rewrite sub_brackets_suffix, sub_brackets_plain; auto.
    + now rewrite strip_by_snoc.
    + rewrite lacks_app, Ha1. reflexivity.
    + rewrite lacks_app, Ha2. reflexivity.
Qed.

Lemma get_words_drops_brackets_witness :
  get_words ("Soul" ++ "(" ++ "music" ++ ")") = get_words "Soul"
  /\ get_words ("Soul" ++ "_(" ++ "music" ++ ")") = get_words "Soul".
Proof.
  apply (get_words_drops_brackets "Soul" "music"); reflexivity.
Defined.
Lemma lacks_join (c : ascii) (sep : string) (ws : list string) :
  lacks c sep = true -> forallb (lacks c) ws = true ->
  lacks c (PyStr.join sep ws) = true.
Proof.
  intros Hsep. induction ws as [|w ws IH]; intros H; [reflexivity|].
  cbn [forallb] in H. apply andb_true_iff in H as [Hw Hws].
  destruct ws as [|w' ws]; [exact Hw|].
  rewrite join_cons by discriminate.
  now rewrite !lacks_app, Hw, Hsep, (IH Hws).
Qed.

Lemma rstrip_by_app (p : ascii -> bool) (a b : string) :
  PyStr.rstrip_by p b <> EmptyString ->
  PyStr.rstrip_by p (a ++ b) = a ++ PyStr.rstrip_by p b.
Proof.
  intros Hb. induction a as [|x a IH]; [reflexivity|].
  cbn [append PyStr.rstrip_by]. rewrite IH.
  destruct (a ++ PyStr.rstrip_by p b) eqn:He; [|reflexivity].
  destruct a; [cbn in He; contradiction | discriminate].
Qed.

Lemma strip_by_joined (c : ascii) (ws : list string) :
  forallb (lacks c) ws = true ->
  PyStr.nonempty (hd EmptyString ws) = true ->
  PyStr.nonempty (last ws EmptyString) = true ->
  PyStr.strip_by (fun x => Ascii.eqb x c)
                 (PyStr.join (String c EmptyString) ws)
  = PyStr.join (String c EmptyString) ws.
Proof.
  intros Hws Hhd Hlast. unfold PyStr.strip_by.
  assert (Hl : PyStr.lstrip_by (fun x => Ascii.eqb x c)
                 (PyStr.join (String c EmptyString) ws)
               = PyStr.join (String c EmptyString) ws).
  { destruct ws as [|w ws]; [reflexivity|].
    cbn [hd] in Hhd. destruct w as [|x w]; [discriminate|].
    cbn [forallb] in Hws. apply andb_true_iff in Hws as [Hw _].
    unfold lacks in Hw. cbn in Hw. apply andb_true_iff in Hw as [Hx _].
    apply negb_true_iff in Hx.
    destruct ws; [now apply lstrip_by_head|].
    rewrite join_cons by discriminate. now apply lstrip_by_head. }
  rewrite Hl.
  destruct ws as [|w ws]; [reflexivity|].
  destruct (exists_last (l := w :: ws)) as [init [z Hz]]; [discriminate|].
  rewrite Hz in *. rewrite last_last in Hlast.
  rewrite forallb_app in Hws. apply andb_true_iff in Hws as [_ Hz'].
  cbn [forallb] in Hz'. rewrite andb_true_r in Hz'.
  assert (Hr : PyStr.rstrip_by (fun x => Ascii.eqb x c) z = z).
  { apply rstrip_by_none. exact Hz'. }
  destruct init as [|i0 init]; [exact Hr|].
  rewrite join_app by discriminate. cbn [PyStr.join].
  rewrite <- append_assoc, rstrip_by_app; rewrite Hr; [reflexivity|].
  intros ->. discriminate.
Qed.


(** ** [get_valid_names] *)

Lemma named_add_NoDup (x : named) (s : list named) :
  NoDup s -> NoDup (named_add x s).
Proof.
  intros Hs. unfold named_add.
  destruct (existsb (named_eqb x) s) eqn:He; [exact Hs|].
  apply NoDup_app; [exact Hs | repeat constructor; intros [] |].
  intros y Hy [<-|[]].
  assert (Ht : existsb (named_eqb x) s = true).
  { apply existsb_exists. exists x. split; [exact Hy|].
    now apply named_eqb_eq. }
  congruence.
Qed.

Lemma get_valid_names_into_NoDup (words : list string)
      (name_list : list named) :
  forall valid_names,
    NoDup valid_names ->
    NoDup (get_valid_names_into words name_list valid_names).
Proof.
  induction name_list as [|[name word_list] name_list IH];
    intros valid_names Hv; cbn [get_valid_names_into]; [exact Hv|].
  apply IH. destruct (key_eqb _ _); [now apply named_add_NoDup | exact Hv].
Qed.

Lemma firstn_prefix {A} (wl words : list A) :
  firstn (List.length wl) words = wl
  <-> exists rest, words = (wl ++ rest)%list.
Proof.
  split.
  - intros H. exists (skipn (List.length wl) words).
    rewrite <- H at 1. symmetry. apply firstn_skipn.
  - intros [rest ->]. rewrite firstn_app, Nat.sub_diag, firstn_all.
    cbn [firstn]. apply app_nil_r.
Qed.

(** X15.  [get_valid_names] keeps, of the candidates, exactly those whose
    words start the list [words], each once: a candidate is returned if
    and only if [words] is its word list followed by something. *)
Theorem get_valid_names_prefixes (words : list string)
        (name_list : list named) :
  NoDup (get_valid_names words name_list)
  /\ forall (name : string) (word_list : list string),
      In (name, word_list) (get_valid_names words name_list)
      <-> In (name, word_list) name_list
          /\ exists rest, words = (word_list ++ rest)%list.
Proof.
  split.
  - apply get_valid_names_into_NoDup. constructor.
  - intros name word_list. rewrite get_valid_names_In. cbn [snd].
    now rewrite firstn_prefix.
Qed.

(** ** [absorb_doc_names] *)

Lemma absorb_doc_names_from (names : list named) (n : string) :
  In n (absorb_doc_names names) -> exists wl, In (n, wl) names.
Proof.
  unfold absorb_doc_names. intros H.
  apply absorb_result_In in H as [[]|[words [_ H]]].
  apply name_dict_names in H as [H|H]; [|eauto].
  unfold names_for in H. cbn in H. contradiction.
Qed.

Lemma longest_exists {A} (f : A -> nat) (l : list A) :
  l <> [] -> exists x, In x l /\ forall y, In y l -> (f y <= f x)%nat.
Proof.
  induction l as [|a l IH]; [contradiction|]. intros _.
  destruct l as [|b l].
  - exists a. split; [now left|]. intros y [<-|[]]. lia.
  - destruct IH as [x [Hx Hmax]]; [discriminate|].
    destruct (Nat.le_gt_cases (f a) (f x)) as [Hle|Hgt].
    + exists x. split; [now right|]. intros y [<-|Hy]; [exact Hle | auto].
    + exists a. split; [now left|]. intros y [<-|Hy]; [lia|].
      specialize (Hmax y Hy). lia.
Qed.



(** ** [search_sentence] *)

Lemma pool_from_set (fs : fsview) (word : string)
      (d : list (string * list named)) :
  pool_from fs d ->
  pool_from fs (PyDict.set word (lookup_candidates fs word) d).
Proof.
  intros Hd k c.
  destruct (String.eqb_spec word k) as [<-|Hne].
  - rewrite get_set_same. now intros [= <-].
  - rewrite get_set_other by assumption. apply Hd.
Qed.

Lemma collect_word_from (fs : fsview) (stop_words : list string) (p : pools)
      (word : string) :
  pool_from fs (doc_names p) /\ pool_from fs (ne_doc_names p) ->
  pool_from fs (doc_names (collect_word fs stop_words p word))
  /\ pool_from fs (ne_doc_names (collect_word fs stop_words p word)).
Proof.
  intros [Hd Hn]. unfold collect_word.
  destruct (_ && _); [|now split].
  destruct (PyStr.first_islower word).
  - destruct (negb _); cbn [doc_names ne_doc_names]; [|now split].
    split; [now apply pool_from_set | exact Hn].
  - destruct (negb _); cbn [doc_names ne_doc_names]; [|now split].
    split; [exact Hd | now apply pool_from_set].
Qed.

Lemma pools_of_from (fs : fsview) (sentence : string)
      (stop_words : list string) :
  pool_from fs (doc_names (pools_of fs sentence stop_words))
  /\ pool_from fs (ne_doc_names (pools_of fs sentence stop_words)).
Proof.
  unfold pools_of.
  assert (H : forall words p,
             pool_from fs (doc_names p) /\ pool_from fs (ne_doc_names p) ->
             pool_from fs (doc_names
                             (fold_left (collect_word fs stop_words) words p))
             /\ pool_from fs
                  (ne_doc_names
                     (fold_left (collect_word fs stop_words) words p))).
  { induction words as [|w words IH]; intros p Hp; cbn [fold_left];
      [exact Hp|]. apply IH. now apply collect_word_from. }
  apply H. split; intros k c [=].
Qed.



Lemma collect_stop_words (fs : fsview) (stop_words : list string)
      (words : list string) :
  forallb (fun word => PySet.mem word stop_words) words = true ->
  forall p, fold_left (collect_word fs stop_words) words p = p.
Proof.
  induction words as [|word words IH]; intros H p; [reflexivity|].
  cbn [forallb] in H. apply andb_true_iff in H as [Hw Hws].
  cbn [fold_left]. unfold collect_word at 2. rewrite Hw.
  cbn [negb]. rewrite andb_false_r. now apply IH.
Qed.

Lemma resolve_loop_empty (words : list string) :
  forall (lower_words : list string) (ne_found : bool),
    resolve_loop (mkPools [] []) words lower_words ne_found [] = [].
Proof.
  induction words as [|word words IH]; intros [|lw lower_words] ne_found;
    cbn [resolve_loop]; try reflexivity.
  cbn [doc_names ne_doc_names].
  destruct (negb (PyStr.first_islower word)); cbn [PyDict.get];
    destruct (negb ne_found && _); destruct (Bool.eqb _ _); apply IH.
Qed.



(** ** The flush of a tree: [build_indices] and [build_docs] *)

Lemma bind_ext {A B} (m m' : M A) (f f' : A -> M B) (w : world) :
  m w = m' w -> (forall a w', f a w' = f' a w') ->
  bind m f w = bind m' f' w.
Proof.
  intros Hm Hf. unfold bind. rewrite Hm.
  destruct (m' w) as [w' [a|e]]; [apply Hf | reflexivity].
Qed.

Lemma build_indices_node_flush (platform : string) (node : pyval) :
  forall (folder : string) (w : world),
    build_indices_node platform node folder w
    = flush_node write_name_entry platform node folder w.
Proof.
  induction node as [n|s|s|m|d IHd|] using pyval_nested_ind;
    intros folder w; try reflexivity.
  cbn [build_indices_node flush_node]. revert w.
  induction d as [|[hash_digit value] d IHl]; intros w; [reflexivity|].
  inversion IHd as [|? ? Hv Hd]; subst. cbn [snd] in Hv.
  apply bind_ext; [|intros _ w'; apply (IHl Hd)].
  destruct value as [n|s|s|m|d'|]; try reflexivity.
  destruct (PyDict.mem SAFE_STRING d'); [reflexivity|].
  apply bind_ext; [reflexivity|]. intros _ w'. apply Hv.
Qed.

Lemma build_docs_node_flush (platform : string) (node : pyval) :
  forall (folder : string) (w : world),
    build_docs_node platform node folder w
    = flush_node write_doc_entry platform node folder w.
Proof.
  induction node as [n|s|s|m|d IHd|] using pyval_nested_ind;
    intros folder w; try reflexivity.
  cbn [build_docs_node flush_node]. revert w.
  induction d as [|[hash_digit value] d IHl]; intros w; [reflexivity|].
  inversion IHd as [|? ? Hv Hd]; subst. cbn [snd] in Hv.
  apply bind_ext; [|intros _ w'; apply (IHl Hd)].
  destruct value as [n|s|s|m|d'|]; try reflexivity.
  destruct (PyDict.mem SAFE_STRING d'); [reflexivity|].
  apply bind_ext; [reflexivity|]. intros _ w'. apply Hv.
Qed.
(** *** What a flush leaves alone *)

Section Stable.
Context (platform : string) (P : filesys -> Prop) (Q : string -> Prop).

(** [P] is not affected by a change at a path of [Q]. *)
Hypothesis stable_set :
  forall (fs : filesys) (q : string) (e : fs_entry),
    Q q -> P fs -> P (PyDict.set q e fs).

Lemma stable_mkdir (path : string) :
  Q path -> preserves P (os_mkdir platform path).
Proof.
  intros Hp w Hw. unfold os_mkdir.
  destruct (PyDict.mem path (w_fs w)); [exact Hw|].
  destruct (negb (parent_exists platform (w_fs w) path)); [exact Hw|].
  cbn. now apply stable_set.
Qed.

Lemma stable_open_w (path : string) :
  Q path -> preserves P (open_w platform path).
Proof.
  intros Hp w Hw. unfold open_w.
  destruct (fs_isdir (w_fs w) path); [exact Hw|].
  destruct (negb (parent_exists platform (w_fs w) path)); [exact Hw|].
  cbn. now apply stable_set.
Qed.

Lemma stable_file_write (path text : string) :
  Q path -> preserves P (file_write path text).
Proof.
  intros Hp w Hw. unfold file_write.
  destruct (PyDict.get path (w_fs w)) as [[|content]|]; try exact Hw.
  cbn. now apply stable_set.
Qed.

Lemma stable_write_name_entry (filename : string) (value : pydict)
      (word : string) :
  Q filename -> preserves P (write_name_entry filename value word).
Proof.
  intros Hp. unfold write_name_entry.
  repeat (first
    [ apply preserves_bind; [|intros ?]
    | apply preserves_lift
    | apply preserves_for_each; intros ?
    | now apply stable_file_write
    | apply preserves_counters; reflexivity
    | unfold progress_report;
      match goal with |- context [if ?b then _ else _] => destruct b end;
      [apply preserves_raise | apply preserves_ret] ]).
Qed.

Lemma stable_write_doc_entry (filename : string) (value : pydict)
      (doc_name : string) :
  Q filename -> preserves P (write_doc_entry filename value doc_name).
Proof.
  intros Hp. unfold write_doc_entry.
  repeat (first
    [ apply preserves_bind; [|intros ?]
    | apply preserves_lift
    | apply preserves_for_each; intros ?
    | now apply stable_file_write
    | apply preserves_counters; reflexivity
    | unfold progress_report;
      match goal with |- context [if ?b then _ else _] => destruct b end;
      [apply preserves_raise | apply preserves_ret] ]).
Qed.

Context (write_entry : string -> pydict -> string -> M unit).
Hypothesis stable_entry :
  forall (filename : string) (value : pydict) (key : string),
    Q filename -> preserves P (write_entry filename value key).

(** The paths of [Q] hold what lies below them. *)
Hypothesis below :
  forall (folder name : string),
    Q folder -> Q (folder ++ SEPARATOR platform ++ name).

Lemma stable_flush_below (node : pyval) :
  forall folder,
    (forall name, Q (folder ++ SEPARATOR platform ++ name)) ->
    preserves P (flush_node write_entry platform node folder).
Proof.
  induction node as [n|s|s|m|d IHd|] using pyval_nested_ind;
    intros folder Hf; try apply preserves_raise.
  cbn [flush_node].
  induction d as [|[hash_digit value] d IHl].
  - apply preserves_ret.
  - inversion IHd as [|? ? Hv Hd]; subst.
    apply preserves_bind; [|intros _; now apply IHl].
    destruct value as [n|s|s|m|d'|]; try apply preserves_raise.
    destruct (PyDict.mem SAFE_STRING d').
    + apply preserves_bind.
      * apply stable_open_w. apply Hf.
      * intros _. apply preserves_for_each. intros word.
        apply stable_entry. apply Hf.
    + apply preserves_bind.
      * apply stable_mkdir. apply Hf.
      * intros _. apply Hv. intros name. apply below. apply Hf.
Qed.
End Stable.

Lemma prefix_neq (a p q : string) :
  prefix a q = true -> prefix a p = false -> p <> q.
Proof. intros Hq Hp ->. congruence. Qed.

Lemma flush_keeps_outside (write_entry : string -> pydict -> string -> M unit)
      (platform : string) (node : pyval) (folder p : string) :
  (forall filename value key x,
      p <> filename ->
      preserves (fun fs => PyDict.get p fs = x)
                (write_entry filename value key)) ->
  prefix (folder ++ SEPARATOR platform) p = false ->
  keeps_path p (flush_node write_entry platform node folder).
Proof.
  intros Hentry Hp w.
  apply (stable_flush_below platform
           (fun fs => PyDict.get p fs = PyDict.get p (w_fs w))
           (fun q => prefix (folder ++ SEPARATOR platform) q = true)).
  - intros fs q e Hq Hfs. rewrite get_set_other; [exact Hfs|].
    intros ->. congruence.
  - intros filename value key Hq. apply Hentry.
    apply (prefix_neq _ _ _ Hq Hp).
  - intros folder' name Hq. now apply prefix_app_r.
  - intros name. rewrite <- append_assoc. apply prefix_app.
  - reflexivity.
Qed.

(** X20.  A flush stays below its folder.  [build_indices] and
    [build_docs] create and write only paths that start with the folder
    they are given and the separator: every other path of the disk, the
    folder itself and the input files among them, holds after the call
    what it held before, whether the call returns or raises. *)
Theorem flush_stays_below_folder (platform : string) (tree : pydict)
        (folder p : string) (w : world) :
  prefix (folder ++ SEPARATOR platform) p = false ->
  PyDict.get p (w_fs (fst (build_indices platform tree folder w)))
  = PyDict.get p (w_fs w)
  /\ PyDict.get p (w_fs (fst (build_docs platform tree folder w)))
     = PyDict.get p (w_fs w).
Proof.
  intros Hp. unfold build_indices, build_docs.
  rewrite build_indices_node_flush, build_docs_node_flush. split.
  - apply flush_keeps_outside; [|exact Hp].
    intros filename value key x Hne.
    apply (stable_write_name_entry _ (fun q => p <> q)); [|exact Hne].
    intros fs q e Hq Hfs. rewrite get_set_other; [exact Hfs | congruence].
  - apply flush_keeps_outside; [|exact Hp].
    intros filename value key x Hne.
    apply (stable_write_doc_entry _ (fun q => p <> q)); [|exact Hne].
    intros fs q e Hq Hfs. rewrite get_set_other; [exact Hfs | congruence].
Qed.

Lemma flush_stays_below_folder_witness :
  PyDict.get (get_input_pathname "win32" 1)
    (w_fs (fst (build_indices "win32" name_tree_example INDEX_FOLDER
                  (corpus_world "win32"))))
  = PyDict.get (get_input_pathname "win32" 1) (w_fs (corpus_world "win32"))
  /\ PyDict.get (get_input_pathname "win32" 1)
       (w_fs (fst (build_docs "win32" name_tree_example INDEX_FOLDER
                     (corpus_world "win32"))))
     = PyDict.get (get_input_pathname "win32" 1)
                  (w_fs (corpus_world "win32")).
Proof.
  apply (flush_stays_below_folder "win32" name_tree_example INDEX_FOLDER
           (get_input_pathname "win32" 1) (corpus_world "win32")).
  reflexivity.
Defined.

(** *** A flush with the divisor of the progress report at zero *)

Section Fails.
Context (R : world -> Prop).

Lemma fails_bind_l {A B} (m : M A) (f : A -> M B) :
  fails_from R m -> fails_from R (bind m f).
Proof.
  intros Hm w Hw. destruct (Hm w Hw) as [e He]. unfold bind.
  destruct (m w) as [w' [a|e']]; cbn [snd] in *; [discriminate | eauto].
Qed.

Lemma fails_bind_r {A B} (m : M A) (f : A -> M B) :
  keeps_state R m -> (forall a, fails_from R (f a)) ->
  fails_from R (bind m f).
Proof.
  intros Hm Hf w Hw. specialize (Hm w Hw). unfold bind.
  destruct (m w) as [w' [a|e']]; cbn [fst snd] in *; [now apply Hf | eauto].
Qed.

Lemma keeps_bind {A B} (m : M A) (f : A -> M B) :
  keeps_state R m -> (forall a, keeps_state R (f a)) ->
  keeps_state R (bind m f).
Proof.
  intros Hm Hf w Hw. specialize (Hm w Hw). unfold bind.
  destruct (m w) as [w' [a|e']]; cbn [fst] in *; [now apply Hf | exact Hm].
Qed.

Lemma keeps_for_each {A} (l : list A) (body : A -> M unit) :
  (forall a, keeps_state R (body a)) -> keeps_state R (for_each l body).
Proof.
  intros Hb. induction l as [|x l IH]; cbn [for_each].
  - intros w Hw. exact Hw.
  - apply keeps_bind; [apply Hb | intros _; exact IH].
Qed.

Lemma keeps_pure {A} (m : M A) :
  (forall w, fst (m w) = w) -> keeps_state R m.
Proof. intros Hm w Hw. now rewrite Hm. Qed.
End Fails.

Section Divisor.
Context (divisor : counters -> Z).
Let R := fun w : world => divisor (w_glob w) = 0%Z.

Lemma keeps_glob {A} (m : M A) :
  (forall w, w_glob (fst (m w)) = w_glob w) -> keeps_state R m.
Proof. intros Hm w Hw. unfold R in *. now rewrite Hm. Qed.

Lemma keeps_mkdir (platform path : string) :
  keeps_state R (os_mkdir platform path).
Proof.
  apply keeps_glob. intros w. unfold os_mkdir.
  destruct (PyDict.mem _ _); [reflexivity|].
  destruct (negb _); reflexivity.
Qed.

Lemma keeps_open_w (platform path : string) :
  keeps_state R (open_w platform path).
Proof.
  apply keeps_glob. intros w. unfold open_w.
  destruct (fs_isdir _ _); [reflexivity|].
  destruct (negb _); reflexivity.
Qed.

Lemma keeps_file_write (path text : string) :
  keeps_state R (file_write path text).
Proof.
  apply keeps_glob. intros w. unfold file_write.
  destruct (PyDict.get _ _) as [[|content]|]; reflexivity.
Qed.

Context (platform : string)
        (write_entry : string -> pydict -> string -> M unit).
Hypothesis entry_keeps :
  forall filename value key, keeps_state R (write_entry filename value key).
Hypothesis entry_fails :
  forall filename value key, fails_from R (write_entry filename value key).

Lemma flush_keeps_divisor (node : pyval) :
  forall folder, keeps_state R (flush_node write_entry platform node folder).
Proof.
  induction node as [n|s|s|m|d IHd|] using pyval_nested_ind;
    intros folder; try (intros w Hw; exact Hw).
  cbn [flush_node].
  induction d as [|[hash_digit value] d IHl].
  - intros w Hw. exact Hw.
  - inversion IHd as [|? ? Hv Hd]; subst.
    apply keeps_bind; [|intros _; now apply IHl].
    destruct value as [n|s|s|m|d'|]; try (intros w Hw; exact Hw).
    destruct (PyDict.mem SAFE_STRING d').
    + apply keeps_bind; [apply keeps_open_w|].
      intros _. apply keeps_for_each. intros key. apply entry_keeps.
    + apply keeps_bind; [apply keeps_mkdir|]. intros _. apply Hv.
Qed.

Lemma flush_fails_at_zero (node : pyval) :
  forall folder,
    holds_entry node = true ->
    fails_from R (flush_node write_entry platform node folder).
Proof.
  induction node as [n|s|s|m|d IHd|] using pyval_nested_ind;
    intros folder Hh; try discriminate.
  cbn [flush_node holds_entry] in *.
  induction d as [|[hash_digit value] d IHl]; [discriminate|].
  inversion IHd as [|? ? Hv Hd]; subst. cbn [snd] in Hv.
  apply orb_true_iff in Hh as [Hh|Hh].
  - apply fails_bind_l.
    destruct value as [n|s|s|m|d'|]; try discriminate.
    destruct (PyDict.mem SAFE_STRING d').
    + apply fails_bind_r; [apply keeps_open_w|]. intros _.
      destruct (PyDict.keys (PyDict.del SAFE_STRING d')) as [|key keys];
        [discriminate|].
      cbn [for_each]. apply fails_bind_l. apply entry_fails.
    + apply fails_bind_r; [apply keeps_mkdir|]. intros _. now apply Hv.
  - apply fails_bind_r; [|intros _; now apply IHl].
    destruct value as [n|s|s|m|d'|]; try (intros w Hw; exact Hw).
    destruct (PyDict.mem SAFE_STRING d').
    + apply keeps_bind; [apply keeps_open_w|].
      intros _. apply keeps_for_each. intros key. apply entry_keeps.
    + apply keeps_bind; [apply keeps_mkdir|]. intros _.
      apply flush_keeps_divisor.
Qed.
End Divisor.

Lemma write_name_entry_at_zero (filename : string) (value : pydict)
      (word : string) :
  keeps_state (fun w => word_count_1percent (w_glob w) = 0%Z)
              (write_name_entry filename value word)
  /\ fails_from (fun w => word_count_1percent (w_glob w) = 0%Z)
                (write_name_entry filename value word).
Proof.
  unfold write_name_entry. split.
  - repeat (first
      [ apply keeps_bind; [|intros ?]
      | apply keeps_for_each; intros ?
      | apply (keeps_file_write word_count_1percent)
      | apply keeps_pure; reflexivity
      | apply (keeps_glob word_count_1percent); reflexivity
      | intros ? Hw0; exact Hw0
      | unfold progress_report;
        match goal with |- context [if ?b then _ else _] => destruct b end;
        apply keeps_pure; reflexivity ]).
  - do 6 (apply fails_bind_r;
        [ first [ apply keeps_for_each; intros ?;
                  apply (keeps_file_write word_count_1percent)
                | apply (keeps_file_write word_count_1percent)
                | intros ? Hw0; exact Hw0 ]
        | intros ? ]).
    intros w Hw. unfold bind, get_counters, progress_report.
    cbn in Hw. rewrite Hw. cbn. eauto.
Qed.

Lemma write_doc_entry_at_zero (filename : string) (value : pydict)
      (doc_name : string) :
  keeps_state (fun w => doc_count_1percent (w_glob w) = 0%Z)
              (write_doc_entry filename value doc_name)
  /\ fails_from (fun w => doc_count_1percent (w_glob w) = 0%Z)
                (write_doc_entry filename value doc_name).
Proof.
  unfold write_doc_entry. split.
  - repeat (first
      [ apply keeps_bind; [|intros ?]
      | apply keeps_for_each; intros ?
      | apply (keeps_file_write doc_count_1percent)
      | apply keeps_pure; reflexivity
      | apply (keeps_glob doc_count_1percent); reflexivity
      | intros ? Hw0; exact Hw0
      | unfold progress_report;
        match goal with |- context [if ?b then _ else _] => destruct b end;
        apply keeps_pure; reflexivity ]).
  - do 5 (apply fails_bind_r;
        [ first [ apply keeps_for_each; intros ?;
                  apply (keeps_file_write doc_count_1percent)
                | apply (keeps_file_write doc_count_1percent)
                | intros ? Hw0; exact Hw0 ]
        | intros ? ]).
    intros w Hw. unfold bind, get_counters, progress_report.
    cbn in Hw. rewrite Hw. cbn. eauto.
Qed.

(** X21.  No flush completes while the divisor is zero.  The module loads
    with [word_count_1percent] and [doc_count_1percent] at 0, and no
    function changes them.  With [word_count_1percent] at 0,
    [build_indices] raises on every tree in which a leaf holds an entry;
    with [doc_count_1percent] at 0, so does [build_docs]: the first
    entry written runs into the remainder by zero of the progress
    report, unless an error comes before it. *)
Theorem flush_raises_at_zero (platform : string) (tree : pydict)
        (folder : string) (w : world) :
  holds_entry (VDict tree) = true ->
  (word_count_1percent (w_glob w) = 0%Z ->
   exists e, snd (build_indices platform tree folder w) = Raise e)
  /\ (doc_count_1percent (w_glob w) = 0%Z ->
      exists e, snd (build_docs platform tree folder w) = Raise e).
Proof.
  intros Hh. unfold build_indices, build_docs.
  rewrite build_indices_node_flush, build_docs_node_flush. split; intros Hw.
  - apply (flush_fails_at_zero word_count_1percent platform write_name_entry);
      auto; intros; apply write_name_entry_at_zero.
  - apply (flush_fails_at_zero doc_count_1percent platform write_doc_entry);
      auto; intros; apply write_doc_entry_at_zero.
Qed.

Lemma flush_raises_at_zero_witness :
  (word_count_1percent (w_glob (mkWorld [(INDEX_FOLDER, FDir)]
                                        initial_counters)) = 0%Z ->
   exists e,
     snd (build_indices "win32" name_tree_example INDEX_FOLDER
            (mkWorld [(INDEX_FOLDER, FDir)] initial_counters)) = Raise e)
  /\ (doc_count_1percent (w_glob (mkWorld [(INDEX_FOLDER, FDir)]
                                          initial_counters)) = 0%Z ->
      exists e,
        snd (build_docs "win32" name_tree_example INDEX_FOLDER
               (mkWorld [(INDEX_FOLDER, FDir)] initial_counters)) = Raise e).
Proof.
  apply (flush_raises_at_zero "win32" name_tree_example INDEX_FOLDER
           (mkWorld [(INDEX_FOLDER, FDir)] initial_counters)).
  reflexivity.
Defined.
(** *** A flush that completes, and what a lookup then reads *)

Lemma distinct_NoDup (l : list string) : distinct l = true -> NoDup l.
Proof.
  induction l as [|x l IH]; cbn [distinct]; intros H; [constructor|].
  apply andb_true_iff in H as [Hx Hl]. constructor; [|now apply IH].
  intros Hin. apply set_mem_In in Hin. now rewrite Hin in Hx.
Qed.

Lemma prefix_refl (a : string) : prefix a a = true.
Proof. rewrite <- (append_nil_r a) at 2. apply prefix_app. Qed.

Lemma prefix_trans (a b p : string) :
  prefix a b = true -> prefix b p = true -> prefix a p = true.
Proof.
  intros Hab Hbp. apply prefix_spec in Hab as [x ->].
  apply prefix_spec in Hbp as [y ->]. rewrite append_assoc. apply prefix_app.
Qed.

Lemma prefix_shard (folder : string) (c : ascii) (rest : string) :
  prefix (shard folder c) (shard folder c ++ rest) = true.
Proof. apply prefix_app. Qed.

Lemma shard_below (folder : string) (c : ascii) :
  prefix (folder ++ BACKSLASH) (shard folder c) = true.
Proof. unfold shard. rewrite <- append_assoc. apply prefix_app. Qed.

(** The shards of two digits hold no common path. *)
Lemma shard_fork (folder : string) (c c' : ascii) (p : string) :
  c <> c' ->
  prefix (shard folder c) p = true -> prefix (shard folder c') p = false.
Proof.
  intros Hne Hp. destruct (prefix (shard folder c') p) eqn:Hq; [|reflexivity].
  unfold shard in *. rewrite <- append_assoc in Hp, Hq.
  elim Hne. exact (prefix_fork _ _ _ _ _ p Hp Hq).
Qed.

Lemma shard_not_folder (folder : string) (c : ascii) (rest : string) :
  prefix (shard folder c ++ rest) folder = false.
Proof.
  unfold shard. rewrite !append_assoc. apply prefix_longer.
Qed.

Lemma shard_not_txt (folder : string) (c : ascii) :
  shard folder c <> shard folder c ++ ".txt".
Proof.
  intros H. apply (f_equal String.length) in H.
  rewrite append_length in H. cbn in H. lia.
Qed.

Lemma shard_not_deeper (folder : string) (c : ascii) (p : string) :
  prefix (shard folder c ++ BACKSLASH) p = true -> p <> shard folder c.
Proof.
  intros Hp ->. unfold BACKSLASH in Hp.
  now rewrite prefix_longer in Hp.
Qed.

Lemma leaf_text_nil (fs : fsview) (root : string) :
  leaf_text fs root [] = None.
Proof. reflexivity. Qed.

Lemma leaf_text_cons (fs : fsview) (root : string) (c : ascii)
      (digits : list ascii) :
  leaf_text fs root (c :: digits)
  = if isdir fs (shard root c) then leaf_text fs (shard root c) digits
    else if isfile fs (shard root c ++ ".txt")
         then Some (read_text fs (shard root c ++ ".txt"))
         else None.
Proof.
  unfold leaf_text, shard. cbn [descend].
  destruct (isdir fs _).
  - now destruct (descend fs _ digits).
  - now destruct (isfile fs _).
Qed.

Lemma view_of_isdir (fs : filesys) (path : string) :
  isdir (view_of fs) path = fs_isdir fs path.
Proof. reflexivity. Qed.

Lemma view_of_isfile (fs : filesys) (path : string) :
  isfile (view_of fs) path = fs_isfile fs path.
Proof. reflexivity. Qed.

Lemma view_of_read_text (fs : filesys) (path : string) :
  read_text (view_of fs) path
  = match PyDict.get path fs with
    | Some (FFile content) => content
    | _ => EmptyString
    end.
Proof. reflexivity. Qed.

(** A lookup that starts with the digit [c] reads the disk below the
    shard of [c] only. *)
Lemma leaf_text_ext (digits : list ascii) :
  forall (root : string) (c : ascii) (fs1 fs2 : filesys),
    (forall p, prefix (shard root c) p = true ->
               PyDict.get p fs1 = PyDict.get p fs2) ->
    leaf_text (view_of fs1) root (c :: digits)
    = leaf_text (view_of fs2) root (c :: digits).
Proof.
  induction digits as [|c2 digits IH]; intros root c fs1 fs2 Hag;
    rewrite (leaf_text_cons (view_of fs1) root c),
            (leaf_text_cons (view_of fs2) root c);
    rewrite !view_of_isdir, !view_of_isfile, !view_of_read_text;
    unfold fs_isdir, fs_isfile;
    rewrite (Hag (shard root c) (prefix_refl _));
    rewrite (Hag (shard root c ++ ".txt") (prefix_shard _ _ _)).
  - reflexivity.
  - rewrite (IH (shard root c) c2 fs1 fs2); [reflexivity|].
    intros p Hp. apply Hag.
    apply (prefix_trans _ (shard (shard root c) c2)); [|exact Hp].
    unfold shard at 2. apply prefix_app.
Qed.

Lemma hex_not_separator (platform : string) (c : ascii) :
  is_hex c = true -> is_separator platform c = false.
Proof.
  unfold is_separator.
  destruct c as [[] [] [] [] [] [] [] []]; try discriminate; intros _;
    cbn; now rewrite ?andb_false_r.
Qed.

Lemma parent_chars_skip (platform : string) (l1 l2 : list ascii) (s : ascii) :
  forallb (fun c => negb (is_separator platform c)) l1 = true ->
  is_separator platform s = true ->
  parent_chars platform (l1 ++ s :: l2)%list = Some l2.
Proof.
  intros H1 Hs. induction l1 as [|c l1 IH]; cbn [app parent_chars].
  - now rewrite Hs.
  - cbn in H1. apply andb_true_iff in H1 as [Hc Hl].
    apply negb_true_iff in Hc. rewrite Hc. now apply IH.
Qed.

Lemma parent_of_child (folder name : string) :
  forallb (fun c => negb (is_separator "win32" c)) (PyStr.chars name) = true ->
  parent_of "win32" (folder ++ BACKSLASH ++ name) = Some folder.
Proof.
  intros Hn. unfold parent_of. rewrite !chars_app, !rev_app_distr.
  change (rev (PyStr.chars BACKSLASH)) with [ascii_of_nat 92].
  rewrite <- app_assoc. cbn [app].
  rewrite parent_chars_skip.
  - cbn [option_map]. now rewrite rev_involutive, of_chars_chars.
  - apply forallb_forall. intros x Hx. apply in_rev in Hx.
    now apply (proj1 (forallb_forall _ _) Hn).
  - reflexivity.
Qed.

(** The parent of a shard, with or without the extension of a leaf
    file, is the folder. *)
Lemma parent_of_shard (folder : string) (c : ascii) :
  is_hex c = true ->
  parent_of "win32" (shard folder c) = Some folder
  /\ parent_of "win32" (shard folder c ++ ".txt") = Some folder.
Proof.
  intros Hc. pose proof (hex_not_separator "win32" c Hc) as Hs.
  unfold shard. split.
  - apply parent_of_child. cbn. now rewrite Hs.
  - rewrite !append_assoc. apply parent_of_child. cbn. now rewrite Hs.
Qed.

Lemma shard_key_inv (k : string) :
  shard_key k = true -> exists c, k = String c EmptyString /\ is_hex c = true.
Proof.
  destruct k as [|c [|]]; try discriminate. intros H. eauto.
Qed.

Lemma flush_node_cons (write_entry : string -> pydict -> string -> M unit)
      (platform : string) (item : string * pyval) (items : pydict)
      (folder : string) (w : world) :
  flush_node write_entry platform (VDict (item :: items)) folder w
  = (flush_node write_entry platform (VDict [item]) folder ;;;
     flush_node write_entry platform (VDict items) folder) w.
Proof.
  destruct item as [k value]. cbn [flush_node]. unfold bind.
  match goal with
  | |- match ?x with _ => _ end = _ => destruct x as [w1 [[]|e]]
  end; reflexivity.
Qed.

Lemma shard_txt (folder : string) (c : ascii) :
  folder ++ SEPARATOR "win32" ++ String c EmptyString ++ ".txt"
  = shard folder c ++ ".txt".
Proof.
  unfold shard. change (SEPARATOR "win32") with BACKSLASH.
  now rewrite !append_assoc.
Qed.

Lemma flush_node_leaf (write_entry : string -> pydict -> string -> M unit)
      (c : ascii) (v : pydict) (folder : string) (w : world) :
  PyDict.mem SAFE_STRING v = true ->
  flush_node write_entry "win32" (VDict [(String c EmptyString, VDict v)])
             folder w
  = ((open_w "win32" (shard folder c ++ ".txt") ;;;
      for_each (PyDict.keys (PyDict.del SAFE_STRING v))
               (write_entry (shard folder c ++ ".txt")
                            (PyDict.del SAFE_STRING v))) ;;; ret tt) w.
Proof.
  intros H. cbn [flush_node]. rewrite H, shard_txt. reflexivity.
Qed.

Lemma flush_node_inner (write_entry : string -> pydict -> string -> M unit)
      (c : ascii) (v : pydict) (folder : string) (w : world) :
  PyDict.mem SAFE_STRING v = false ->
  flush_node write_entry "win32" (VDict [(String c EmptyString, VDict v)])
             folder w
  = ((os_mkdir "win32" (shard folder c) ;;;
      flush_node write_entry "win32" (VDict v) (shard folder c)) ;;;
     ret tt) w.
Proof.
  intros H. cbn [flush_node]. rewrite H. reflexivity.
Qed.

Section FlushCompletes.
Context (write_entry : string -> pydict -> string -> M unit)
        (good : pydict -> string -> bool)
        (render : pydict -> string -> string)
        (okc : counters -> Prop).

(** The writer of one entry appends the text of the entry to the file
    and touches nothing else. *)
Hypothesis entry_ok :
  forall (filename : string) (value : pydict) (key content : string)
         (w : world),
    okc (w_glob w) -> good value key = true ->
    file_text (w_fs w) filename = Some content ->
    exists w',
      write_entry filename value key w = (w', Ok tt)
      /\ okc (w_glob w')
      /\ file_text (w_fs w') filename = Some (content ++ render value key)
      /\ forall p, p <> filename ->
                   PyDict.get p (w_fs w') = PyDict.get p (w_fs w).

Lemma entries_ok (filename : string) (value : pydict) (keys : list string) :
  forallb (good value) keys = true ->
  forall (content : string) (w : world),
    okc (w_glob w) ->
    file_text (w_fs w) filename = Some content ->
    exists w',
      for_each keys (write_entry filename value) w = (w', Ok tt)
      /\ okc (w_glob w')
      /\ file_text (w_fs w') filename
         = Some (content
                   ++ String.concat EmptyString (map (render value) keys))
      /\ forall p, p <> filename ->
                   PyDict.get p (w_fs w') = PyDict.get p (w_fs w).
Proof.
  induction keys as [|key keys IH]; intros Hg content w Hc Ht.
  - exists w. cbn. rewrite append_nil_r. auto.
  - cbn [forallb] in Hg. apply andb_true_iff in Hg as [Hk Hks].
    destruct (entry_ok filename value key content w Hc Hk Ht)
      as [w1 [Hrun [Hc1 [Ht1 Hf1]]]].
    destruct (IH Hks _ w1 Hc1 Ht1) as [w2 [Hrun2 [Hc2 [Ht2 Hf2]]]].
    exists w2. cbn [for_each]. unfold bind. rewrite Hrun, Hrun2.
    split; [reflexivity|]. split; [exact Hc2|]. split.
    + rewrite Ht2. f_equal. cbn [map String.concat].
      destruct (map (render value) keys) eqn:Hm.
      * cbn. now rewrite append_nil_r.
      * cbn. now rewrite append_assoc.
    + intros p Hp. rewrite (Hf2 p Hp). now apply Hf1.
Qed.

Lemma find_leaf_skip (k : string) (value : pyval) (items : pydict)
      (c : ascii) (digits : list ascii) :
  k <> String c EmptyString ->
  find_leaf ((k, value) :: items) (c :: digits)
  = find_leaf items (c :: digits).
Proof.
  intros Hk. cbn [find_leaf PyDict.get key_eqb KeyEq_string].
  destruct (String.eqb_spec k (String c EmptyString)); [contradiction|].
  reflexivity.
Qed.

(** With nothing below the folder before the flush, a lookup reads
    after the flush what the tree holds, for every key. *)
Lemma flushed_reads (d : pydict) (folder : string) (w w' : world) :
  flushed render okc d folder w w' ->
  (forall p, prefix (folder ++ BACKSLASH) p = true ->
             PyDict.get p (w_fs w) = None) ->
  forall digits,
    leaf_text (view_of (w_fs w')) folder digits
    = option_map (render_leaf render) (find_leaf d digits).
Proof.
  intros [_ [Hframe Hread]] Hfresh [|c digits]; [reflexivity|].
  destruct (in_dec string_dec (String c EmptyString) (PyDict.keys d))
    as [Hin|Hout]; [now apply Hread|].
  assert (Hget : PyDict.get (String c EmptyString) d = None)
    by now apply get_None_keys.
  cbn [find_leaf]. rewrite Hget. cbn [option_map].
  assert (Hkeep : forall p, prefix (shard folder c) p = true ->
                    PyDict.get p (w_fs w') = None).
  { intros p Hp. rewrite Hframe.
    - apply Hfresh. apply (prefix_trans _ (shard folder c)); [|exact Hp].
      apply shard_below.
    - intros c' Hin. apply (shard_fork folder c c'); [|exact Hp].
      intros ->. contradiction. }
  rewrite leaf_text_cons, view_of_isdir, view_of_isfile.
  unfold fs_isdir, fs_isfile.
  rewrite (Hkeep _ (prefix_refl _)), (Hkeep _ (prefix_shard _ _ _)).
  reflexivity.
Qed.

Lemma flush_completes (node : pyval) :
  completes write_entry good render okc node.
Proof.
  induction node as [n|s|s|m|d0 IHd|] using pyval_nested_ind;
    intros d folder w Hnode; try discriminate.
  injection Hnode as <-. revert w.
  induction d0 as [|[k value] items IHl]; intros w Hfl Hc Hdir Hfresh.
  - exists w. split; [reflexivity|].
    split; [exact Hc|]. split; [reflexivity | intros c digits []].
  - inversion IHd as [|? ? Hv Hd]; subst. cbn [snd] in Hv.
    cbn [flushable PyDict.keys map fst distinct] in Hfl.
    apply andb_true_iff in Hfl as [Hdist Hfl].
    apply andb_true_iff in Hdist as [Hknew Hdist].
    apply andb_true_iff in Hfl as [Hfl Hrest].
    apply andb_true_iff in Hfl as [Hkey Hval].
    destruct (shard_key_inv k Hkey) as [c [-> Hhex]].
    destruct (parent_of_shard folder c Hhex) as [Hpar Hpar'].
    assert (Hknew' : ~ In (String c EmptyString) (PyDict.keys items)).
    { intros Hin. apply set_mem_In in Hin. unfold PyDict.keys in Hin.
      apply negb_true_iff in Hknew. congruence. }
    assert (Hother : forall c', In (String c' EmptyString)
                                   (PyDict.keys items) -> c' <> c).
    { intros c' Hin ->. contradiction. }
    assert (Hflrest : flushable good (VDict items) = true).
    { cbn [flushable]. apply andb_true_iff. split; [exact Hdist | exact Hrest]. }
    (* the head of the loop *)
    assert (Hhead : exists w2,
               flush_node write_entry "win32"
                          (VDict [(String c EmptyString, value)]) folder w
               = (w2, Ok tt)
               /\ okc (w_glob w2)
               /\ (forall p, prefix (shard folder c) p = false ->
                             PyDict.get p (w_fs w2) = PyDict.get p (w_fs w))
               /\ forall digits,
                   leaf_text (view_of (w_fs w2)) folder (c :: digits)
                   = option_map (render_leaf render)
                       (find_leaf ((String c EmptyString, value) :: items)
                                  (c :: digits))).
    { destruct value as [n|s|s|m|v|]; try discriminate.
      assert (Hf0 : PyDict.get (shard folder c) (w_fs w) = None).
      { apply (Hfresh _ c); [now left | apply prefix_refl]. }
      assert (Hf1 : PyDict.get (shard folder c ++ ".txt") (w_fs w) = None).
      { apply (Hfresh _ c); [now left | apply prefix_shard]. }
      cbn [find_leaf PyDict.get key_eqb KeyEq_string].
      rewrite String.eqb_refl.
      destruct (PyDict.mem SAFE_STRING v) eqn:Hleaf.
      - (* a leaf *)
        set (filename := shard folder c ++ ".txt") in *.
        set (w1 := mkWorld (PyDict.set filename (FFile EmptyString) (w_fs w))
                           (w_glob w)).
        assert (Hopen : open_w "win32" filename w = (w1, Ok tt)).
        { unfold open_w, parent_exists. rewrite Hpar', Hdir.
          unfold fs_isdir. rewrite Hf1. reflexivity. }
        destruct (entries_ok filename (PyDict.del SAFE_STRING v) _ Hval
                    EmptyString w1 Hc)
          as [w2 [Hrun [Hc2 [Ht2 Hfr2]]]].
        { unfold file_text. cbn [w_fs w1]. now rewrite get_set_same. }
        exists w2. split.
        { rewrite (flush_node_leaf _ _ _ _ _ Hleaf). fold filename.
          unfold bind. now rewrite Hopen, Hrun. }
        split; [exact Hc2|].
        assert (Hkeep : forall p, p <> filename ->
                          PyDict.get p (w_fs w2) = PyDict.get p (w_fs w)).
        { intros p Hp. rewrite (Hfr2 p Hp). cbn [w_fs w1].
          apply get_set_other. congruence. }
        split.
        + intros p Hp. apply Hkeep. intros ->.
          unfold filename in Hp. now rewrite prefix_shard in Hp.
        + intros digits. rewrite leaf_text_cons.
          rewrite view_of_isdir, view_of_isfile, view_of_read_text.
          unfold fs_isdir, fs_isfile.
          rewrite (Hkeep (shard folder c) (shard_not_txt folder c)), Hf0.
          unfold file_text in Ht2. fold filename.
          destruct (PyDict.get filename (w_fs w2)) as [[|content]|];
            try discriminate.
          injection Ht2 as ->. reflexivity.
      - (* a node *)
        set (w1 := mkWorld (PyDict.set (shard folder c) FDir (w_fs w))
                           (w_glob w)).
        assert (Hmk : os_mkdir "win32" (shard folder c) w = (w1, Ok tt)).
        { unfold os_mkdir, PyDict.mem, parent_exists.
          rewrite Hf0, Hpar, Hdir. reflexivity. }
        assert (Hfresh1 : forall p,
                   prefix (shard folder c ++ BACKSLASH) p = true ->
                   PyDict.get p (w_fs w1) = None).
        { intros p Hp. cbn [w_fs w1].
          rewrite get_set_other
            by (intros <-; now apply (shard_not_deeper folder c _ Hp)).
          apply (Hfresh _ c); [now left|].
          apply (prefix_trans _ (shard folder c ++ BACKSLASH));
            [apply prefix_app | exact Hp]. }
        destruct (Hv v (shard folder c) w1 eq_refl Hval Hc)
          as [w2 [Hrun Hflushed]].
        { unfold fs_isdir. cbn [w_fs w1]. now rewrite get_set_same. }
        { intros p c' _ Hp. apply Hfresh1.
          apply (prefix_trans _ (shard (shard folder c) c')); [|exact Hp].
          apply shard_below. }
        pose proof (flushed_reads _ _ _ _ Hflushed Hfresh1) as Hrd2.
        destruct Hflushed as [Hc2 [Hfr2 _]].
        exists w2. split.
        { rewrite (flush_node_inner _ _ _ _ _ Hleaf).
          unfold bind. now rewrite Hmk, Hrun. }
        split; [exact Hc2|].
        assert (Hkeep : forall p,
                   prefix (shard folder c ++ BACKSLASH) p = false ->
                   PyDict.get p (w_fs w2) = PyDict.get p (w_fs w1)).
        { intros p Hp. apply Hfr2. intros c' _.
          destruct (prefix (shard (shard folder c) c') p) eqn:Hq;
            [|reflexivity].
          rewrite <- Hp. symmetry.
          apply (prefix_trans _ (shard (shard folder c) c')); [|exact Hq].
          apply shard_below. }
        split.
        + intros p Hp. rewrite Hkeep.
          * cbn [w_fs w1]. apply get_set_other. intros <-.
            now rewrite prefix_refl in Hp.
          * destruct (prefix (shard folder c ++ BACKSLASH) p) eqn:Hq;
              [|reflexivity].
            rewrite <- Hp. symmetry.
            apply (prefix_trans _ (shard folder c ++ BACKSLASH));
              [apply prefix_app | exact Hq].
        + intros digits. rewrite leaf_text_cons, view_of_isdir.
          unfold fs_isdir.
          rewrite Hkeep by (unfold BACKSLASH; apply prefix_longer).
          cbn [w_fs w1]. rewrite get_set_same. apply Hrd2. }
    destruct Hhead as [w2 [Hrun2 [Hc2 [Hfr2 Hrd2]]]].
    (* the rest of the loop *)
    destruct (IHl Hd w2 Hflrest Hc2) as [w' [Hrun' [Hc' [Hfr' Hrd']]]].
    { unfold fs_isdir. rewrite Hfr2; [exact Hdir|].
      rewrite <- (append_nil_r (shard folder c)). apply shard_not_folder. }
    { intros p c' Hin Hp. rewrite Hfr2.
      - apply (Hfresh _ c'); [now right | exact Hp].
      - apply (shard_fork folder c' c); [now apply Hother | exact Hp]. }
    exists w'. split.
    { rewrite flush_node_cons. unfold bind. now rewrite Hrun2. }
    split; [exact Hc'|]. split.
    + intros p Hp. rewrite Hfr'.
      * apply Hfr2. apply Hp. cbn. now left.
      * intros c' Hin. apply Hp. cbn. now right.
    + intros c0 digits Hin.
      destruct (ascii_dec c0 c) as [->|Hne].
      * rewrite <- Hrd2. apply leaf_text_ext.
        intros p Hp. apply Hfr'. intros c' Hin'.
        apply (shard_fork folder c c'); [|exact Hp].
        intros ->. contradiction.
      * rewrite find_leaf_skip by congruence. apply Hrd'.
        cbn in Hin. destruct Hin as [Heq|Hin]; [congruence | exact Hin].
Qed.
End FlushCompletes.

(** *** The two writers of an entry *)

Lemma file_write_full (filename text content : string) (w : world) :
  file_text (w_fs w) filename = Some content ->
  file_write filename text w
  = (mkWorld (PyDict.set filename (FFile (content ++ text)) (w_fs w))
             (w_glob w), Ok tt).
Proof.
  unfold file_text, file_write.
  destruct (PyDict.get filename (w_fs w)) as [[|c]|]; try discriminate.
  now intros [= ->].
Qed.

Lemma for_each_write_full {A} (filename : string) (text : A -> string)
      (l : list A) :
  forall (content : string) (w : world),
    file_text (w_fs w) filename = Some content ->
    exists w',
      for_each l (fun x => file_write filename (text x)) w = (w', Ok tt)
      /\ file_text (w_fs w') filename
         = Some (content ++ String.concat EmptyString (map text l))
      /\ w_glob w' = w_glob w
      /\ forall p, p <> filename ->
                   PyDict.get p (w_fs w') = PyDict.get p (w_fs w).
Proof.
  induction l as [|x l IH]; intros content w Ht.
  - exists w. cbn. rewrite append_nil_r. auto.
  - cbn [for_each]. unfold bind.
    rewrite (file_write_full filename (text x) content w Ht).
    destruct (IH (content ++ text x)
                 (mkWorld (PyDict.set filename
                             (FFile (content ++ text x)) (w_fs w))
                          (w_glob w)))
      as [w' [Hrun [Ht' [Hg' Hf']]]].
    { unfold file_text. cbn [w_fs]. now rewrite get_set_same. }
    exists w'. rewrite Hrun. split; [reflexivity|]. split.
    + rewrite Ht'. f_equal. cbn [map String.concat].
      destruct (map text l); cbn; [now rewrite append_nil_r |
                                   now rewrite append_assoc].
    + split; [exact Hg'|]. intros p Hp. rewrite (Hf' p Hp). cbn [w_fs].
      apply get_set_other. congruence.
Qed.

Lemma write_name_entry_ok (filename : string) (value : pydict)
      (word content : string) (w : world) :
  word_count_1percent (w_glob w) <> 0%Z ->
  name_entry_ok value word = true ->
  file_text (w_fs w) filename = Some content ->
  exists w',
    write_name_entry filename value word w = (w', Ok tt)
    /\ word_count_1percent (w_glob w') <> 0%Z
    /\ file_text (w_fs w') filename
       = Some (content ++ render_name_entry value word)
    /\ forall p, p <> filename ->
                 PyDict.get p (w_fs w') = PyDict.get p (w_fs w).
Proof.
  intros Hc Hok Ht. unfold name_entry_ok in Hok.
  apply andb_true_iff in Hok as [_ Hok].
  unfold write_name_entry, render_name_entry, getitem.
  destruct (PyDict.get word value) as [[| |names| | |]|]; try discriminate.
  unfold bind at 1. cbn [lift of_option].
  unfold bind at 1. cbn [lift py_len].
  unfold bind at 1. rewrite (file_write_full _ _ _ _ Ht).
  unfold bind at 1. cbn [lift].
  destruct (for_each_write_full filename
              (fun doc_name : string => doc_name ++ LF)
              (sorted PyStr.leb names)
              (content ++ word ++ " "
                 ++ PyStr.str_of_Z (Z.of_nat (List.length names)) ++ LF)
              (mkWorld (PyDict.set filename
                          (FFile (content
                                    ++ word ++ " "
                                    ++ PyStr.str_of_Z
                                         (Z.of_nat (List.length names))
                                    ++ LF)) (w_fs w)) (w_glob w)))
    as [w2 [Hrun [Ht2 [Hg2 Hf2]]]].
  { unfold file_text. cbn [w_fs]. now rewrite get_set_same. }
  unfold bind at 1. rewrite Hrun.
  unfold bind, incr_processed_word_count, get_counters, progress_report.
  cbn [w_glob w_fs word_count_1percent processed_word_count].
  rewrite Hg2. cbn [w_glob].
  destruct (Z.eqb_spec (word_count_1percent (w_glob w)) 0);
    [contradiction|].
  eexists. split; [reflexivity|]. cbn [w_glob w_fs word_count_1percent].
  split; [exact Hc|]. split.
  - rewrite Ht2. now rewrite !append_assoc.
  - intros p Hp. rewrite (Hf2 p Hp). cbn [w_fs].
    apply get_set_other. congruence.
Qed.

Lemma write_doc_entry_ok (filename : string) (value : pydict)
      (doc_name content : string) (w : world) :
  doc_count_1percent (w_glob w) <> 0%Z ->
  doc_entry_ok value doc_name = true ->
  file_text (w_fs w) filename = Some content ->
  exists w',
    write_doc_entry filename value doc_name w = (w', Ok tt)
    /\ doc_count_1percent (w_glob w') <> 0%Z
    /\ file_text (w_fs w') filename
       = Some (content ++ render_doc_entry value doc_name)
    /\ forall p, p <> filename ->
                 PyDict.get p (w_fs w') = PyDict.get p (w_fs w).
Proof.
  intros Hc Hok Ht. unfold doc_entry_ok in Hok.
  apply andb_true_iff in Hok as [_ Hok].
  unfold write_doc_entry, render_doc_entry, getitem.
  unfold bind at 1. rewrite (file_write_full _ _ _ _ Ht).
  destruct (PyDict.get doc_name value) as [[| | |items| |]|];
    try discriminate.
  unfold bind at 1. cbn [lift of_option].
  unfold bind at 1. cbn [lift].
  destruct (for_each_write_full filename written_sentence
              (sorted item_leb items) (content ++ doc_name ++ LF)
              (mkWorld (PyDict.set filename
                          (FFile (content ++ doc_name ++ LF)) (w_fs w))
                       (w_glob w)))
    as [w2 [Hrun [Ht2 [Hg2 Hf2]]]].
  { unfold file_text. cbn [w_fs]. now rewrite get_set_same. }
  unfold bind at 1. unfold written_sentence in Hrun. rewrite Hrun.
  unfold bind, incr_processed_doc_count, get_counters, progress_report.
  cbn [w_glob w_fs doc_count_1percent processed_doc_count].
  rewrite Hg2. cbn [w_glob].
  destruct (Z.eqb_spec (doc_count_1percent (w_glob w)) 0);
    [contradiction|].
  eexists. split; [reflexivity|]. cbn [w_glob w_fs doc_count_1percent].
  split; [exact Hc|]. split.
  - rewrite Ht2. now rewrite !append_assoc.
  - intros p Hp. rewrite (Hf2 p Hp). cbn [w_fs].
    apply get_set_other. congruence.
Qed.
(** *** Reading a leaf file *)

Lemma concat_cons (x : string) (l : list string) :
  String.concat EmptyString (x :: l) = x ++ String.concat EmptyString l.
Proof. destruct l; cbn; [now rewrite append_nil_r | reflexivity]. Qed.

Lemma concat_app (l1 l2 : list string) :
  String.concat EmptyString (l1 ++ l2)%list
  = String.concat EmptyString l1 ++ String.concat EmptyString l2.
Proof.
  induction l1 as [|x l1 IH]; [reflexivity|].
  cbn [app]. now rewrite !concat_cons, IH, append_assoc.
Qed.

Lemma unlines_cons (x : string) (l : list string) :
  unlines (x :: l) = x ++ LF ++ unlines l.
Proof.
  unfold unlines. cbn [map]. now rewrite concat_cons, append_assoc.
Qed.

Lemma unlines_app (l1 l2 : list string) :
  unlines (l1 ++ l2)%list = unlines l1 ++ unlines l2.
Proof. unfold unlines. now rewrite map_app, concat_app. Qed.

Lemma unlines_flat_map {A} (f : A -> list string) (l : list A) :
  String.concat EmptyString (map (fun x => unlines (f x)) l)
  = unlines (flat_map f l).
Proof.
  induction l as [|x l IH]; [reflexivity|].
  cbn [map flat_map]. now rewrite concat_cons, unlines_app, IH.
Qed.

Lemma read_lines_line (t : string) :
  one_line t = true ->
  forall (cur : list ascii) (rest : string),
    read_lines cur (t ++ LF ++ rest)
    = (PyStr.of_chars (rev cur) ++ t ++ LF) :: read_lines [] rest.
Proof.
  unfold one_line, lacks. induction t as [|c t IH]; intros H cur rest.
  - cbn [append read_lines LF]. rewrite Ascii.eqb_refl.
    cbn [rev]. now rewrite of_chars_app.
  - cbn in H. apply andb_true_iff in H as [H1 H2].
    apply andb_true_iff in H1 as [Hc1 H1].
    apply andb_true_iff in H2 as [Hc2 H2].
    apply negb_true_iff in Hc1, Hc2.
    cbn [append read_lines].
    change (ascii_of_nat 10) with "010"%char.
    change (ascii_of_nat 13) with "013"%char.
    rewrite Hc1, Hc2.
    change "010"%char with (ascii_of_nat 10).
    rewrite IH by (apply andb_true_iff; split; assumption).
    cbn [rev]. rewrite of_chars_app, append_assoc. reflexivity.
Qed.

Lemma read_lines_unlines (lines : list string) :
  forallb one_line lines = true ->
  read_lines [] (unlines lines) = map (fun line => line ++ LF) lines.
Proof.
  induction lines as [|t lines IH]; intros H; [reflexivity|].
  cbn [forallb] in H. apply andb_true_iff in H as [Ht Hl].
  rewrite unlines_cons, (read_lines_line t Ht). cbn [rev map].
  now rewrite (IH Hl).
Qed.

Lemma visible_lacks (c : ascii) (t : string) :
  PyStr.char_isspace c = true ->
  forallb (fun x => negb (PyStr.char_isspace x)) (PyStr.chars t) = true ->
  lacks c t = true.
Proof.
  intros Hc Ht. unfold lacks. apply forallb_forall. intros x Hx.
  pose proof (proj1 (forallb_forall _ _) Ht x Hx) as Hv.
  destruct (Ascii.eqb_spec x c) as [->|]; [|reflexivity].
  now rewrite Hc in Hv.
Qed.

Lemma wf_token_visible (t : string) :
  wf_token t = true ->
  t <> EmptyString
  /\ forallb (fun x => negb (PyStr.char_isspace x)) (PyStr.chars t) = true.
Proof.
  unfold wf_token. intros H. apply andb_true_iff in H as [Hn Hv].
  split; [|exact Hv]. now destruct t.
Qed.

Lemma str_of_Z_visible (z : Z) :
  PyStr.str_of_Z z <> EmptyString
  /\ forallb (fun x => negb (PyStr.char_isspace x))
             (PyStr.chars (PyStr.str_of_Z z)) = true.
Proof.
  assert (Hd : forall l, forallb PyStr.char_isdigit l = true ->
                 forallb (fun x => negb (PyStr.char_isspace x)) l = true).
  { induction l as [|c l IH]; intros H; [reflexivity|].
    cbn in *. apply andb_true_iff in H as [Hc Hl].
    destruct (digit_not_int_space c Hc) as [_ [_ [_ ->]]]. now apply IH. }
  destruct z as [|p|p]; [now split| |];
    destruct (str_of_N_value (Npos p)) as [_ [Hdig Hne]];
    cbn [PyStr.str_of_Z].
  - split; [exact Hne | now apply Hd].
  - split; [discriminate|]. cbn. now apply Hd.
Qed.

Lemma strip_visible (a : string) :
  a <> EmptyString ->
  forall t,
    forallb (fun x => negb (PyStr.char_isspace x)) (PyStr.chars a) = true ->
    ends_visible (a ++ t) = true ->
    PyStr.strip (a ++ t ++ LF) = a ++ t.
Proof.
  intros Hne t Ha Hend. unfold PyStr.strip, PyStr.strip_by.
  destruct a as [|c a]; [contradiction|].
  cbn in Ha. apply andb_true_iff in Ha as [Hc _].
  apply negb_true_iff in Hc.
  cbn [append]. rewrite lstrip_by_head by exact Hc.
  change (String c (a ++ t ++ LF)) with (String c a ++ t ++ LF).
  rewrite <- append_assoc. unfold LF. rewrite rstrip_by_snoc by reflexivity.
  unfold ends_visible in Hend.
  destruct (rev (PyStr.chars (String c a ++ t))) as [|z l] eqn:Hr;
    [discriminate|].
  assert (Hs : String c a ++ t = PyStr.of_chars (rev l) ++ String z EmptyString).
  { rewrite <- (of_chars_chars (String c a ++ t)).
    rewrite <- (rev_involutive (PyStr.chars (String c a ++ t))), Hr.
    cbn [rev]. now rewrite of_chars_app. }
  change (String c (a ++ t)) with (String c a ++ t).
  rewrite Hs. apply negb_true_iff in Hend.
  rewrite rstrip_by_app; cbn [PyStr.rstrip_by]; rewrite Hend;
    [reflexivity | discriminate].
Qed.

Lemma ends_visible_app (a t : string) :
  t <> EmptyString ->
  forallb (fun x => negb (PyStr.char_isspace x)) (PyStr.chars t) = true ->
  ends_visible (a ++ t) = true.
Proof.
  intros Hne Hv. unfold ends_visible. rewrite chars_app, rev_app_distr.
  destruct (rev (PyStr.chars t)) as [|z l] eqn:Hr.
  - apply (f_equal (@List.length ascii)) in Hr. rewrite length_rev in Hr.
    destruct t; [contradiction | discriminate].
  - cbn [app]. apply (proj1 (forallb_forall _ _) Hv).
    apply in_rev. rewrite Hr. now left.
Qed.

Lemma ends_visible_app_r (a t : string) :
  ends_visible t = true -> ends_visible (a ++ t) = true.
Proof.
  unfold ends_visible. rewrite chars_app, rev_app_distr.
  now destruct (rev (PyStr.chars t)).
Qed.

(** A line that holds one token is read as that token. *)
Lemma token_line (t : string) :
  wf_token t = true ->
  PyStr.strip (t ++ LF) = t /\ PyStr.split_ws t = [t].
Proof.
  intros Hwf. destruct (wf_token_visible t Hwf) as [Hne Hv]. split.
  - assert (He : ends_visible (t ++ EmptyString) = true).
    { rewrite append_nil_r. exact (ends_visible_app EmptyString t Hne Hv). }
    pose proof (strip_visible t Hne EmptyString Hv He) as Hs.
    rewrite append_nil_r in Hs. exact Hs.
  - apply (split_ws_join [t]). cbn. now rewrite Hwf.
Qed.

Lemma digits_token (z : Z) : wf_token (PyStr.str_of_Z z) = true.
Proof.
  destruct (str_of_Z_visible z) as [Hne Hv]. unfold wf_token.
  rewrite Hv, andb_true_r. now destruct (PyStr.str_of_Z z).
Qed.

(** The header line of a word is read as the word and its count. *)
Lemma header_line (k : string) (z : Z) :
  wf_token k = true ->
  PyStr.split_ws (PyStr.strip (k ++ " " ++ PyStr.str_of_Z z ++ LF))
  = [k; PyStr.str_of_Z z].
Proof.
  intros Hwf. destruct (wf_token_visible k Hwf) as [Hne Hv].
  destruct (str_of_Z_visible z) as [Hne' Hv'].
  replace (k ++ " " ++ PyStr.str_of_Z z ++ LF)
    with (k ++ (" " ++ PyStr.str_of_Z z) ++ LF)
    by now rewrite !append_assoc.
  rewrite (strip_visible k Hne _ Hv).
  - apply (split_ws_join [k; PyStr.str_of_Z z]). cbn.
    now rewrite Hwf, digits_token.
  - rewrite <- append_assoc. now apply ends_visible_app.
Qed.

Lemma scan_names_skip_names (key : string) (names : list string) :
  forallb wf_token names = true ->
  forall rest acc,
    scan_names key false (map (fun n : string => (n ++ LF)%string) names ++ rest)%list acc
    = scan_names key false rest acc.
Proof.
  induction names as [|n names IH]; intros H rest acc; [reflexivity|].
  cbn [forallb] in H. apply andb_true_iff in H as [Hn Hl].
  cbn [map app scan_names].
  destruct (token_line n Hn) as [-> ->]. cbn [List.length Nat.eqb andb].
  now apply IH.
Qed.

Lemma scan_names_take_names (key : string) (names : list string) :
  forallb wf_token names = true ->
  forall rest acc,
    match rest with
    | [] => True
    | line :: _ =>
        List.length (PyStr.split_ws (PyStr.strip line)) <> 1%nat
    end ->
    scan_names key true (map (fun n : string => (n ++ LF)%string) names ++ rest)%list acc
    = (acc ++ names)%list.
Proof.
  induction names as [|n names IH]; intros H rest acc Hrest.
  - cbn [map app]. rewrite app_nil_r.
    destruct rest as [|line rest]; [reflexivity|].
    cbn [scan_names]. apply Nat.eqb_neq in Hrest. now rewrite Hrest.
  - cbn [forallb] in H. apply andb_true_iff in H as [Hn Hl].
    cbn [map app scan_names].
    destruct (token_line n Hn) as [-> ->]. cbn [List.length Nat.eqb hd].
    rewrite (IH Hl rest _ Hrest). now rewrite <- app_assoc.
Qed.

Lemma name_entry_ok_lines (dl : pydict) (k : string) :
  name_entry_ok dl k = true ->
  wf_token k = true
  /\ exists names,
      PyDict.get k dl = Some (VSet names)
      /\ forallb wf_token (sorted PyStr.leb names) = true
      /\ name_lines dl k
         = (k ++ " " ++ PyStr.str_of_Z (Z.of_nat (List.length names)))
             :: sorted PyStr.leb names.
Proof.
  unfold name_entry_ok, name_lines. intros H.
  apply andb_true_iff in H as [Hk H]. split; [exact Hk|].
  destruct (PyDict.get k dl) as [[| |names| | |]|]; try discriminate.
  exists names. split; [reflexivity|]. split; [|reflexivity].
  apply forallb_forall. intros x Hx.
  apply (proj1 (forallb_forall _ _) H).
  apply (Permutation_in x (sorted_perm PyStr.leb names)). exact Hx.
Qed.

(** The scan of a leaf file of the name tree returns the names of the
    word, sorted, and nothing when the leaf does not hold the word. *)
Lemma scan_names_leaf (dl : pydict) (key : string) (ks : list string) :
  forallb (name_entry_ok dl) ks = true ->
  forall acc,
    scan_names key false
               (map (fun line => line ++ LF) (flat_map (name_lines dl) ks))
               acc
    = (acc ++ if PySet.mem key ks
              then sorted PyStr.leb (names_of dl key) else [])%list.
Proof.
  induction ks as [|k ks IH]; intros H acc.
  - cbn. now rewrite app_nil_r.
  - cbn [forallb] in H. apply andb_true_iff in H as [Hk Hks].
    destruct (name_entry_ok_lines dl k Hk) as [Hwf [names [Hg [Hn Hl]]]].
    cbn [flat_map]. rewrite Hl, map_app. cbn [map app scan_names].
    replace ((k ++ " " ++ PyStr.str_of_Z (Z.of_nat (List.length names)))
               ++ LF)
      with (k ++ " " ++ PyStr.str_of_Z (Z.of_nat (List.length names)) ++ LF)
      by now rewrite !append_assoc.
    rewrite (header_line k _ Hwf). cbn [List.length Nat.eqb andb hd].
    unfold PySet.mem. cbn [existsb].
    rewrite (String.eqb_sym key k).
    destruct (String.eqb_spec k key) as [->|Hne].
    + cbn [orb]. rewrite scan_names_take_names; [|exact Hn|].
      * unfold names_of. now rewrite Hg.
      * destruct ks as [|k2 ks2]; [exact I|].
        cbn [forallb] in Hks. apply andb_true_iff in Hks as [Hk2 _].
        destruct (name_entry_ok_lines dl k2 Hk2)
          as [Hwf2 [names2 [_ [_ Hl2]]]].
        cbn [flat_map]. rewrite Hl2. cbn [map app].
        replace ((k2 ++ " "
                     ++ PyStr.str_of_Z (Z.of_nat (List.length names2)))
                   ++ LF)
          with (k2 ++ " "
                   ++ PyStr.str_of_Z (Z.of_nat (List.length names2)) ++ LF)
          by now rewrite !append_assoc.
        rewrite (header_line k2 _ Hwf2). discriminate.
    + cbn [orb]. rewrite scan_names_skip_names by exact Hn.
      apply (IH Hks).
Qed.
(** *** From the tree to the disk and back: the name index *)

Lemma flush_empty_disk
      (write_entry : string -> pydict -> string -> M unit)
      (good : pydict -> string -> bool)
      (render : pydict -> string -> string) (okc : counters -> Prop)
      (root : string) (tree : pydict) (g : counters) :
  (forall node, completes write_entry good render okc node) ->
  parent_of "win32" root = None ->
  flushable good (VDict tree) = true ->
  okc g ->
  exists w',
    (os_mkdir "win32" root ;;;
     flush_node write_entry "win32" (VDict tree) root) (mkWorld [] g)
    = (w', Ok tt)
    /\ forall digits,
        leaf_text (view_of (w_fs w')) root digits
        = option_map (render_leaf render) (find_leaf tree digits).
Proof.
  intros Hcomp Hroot Hfl Hg.
  set (w1 := mkWorld [(root, FDir)] g).
  assert (Hmk : os_mkdir "win32" root (mkWorld [] g) = (w1, Ok tt)).
  { unfold os_mkdir, parent_exists. cbn [w_fs PyDict.mem PyDict.get].
    rewrite Hroot. reflexivity. }
  assert (Hfresh : forall p, prefix (root ++ BACKSLASH) p = true ->
                     PyDict.get p (w_fs w1) = None).
  { intros p Hp. cbn [w_fs w1 PyDict.get key_eqb KeyEq_string].
    destruct (String.eqb_spec root p) as [<-|]; [|reflexivity].
    unfold BACKSLASH in Hp. now rewrite prefix_longer in Hp. }
  destruct (Hcomp (VDict tree) tree root w1 eq_refl Hfl Hg)
    as [w' [Hrun Hflushed]].
  - unfold fs_isdir. cbn [w_fs w1 PyDict.get key_eqb KeyEq_string].
    now rewrite String.eqb_refl.
  - intros p c _ Hp. apply Hfresh.
    apply (prefix_trans _ (shard root c)); [apply shard_below | exact Hp].
  - exists w'. split.
    + unfold bind. now rewrite Hmk, Hrun.
    + exact (flushed_reads render okc tree root w1 w' Hflushed Hfresh).
Qed.

Lemma search_word_leaf_text (fs : fsview) (word : string) :
  search_word fs word
  = match leaf_text fs INDEX_FOLDER
                    (PyStr.chars (sha1_hash (PyStr.lower word))) with
    | Some text =>
        scan_names (PyStr.lower word) false (read_lines [] text) []
    | None => []
    end.
Proof.
  unfold search_word, search_word_log, leaf_text.
  now destruct (descend fs INDEX_FOLDER _) as [log [filename| |]].
Qed.

Lemma get_doc_content_leaf_text (fs : fsview) (doc_name : string) :
  get_doc_content fs doc_name
  = match leaf_text fs DOC_FOLDER (PyStr.chars (sha1_hash doc_name)) with
    | Some text => scan_content doc_name false (read_lines [] text) []
    | None => Ok []
    end.
Proof.
  unfold get_doc_content, get_doc_content_log, leaf_text.
  now destruct (descend fs DOC_FOLDER _) as [log [filename| |]].
Qed.

Lemma one_line_app (a b : string) :
  one_line (a ++ b) = one_line a && one_line b.
Proof.
  unfold one_line. rewrite !lacks_app.
  destruct (lacks _ a), (lacks _ b), (lacks _ a), (lacks _ b); reflexivity.
Qed.

Lemma one_line_visible (t : string) :
  forallb (fun x => negb (PyStr.char_isspace x)) (PyStr.chars t) = true ->
  one_line t = true.
Proof.
  intros H. unfold one_line.
  now rewrite !visible_lacks.
Qed.

Lemma one_line_token (t : string) : wf_token t = true -> one_line t = true.
Proof.
  intros H. apply one_line_visible. now apply wf_token_visible.
Qed.

Lemma render_name_entry_lines (dl : pydict) (k : string) :
  render_name_entry dl k = unlines (name_lines dl k).
Proof.
  unfold render_name_entry, name_lines.
  destruct (PyDict.get k dl) as [[| |names| | |]|]; try reflexivity.
  rewrite unlines_cons. unfold unlines. now rewrite !append_assoc.
Qed.

Lemma name_lines_one_line (dl : pydict) (ks : list string) :
  forallb (name_entry_ok dl) ks = true ->
  forallb one_line (flat_map (name_lines dl) ks) = true.
Proof.
  induction ks as [|k ks IH]; intros H; [reflexivity|].
  cbn [forallb] in H. apply andb_true_iff in H as [Hk Hks].
  destruct (name_entry_ok_lines dl k Hk) as [Hwf [names [_ [Hn Hl]]]].
  cbn [flat_map]. rewrite forallb_app, (IH Hks), andb_true_r, Hl.
  cbn [forallb]. apply andb_true_iff. split.
  - rewrite !one_line_app, (one_line_token k Hwf).
    now rewrite (one_line_token _ (digits_token _)).
  - apply forallb_forall. intros x Hx. apply one_line_token.
    now apply (proj1 (forallb_forall _ _) Hn).
Qed.

Lemma flushable_leaf (good : pydict -> string -> bool) (digits : list ascii) :
  forall (tree leaf : pydict),
    flushable good (VDict tree) = true ->
    find_leaf tree digits = Some leaf ->
    forallb (good (PyDict.del SAFE_STRING leaf))
            (PyDict.keys (PyDict.del SAFE_STRING leaf)) = true.
Proof.
  induction digits as [|c digits IH]; intros tree leaf Hfl Hfind;
    [discriminate|].
  cbn [find_leaf] in Hfind.
  destruct (PyDict.get (String c EmptyString) tree) as [[| | | |v|]|] eqn:Hg;
    try discriminate.
  apply get_In in Hg.
  assert (Hv : if PyDict.mem SAFE_STRING v
               then forallb (good (PyDict.del SAFE_STRING v))
                            (PyDict.keys (PyDict.del SAFE_STRING v)) = true
               else flushable good (VDict v) = true).
  { cbn [flushable] in Hfl. apply andb_true_iff in Hfl as [_ Hfl].
    clear -Hfl Hg. induction tree as [|[k x] tree IHt]; [contradiction|].
    apply andb_true_iff in Hfl as [Hfl Hrest].
    apply andb_true_iff in Hfl as [_ Hx].
    destruct Hg as [[= -> ->]|Hg]; [|now apply IHt].
    destruct (PyDict.mem SAFE_STRING v); exact Hx. }
  destruct (PyDict.mem SAFE_STRING v).
  - now injection Hfind as <-.
  - now apply (IH v leaf).
Qed.


(** *** From the tree to the disk and back: the content index *)

Lemma clean_line_inv (x : string) :
  clean_line x = true ->
  x = chomp x ++ LF
  /\ one_line (chomp x) = true
  /\ ends_visible (chomp x) = true.
Proof.
  unfold clean_line, one_line. intros H.
  apply andb_true_iff in H as [H H4]. apply andb_true_iff in H as [H H3].
  apply andb_true_iff in H as [H1 H2]. apply String.eqb_eq in H1.
  now rewrite H2, H3.
Qed.

Lemma drop_app_S (a : string) (c : ascii) (t : string) :
  PyStr.drop (String.length a + 1) (a ++ String c t) = t.
Proof. induction a as [|x a IH]; [reflexivity | exact IH]. Qed.

Lemma lacks_space_visible (t : string) :
  forallb (fun x => negb (PyStr.char_isspace x)) (PyStr.chars t) = true ->
  lacks " " t = true.
Proof. now apply visible_lacks. Qed.

(** How a line that holds a sentence is read. *)
Lemma sentence_line_read (z : Z) (t : string) :
  ends_visible t = true ->
  let line := PyStr.str_of_Z z ++ " " ++ t in
  PyStr.strip (line ++ LF) = line
  /\ lacks " " line = false
  /\ PyStr.find_char " " line = Some (String.length (PyStr.str_of_Z z))
  /\ PyStr.take (String.length (PyStr.str_of_Z z)) line = PyStr.str_of_Z z
  /\ PyStr.drop (String.length (PyStr.str_of_Z z) + 1) line = t.
Proof.
  intros Ht line. destruct (str_of_Z_visible z) as [Hne Hv].
  unfold line. repeat split.
  - replace ((PyStr.str_of_Z z ++ " " ++ t) ++ LF)
      with (PyStr.str_of_Z z ++ (" " ++ t) ++ LF)
      by now rewrite !append_assoc.
    apply strip_visible; auto. now do 2 apply ends_visible_app_r.
  - rewrite !lacks_app. cbn. now rewrite andb_false_r.
  - apply (find_char_app " " _ t). now apply lacks_space_visible.
  - apply take_app.
  - apply drop_app_S.
Qed.

Lemma doc_entry_ok_lines (dl : pydict) (k : string) :
  doc_entry_ok dl k = true ->
  wf_token k = true
  /\ exists items,
      PyDict.get k dl = Some (VSents items)
      /\ forallb (fun item : Z * string =>
                    clean_line (transform_brackets (snd item)))
                 (sorted item_leb items) = true
      /\ doc_lines dl k = k :: map sentence_line (sorted item_leb items).
Proof.
  unfold doc_entry_ok, doc_lines. intros H.
  apply andb_true_iff in H as [Hk H]. split; [exact Hk|].
  destruct (PyDict.get k dl) as [[| | |items| |]|]; try discriminate.
  exists items. split; [reflexivity|]. split; [|reflexivity].
  apply forallb_forall. intros x Hx.
  apply (proj1 (forallb_forall _ _) H).
  apply (Permutation_in x (sorted_perm item_leb items)). exact Hx.
Qed.

Lemma written_sentence_line (item : Z * string) :
  clean_line (transform_brackets (snd item)) = true ->
  written_sentence item = sentence_line item ++ LF.
Proof.
  intros H. destruct (clean_line_inv _ H) as [Hx _].
  unfold written_sentence, sentence_line. rewrite Hx at 1.
  now rewrite !append_assoc.
Qed.

Lemma render_doc_entry_lines (dl : pydict) (k : string) :
  doc_entry_ok dl k = true ->
  render_doc_entry dl k = unlines (doc_lines dl k).
Proof.
  intros Hk. destruct (doc_entry_ok_lines dl k Hk)
    as [_ [items [Hg [Hclean Hl]]]].
  rewrite Hl. unfold render_doc_entry. rewrite Hg, unlines_cons.
  rewrite append_assoc. do 2 f_equal. unfold unlines. rewrite map_map.
  f_equal. apply map_ext_in. intros item Hin.
  apply written_sentence_line.
  now apply (proj1 (forallb_forall _ _) Hclean).
Qed.

Lemma sentence_line_one_line (item : Z * string) :
  clean_line (transform_brackets (snd item)) = true ->
  one_line (sentence_line item) = true.
Proof.
  intros H. destruct (clean_line_inv _ H) as [_ [Ho _]].
  destruct (str_of_Z_visible (fst item)) as [_ Hv].
  unfold sentence_line. rewrite !one_line_app, Ho.
  now rewrite (one_line_visible _ Hv).
Qed.

Lemma doc_lines_one_line (dl : pydict) (ks : list string) :
  forallb (doc_entry_ok dl) ks = true ->
  forallb one_line (flat_map (doc_lines dl) ks) = true.
Proof.
  induction ks as [|k ks IH]; intros H; [reflexivity|].
  cbn [forallb] in H. apply andb_true_iff in H as [Hk Hks].
  destruct (doc_entry_ok_lines dl k Hk) as [Hwf [items [_ [Hclean Hl]]]].
  cbn [flat_map]. rewrite forallb_app, (IH Hks), andb_true_r, Hl.
  cbn [forallb]. rewrite (one_line_token k Hwf). cbn [andb].
  apply forallb_forall. intros x Hx.
  apply in_map_iff in Hx as [item [<- Hin]].
  apply sentence_line_one_line.
  now apply (proj1 (forallb_forall _ _) Hclean).
Qed.

Lemma scan_content_skip (doc_name : string) (items : list (Z * string)) :
  wf_token doc_name = true ->
  forallb (fun item : Z * string =>
             clean_line (transform_brackets (snd item))) items = true ->
  forall rest acc,
    scan_content doc_name false
      (map (fun line : string => (line ++ LF)%string)
           (map sentence_line items) ++ rest)%list acc
    = scan_content doc_name false rest acc.
Proof.
  intros Hwf. destruct (wf_token_visible _ Hwf) as [_ Hv].
  induction items as [|item items IH]; intros H rest acc; [reflexivity|].
  cbn [forallb] in H. apply andb_true_iff in H as [Hi Hl].
  destruct (clean_line_inv _ Hi) as [_ [_ He]].
  destruct (sentence_line_read (fst item) _ He) as [Hs [Hsp _]].
  change (PyStr.str_of_Z (fst item) ++ " "
            ++ chomp (transform_brackets (snd item)))
    with (sentence_line item) in *.
  cbn [map app scan_content]. rewrite Hs.
  destruct (String.eqb_spec (sentence_line item) doc_name)
    as [Heq|_]; [|now apply IH].
  rewrite Heq in Hsp. now rewrite (lacks_space_visible _ Hv) in Hsp.
Qed.

Lemma scan_content_take (doc_name : string) (items : list (Z * string)) :
  forallb (fun item : Z * string =>
             clean_line (transform_brackets (snd item))) items = true ->
  forall rest acc,
    match rest with
    | [] => True
    | line :: _ => PyStr.find_char " " (PyStr.strip line) = None
    end ->
    scan_content doc_name true
      (map (fun line : string => (line ++ LF)%string)
           (map sentence_line items) ++ rest)%list acc
    = Ok (acc ++ map read_back items)%list.
Proof.
  induction items as [|item items IH]; intros H rest acc Hrest.
  - cbn [map app]. rewrite app_nil_r.
    destruct rest as [|line rest]; [reflexivity|].
    cbn [scan_content]. now rewrite Hrest.
  - cbn [forallb] in H. apply andb_true_iff in H as [Hi Hl].
    destruct (clean_line_inv _ Hi) as [_ [_ He]].
    destruct (sentence_line_read (fst item) _ He)
      as [Hs [_ [Hf [Ht Hd]]]].
    change (PyStr.str_of_Z (fst item) ++ " "
              ++ chomp (transform_brackets (snd item)))
      with (sentence_line item) in *.
    cbn [map app scan_content].
    rewrite Hs, Hf. cbv beta iota.
    rewrite Ht, py_int_str_of_Z. cbn [outcome_bind]. rewrite Hd.
    rewrite (IH Hl rest _ Hrest). now rewrite <- app_assoc.
Qed.

(** The scan of a leaf file of the content tree returns the sentences
    of the document in the order of their numbers, and nothing when the
    leaf does not hold the document. *)
Lemma scan_content_leaf (dl : pydict) (doc_name : string)
      (ks : list string) :
  wf_token doc_name = true ->
  forallb (doc_entry_ok dl) ks = true ->
  forall acc,
    scan_content doc_name false
                 (map (fun line => line ++ LF) (flat_map (doc_lines dl) ks))
                 acc
    = Ok (acc ++ if PySet.mem doc_name ks
                 then map read_back
                          (sorted item_leb (sents_of dl doc_name))
                 else [])%list.
Proof.
  intros Hwf.
  induction ks as [|k ks IH]; intros H acc.
  - cbn. now rewrite app_nil_r.
  - cbn [forallb] in H. apply andb_true_iff in H as [Hk Hks].
    destruct (doc_entry_ok_lines dl k Hk) as [Hkwf [items [Hg [Hclean Hl]]]].
    cbn [flat_map]. rewrite Hl, map_app. cbn [map app scan_content].
    destruct (token_line k Hkwf) as [-> _].
    unfold PySet.mem. cbn [existsb].
    rewrite (String.eqb_sym doc_name k).
    destruct (String.eqb_spec k doc_name) as [->|Hne].
    + cbn [orb]. rewrite scan_content_take; [|exact Hclean|].
      * unfold sents_of. now rewrite Hg.
      * destruct ks as [|k2 ks2]; [exact I|].
        cbn [forallb] in Hks. apply andb_true_iff in Hks as [Hk2 _].
        destruct (doc_entry_ok_lines dl k2 Hk2)
          as [Hwf2 [items2 [_ [_ Hl2]]]].
        cbn [flat_map]. rewrite Hl2. cbn [map app].
        destruct (token_line k2 Hwf2) as [-> _].
        apply find_char_lacks. apply lacks_space_visible.
        now apply wf_token_visible.
    + cbn [orb]. rewrite scan_content_skip by assumption.
      apply (IH Hks).
Qed.



(** ** [index_documents] *)

Lemma leaf_text_same (fs fs' : filesys) (root : string) :
  (forall c p, prefix (shard root c) p = true ->
               PyDict.get p fs' = PyDict.get p fs) ->
  forall digits,
    leaf_text (view_of fs') root digits = leaf_text (view_of fs) root digits.
Proof.
  intros H [|c digits]; [reflexivity|].
  apply leaf_text_ext. intros p Hp. now apply (H c).
Qed.

(** X24.  [index_documents] never completes and serves no lookup.
    Whatever the disk holds, the function ends in an exception, which
    it prints; the counters are as before; on the disk nothing changes
    except, possibly, that the folder of the name index is created,
    empty; and every lookup, by [search_word] or by [get_doc_content],
    returns after the call what it returned before it. *)
Theorem index_documents_changes_no_lookup (platform : string) (w : world)
        (key : string) :
  exists e,
    snd (index_documents platform w) = Some e
    /\ w_glob (fst (index_documents platform w)) = w_glob w
    /\ (forall p, p <> INDEX_FOLDER ->
                  PyDict.get p (w_fs (fst (index_documents platform w)))
                  = PyDict.get p (w_fs w))
    /\ search_word (view_of (w_fs (fst (index_documents platform w)))) key
       = search_word (view_of (w_fs w)) key
    /\ get_doc_content (view_of (w_fs (fst (index_documents platform w))))
                       key
       = get_doc_content (view_of (w_fs w)) key.
Proof.
  unfold index_documents.
  destruct (index_documents_try_raises platform w) as [e [w' [-> [Hg Hfs]]]].
  exists e. cbn [fst snd]. split; [reflexivity|]. split; [exact Hg|].
  assert (Hkeep : forall p, p <> INDEX_FOLDER ->
                    PyDict.get p (w_fs w') = PyDict.get p (w_fs w)).
  { intros p Hp. destruct Hfs as [->| ->]; [reflexivity|].
    apply get_set_other. congruence. }
  split; [exact Hkeep|]. split.
  - rewrite !search_word_leaf_text.
    rewrite (leaf_text_same (w_fs w) (w_fs w') INDEX_FOLDER); [reflexivity|].
    intros c p Hp. apply Hkeep. intros ->.
    rewrite <- (append_nil_r (shard INDEX_FOLDER c)) in Hp.
    now rewrite shard_not_folder in Hp.
  - rewrite !get_doc_content_leaf_text.
    rewrite (leaf_text_same (w_fs w) (w_fs w') DOC_FOLDER); [reflexivity|].
    intros c p Hp. apply Hkeep. intros ->. discriminate Hp.
Qed.

Lemma process_line_first_round (platform : string)
      (index_dict doc_dict : pydict) (st : scan_state) (line : string)
      (w : world) :
  process_line platform true index_dict doc_dict st line w
  = (w, if String.eqb (line_doc_name line) (current_doc st) then Ok st
        else if has_word (current_doc st)
             then Raise (NameError "index_node")
             else Ok (mkScan (line_doc_name line) [])).
Proof.
  unfold process_line, line_doc_name.
  destruct (String.eqb _ (current_doc st)); cbn [negb]; [reflexivity|].
  unfold bind at 1. unfold bind at 1.
  destruct (PyStr.nonempty (current_doc st)) eqn:Hn.
  - rewrite add_doc_name_result.
    destruct (has_word (current_doc st)); reflexivity.
  - destruct (current_doc st); [reflexivity | discriminate].
Qed.

Lemma first_round_lines (platform : string) (index_dict doc_dict : pydict)
      (lines : list string) :
  forall (st : scan_state) (w : world),
    fold_M (process_line platform true index_dict doc_dict) lines st w
    = (w, Raise (NameError "index_node"))
    \/ exists st',
        fold_M (process_line platform true index_dict doc_dict) lines st w
        = (w, Ok st')
        /\ (has_word (current_doc st) = true
            \/ (exists line, In line lines
                             /\ has_word (line_doc_name line) = true) ->
            has_word (current_doc st') = true).
Proof.
  induction lines as [|line lines IH]; intros st w.
  - right. exists st. split; [reflexivity|].
    intros [H|[line [[] _]]]. exact H.
  - cbn [fold_M]. unfold bind. rewrite process_line_first_round.
    destruct (String.eqb_spec (line_doc_name line) (current_doc st))
      as [Heq|Hne].
    + destruct (IH st w) as [Hr|[st' [Hr Hw]]]; [now left|].
      right. exists st'. split; [exact Hr|].
      intros [H|[l [[<-|Hin] Hl]]]; apply Hw.
      * now left.
      * left. now rewrite <- Heq.
      * right. eauto.
    + destruct (has_word (current_doc st)) eqn:Hcur; [now left|].
      destruct (IH (mkScan (line_doc_name line) []) w)
        as [Hr|[st' [Hr Hw]]]; [now left|].
      right. exists st'. split; [exact Hr|].
      intros [H|[l [[<-|Hin] Hl]]]; [discriminate| |]; apply Hw.
      * now left.
      * right. eauto.
Qed.

Lemma first_round_files (platform : string) (index_dict doc_dict : pydict)
      (w : world) (files : list Z) :
  (forall j, In j files ->
             exists ls, input_lines platform (w_fs w) j = Some ls) ->
  forall st : scan_state,
    fold_M (fun st file_index =>
              lines <- read_file (get_input_pathname platform file_index) ;;
              fold_M (process_line platform true index_dict doc_dict)
                     lines st) files st w
    = (w, Raise (NameError "index_node"))
    \/ exists st',
        fold_M (fun st file_index =>
                  lines <- read_file (get_input_pathname platform
                                                         file_index) ;;
                  fold_M (process_line platform true index_dict doc_dict)
                         lines st) files st w
        = (w, Ok st')
        /\ (word_ahead platform (w_fs w) files st ->
            has_word (current_doc st') = true).
Proof.
  induction files as [|file_index files IH]; intros Hall st.
  - right. exists st. split; [reflexivity|].
    intros [H|[j [ls [l [[] _]]]]]. exact H.
  - destruct (Hall file_index (or_introl eq_refl)) as [ls Hls].
    assert (Hread : read_file (get_input_pathname platform file_index) w
                    = (w, Ok ls)).
    { unfold input_lines in Hls. unfold read_file.
      destruct (PyDict.get _ (w_fs w)) as [[|content]|]; try discriminate.
      now injection Hls as <-. }
    cbn [fold_M]. unfold bind. rewrite Hread. cbv beta iota.
    destruct (first_round_lines platform index_dict doc_dict ls st w)
      as [Hr|[st1 [Hr Hw1]]]; rewrite Hr; cbv beta iota; [now left|].
    destruct (IH (fun j Hj => Hall j (or_intror Hj)) st1)
      as [Hr2|[st' [Hr2 Hw2]]]; [left; exact Hr2|].
    right. exists st'. split; [exact Hr2|].
    intros [H|[j [ls' [l [[<-|Hj] [Hls' [Hl Hword]]]]]]]; apply Hw2.
    + left. apply Hw1. now left.
    + left. apply Hw1. right. rewrite Hls in Hls'. injection Hls' as <-.
      eauto.
    + right. exists j, ls', l. auto.
Qed.

(** X25.  The build of every real corpus stops at its first insert.
    When all the input files are there and some line of them names a
    document whose name holds a word (a letter or a digit), the first
    round of [index_documents] raises [NameError] for [index_node]; the
    function prints it and returns, and the disk and the counters are
    as they were: no folder, no file, no index. *)
Theorem index_documents_name_error (platform : string) (w : world)
        (file_index : Z) (lines : list string) (line : string) :
  (forall j, In j file_indices ->
             exists ls, input_lines platform (w_fs w) j = Some ls) ->
  In file_index file_indices ->
  input_lines platform (w_fs w) file_index = Some lines ->
  In line lines ->
  has_word (line_doc_name line) = true ->
  index_documents platform w = (w, Some (NameError "index_node")).
Proof.
  intros Hall Hi Hlines Hline Hword.
  unfold index_documents, index_documents_try, read_round.
  unfold bind at 1. unfold bind at 1.
  destruct (first_round_files platform [] [] w file_indices Hall
              (mkScan EmptyString []))
    as [Hr|[st' [Hr Hw]]]; rewrite Hr; [reflexivity|].
  unfold bind at 1. rewrite add_doc_name_result.
  rewrite Hw; [reflexivity|].
  right. exists file_index, lines, line. auto.
Qed.

Lemma index_documents_name_error_witness :
  index_documents "win32" (corpus_world "win32")
  = (corpus_world "win32", Some (NameError "index_node")).
Proof.
  apply (index_documents_name_error "win32" (corpus_world "win32") 1
           (read_lines [] corpus_text)
           ("Soul 1 It began in the 1950s ." ++ LF)).
  - intros j Hj. unfold input_lines.
    assert (Hfiles : forallb
                       (fun j =>
                          match PyDict.get (get_input_pathname "win32" j)
                                           (w_fs (corpus_world "win32")) with
                          | Some (FFile _) => true
                          | _ => false
                          end) file_indices = true) by now vm_compute.
    pose proof (proj1 (forallb_forall _ _) Hfiles j Hj) as H.
    cbv beta in H.
    destruct (PyDict.get _ _) as [[|content]|]; try discriminate. eauto.
  - now left.
  - reflexivity.
  - now left.
  - reflexivity.
Defined.

(** X26.  A missing input file stops the build before it starts.  When
    the first input file is not on the disk, [index_documents] ends with
    [FileNotFoundError] for its path and leaves the disk and the
    counters as they were. *)
Theorem index_documents_missing_input (platform : string) (w : world) :
  PyDict.get (get_input_pathname platform 1) (w_fs w) = None ->
  index_documents platform w
  = (w, Some (FileNotFoundError (get_input_pathname platform 1))).
Proof.
  intros Hmiss.
  unfold index_documents, index_documents_try, read_round.
  assert (Hfiles : exists rest, file_indices = 1%Z :: rest)
    by (eexists; reflexivity).
  destruct Hfiles as [rest ->].
  cbn [fold_M]. unfold bind, read_file. now rewrite Hmiss.
Qed.

Lemma index_documents_missing_input_witness :
  index_documents "linux" initial_world
  = (initial_world, Some (FileNotFoundError (get_input_pathname "linux" 1))).
Proof.
  apply (index_documents_missing_input "linux" initial_world). reflexivity.
Defined.

(** ** A blank sentence in a leaf file *)

Lemma rstrip_by_blank (p : ascii -> bool) (ws : string) :
  forallb p (PyStr.chars ws) = true ->
  forall a, PyStr.rstrip_by p (a ++ ws) = PyStr.rstrip_by p a.
Proof.
  induction ws as [|c ws IH]; intros H a.
  - now rewrite append_nil_r.
  - cbn in H. apply andb_true_iff in H as [Hc Hws].
    change (String c ws) with (String c EmptyString ++ ws).
    rewrite <- append_assoc, (IH Hws). now apply rstrip_by_snoc.
Qed.

(** A line made of a number, a space and white space only is read as
    the number, in which [find] meets no space. *)
Lemma blank_line_read (z : Z) (blank : string) :
  forallb PyStr.char_isspace (PyStr.chars blank) = true ->
  PyStr.find_char " " (PyStr.strip (PyStr.str_of_Z z ++ " " ++ blank))
  = None.
Proof.
  intros Hb. destruct (str_of_Z_visible z) as [Hne Hv].
  assert (Hs : PyStr.strip (PyStr.str_of_Z z ++ " " ++ blank)
               = PyStr.str_of_Z z).
  { unfold PyStr.strip, PyStr.strip_by.
    destruct (PyStr.str_of_Z z) as [|c a] eqn:Hz; [contradiction|].
    pose proof Hv as Hv'.
    cbn in Hv. apply andb_true_iff in Hv as [Hc _].
    apply negb_true_iff in Hc.
    cbn [append]. rewrite lstrip_by_head by exact Hc.
    change (String c (a ++ String " " blank))
      with (String c a ++ String " " blank).
    rewrite rstrip_by_blank by (cbn; exact Hb).
    now apply rstrip_by_none. }
  rewrite Hs. apply find_char_lacks. now apply lacks_space_visible.
Qed.

(** The scan of the sentences of a document ends at a blank line. *)
Lemma scan_content_blank (doc_name : string) (items : list (Z * string))
      (n : Z) (blank : string) (rest : list string) :
  forallb (fun item : Z * string => ends_visible (snd item)) items = true ->
  forallb PyStr.char_isspace (PyStr.chars blank) = true ->
  forall acc,
    scan_content doc_name true
      (map (fun item : Z * string =>
              (PyStr.str_of_Z (fst item) ++ " " ++ snd item ++ LF)%string)
           items
       ++ (PyStr.str_of_Z n ++ " " ++ blank)%string :: rest)%list acc
    = Ok (acc ++ items)%list.
Proof.
  intros Hitems Hb.
  induction items as [|[z t] items IH]; intros acc.
  - cbn [map app scan_content]. rewrite blank_line_read by exact Hb.
    now rewrite app_nil_r.
  - cbn [forallb snd] in Hitems. apply andb_true_iff in Hitems as [He Hl].
    destruct (sentence_line_read z t He) as [Hs [_ [Hf [Ht Hd]]]].
    cbn [map app scan_content fst snd].
    replace (PyStr.str_of_Z z ++ " " ++ t ++ LF)
      with ((PyStr.str_of_Z z ++ " " ++ t) ++ LF)
      by (now rewrite !append_assoc).
    rewrite Hs, Hf. cbv beta iota.
    rewrite Ht, py_int_str_of_Z. cbn [outcome_bind]. rewrite Hd.
    rewrite (IH Hl). now rewrite <- app_assoc.
Qed.


